(** * kover: scene parser, validator and queries (src/src/kover.c)

    A shallow embedding of the C program [kover.c] and the proofs of the
    properties its specification states about it.

    Conventions of the embedding.
    - A C string is the Rocq [string] of its characters before the
      terminating NUL; reading [str[i]] at the end of the Rocq string is
      reading the terminator.
    - [int] is a 32-bit two's complement integer, carried by [Z]; the
      arithmetic of the program is written with its wrap-around
      ([int_add], [int_sub]).  The C standard leaves signed overflow
      undefined, so statements that speak of the mathematical sum or
      difference ask that it is representable.
    - The three standard streams are fields of a [World]; the functions that
      read or print are computations of the state monad [IO] over it.
    - The arrays of a [Scene], with their element counts, are lists; the
      fixed capacities [MAX_BUILDINGS] and [MAX_ANTENNAS] (the program never
      tests them) are outside the embedding. *)

From Stdlib Require Import Bool Arith ZArith Lia List Ascii String.
From Stdlib Require Import Sorted Permutation DecimalString OrdersEx RelationClasses.
From Stdlib Require Import DecimalPos.
Import ListNotations.

Local Open Scope string_scope.
Local Open Scope Z_scope.

(** ** Characters and the <ctype.h> classes (C locale) *)

Definition code (c : ascii) : Z := Z.of_N (N_of_ascii c).

Definition NUL : ascii := "000"%char.
Definition newline : ascii := "010"%char.

(** The string made of one line feed, and of one double quote. *)
Definition endl : string := String newline EmptyString.
Definition dquote : string := String "034"%char EmptyString.

Definition isdigit (c : ascii) : bool := (48 <=? code c) && (code c <=? 57).

Definition isalpha (c : ascii) : bool :=
  ((65 <=? code c) && (code c <=? 90)) || ((97 <=? code c) && (code c <=? 122)).

Definition isalnum (c : ascii) : bool := isalpha c || isdigit c.

Definition isspace (c : ascii) : bool :=
  (code c =? 32) || ((9 <=? code c) && (code c <=? 13)).

(** ** Machine integers *)

Definition INT_MAX : Z := 2147483647.
Definition INT_MIN : Z := -2147483648.
Definition LONG_MAX : Z := 9223372036854775807.
Definition LONG_MIN : Z := -9223372036854775808.

Definition in_int (z : Z) : Prop := INT_MIN <= z <= INT_MAX.

(** Reduction of an integer to the 32-bit two's complement range. *)
Definition wrap_int (z : Z) : Z := (z + 2 ^ 31) mod 2 ^ 32 - 2 ^ 31.

Definition int_add (a b : Z) : Z := wrap_int (a + b).
Definition int_sub (a b : Z) : Z := wrap_int (a - b).

(** ** Size and configuration constants *)

Definition MAX_LINE_LENGTH : nat := 51.
Definition MAX_ID_LENGTH : nat := 11.
Definition MAX_BUILDINGS : nat := 100.
Definition MAX_ANTENNAS : nat := 100.
Definition MAX_ARG_LENGTH : nat := 11.

Definition SUCCESS : Z := 0.
Definition ERROR : Z := 1.

Definition VALID_SUBCOMMANDS : list string :=
  ["bounding-box"; "describe"; "help"; "summarize"].

(** ** Data structures *)

Record Building := mkBuilding
  { b_id : string; b_x : Z; b_y : Z; b_w : Z; b_h : Z }.

Record Antenna := mkAntenna
  { a_id : string; a_x : Z; a_y : Z; a_r : Z }.

Record Scene := mkScene
  { buildings : list Building; antennas : list Antenna }.

Definition num_buildings (s : Scene) : nat := List.length (buildings s).
Definition num_antennas (s : Scene) : nat := List.length (antennas s).

(** ** <string.h> and <stdlib.h> *)

(** [strcmp] compares byte by byte, as unsigned characters; only the sign of
    its result is specified, which is what the model returns. *)
Definition strcmp (s1 s2 : string) : Z :=
  match String_as_OT.compare s1 s2 with
  | Eq => 0
  | Lt => -1
  | Gt => 1
  end.

Fixpoint skip_spaces (s : string) : string :=
  match s with
  | EmptyString => EmptyString
  | String c r => if isspace c then skip_spaces r else s
  end.

(** The value of the leading run of digits of [s], accumulated on [acc]. *)
Fixpoint digits_value (s : string) (acc : Z) : Z :=
  match s with
  | EmptyString => acc
  | String c r =>
      if isdigit c then digits_value r (10 * acc + (code c - 48)) else acc
  end.

Definition clamp_long (z : Z) : Z := Z.max LONG_MIN (Z.min LONG_MAX z).

(** [strtol (s, NULL, 10)]: white space, an optional sign, digits; the
    value saturates at the bounds of [long]. *)
Definition strtol (s : string) : Z :=
  match skip_spaces s with
  | String "-"%char r => clamp_long (- digits_value r 0)
  | String "+"%char r => clamp_long (digits_value r 0)
  | r => clamp_long (digits_value r 0)
  end.

(** [atoi] is [(int) strtol (s, NULL, 10)]. *)
Definition atoi (s : string) : Z := wrap_int (strtol s).

(** [printf ("%d", z)]. *)
Definition fmt_d (z : Z) : string := NilZero.string_of_int (Z.to_int z).

(** ** Utility and validation functions *)

Definition is_blank (c : ascii) : bool :=
  Ascii.eqb c " "%char || Ascii.eqb c "009"%char.

Definition is_valid_id_char (c : ascii) (first : bool) : bool :=
  if first then isalpha c || Ascii.eqb c "_"%char
  else isalnum c || Ascii.eqb c "_"%char.

(** The loop [for (i = 1; id[i]; i++)] of [is_valid_id]. *)
Fixpoint valid_id_tail (s : string) : bool :=
  match s with
  | EmptyString => true
  | String c r => if negb (is_valid_id_char c false) then false else valid_id_tail r
  end.

Definition is_valid_id (id : string) : bool :=
  match id with
  | EmptyString => false
  | String c r =>
      if negb (is_valid_id_char c true) then false else valid_id_tail r
  end.

(** The loop [for (i = start; str[i]; i++) if (!isdigit (str[i])) return false]
    shared by the two integer validators. *)
Fixpoint all_digits (s : string) : bool :=
  match s with
  | EmptyString => true
  | String c r => if negb (isdigit c) then false else all_digits r
  end.

Definition is_empty (s : string) : bool :=
  match s with EmptyString => true | _ => false end.

Definition is_valid_integer (str : string) : bool :=
  match str with
  | EmptyString => false
  | String c0 rest =>
      if Ascii.eqb c0 "0"%char && negb (is_empty rest) then false
      else
        if Ascii.eqb c0 "-"%char then
          if is_empty rest then false else all_digits rest
        else all_digits str
  end.

Definition is_valid_positive_integer (str : string) : bool :=
  match str with
  | EmptyString => false
  | String c0 _ =>
      if Ascii.eqb c0 "-"%char || Ascii.eqb c0 "0"%char then false
      else all_digits str
  end.

Definition is_valid_subcommand (subcommand : string) : bool :=
  existsb (fun v => strcmp subcommand v =? 0) VALID_SUBCOMMANDS.

Definition is_begin_scene (line : string) : bool :=
  strcmp line "begin scene" =? 0.

Definition is_end_scene (line : string) : bool :=
  strcmp line "end scene" =? 0.

(** ** The standard streams *)

Record World := mkWorld
  { w_stdin : string; w_stdout : string; w_stderr : string }.

Definition IO (A : Type) : Type := World -> A * World.

Definition ret {A : Type} (a : A) : IO A := fun w => (a, w).

Definition bind {A B : Type} (m : IO A) (k : A -> IO B) : IO B :=
  fun w => let (a, w') := m w in k a w'.

Notation "x <- m ;; k" := (bind m (fun x => k))
  (at level 61, m at next level, right associativity).
Notation "m ;;; k" := (bind m (fun _ => k))
  (at level 61, right associativity).

(** [printf] and [fprintf (stderr, ...)] of an already formatted text. *)
Definition printf (text : string) : IO unit :=
  fun w => (tt, mkWorld (w_stdin w) (w_stdout w ++ text) (w_stderr w)).

Definition eprintf (text : string) : IO unit :=
  fun w => (tt, mkWorld (w_stdin w) (w_stdout w) (w_stderr w ++ text)).

(** [read_upto n s]: the characters [fgets] stores when at most [n] may be
    read from [s] (through the first line feed, or [n] of them, or all that
    is left), and the rest of the stream. *)
Fixpoint read_upto (n : nat) (s : string) : string * string :=
  match n, s with
  | O, _ => (EmptyString, s)
  | S _, EmptyString => (EmptyString, EmptyString)
  | S n', String c r =>
      if Ascii.eqb c newline then (String c EmptyString, r)
      else let (buf, rest) := read_upto n' r in (String c buf, rest)
  end.

(** [fgets (line, size, stdin)]: [None] is the null pointer returned at the
    end of the stream. *)
Definition fgets (size : nat) : IO (option string) :=
  fun w =>
    match w_stdin w with
    | EmptyString => (None, w)
    | _ =>
        let (buf, rest) := read_upto (size - 1) (w_stdin w) in
        (Some buf, mkWorld rest (w_stdout w) (w_stderr w))
    end.

(** [line[strcspn (line, "\n")] = 0] on the buffer filled by [fgets]: the
    line is what precedes the first line feed; a NUL byte read from the
    stream ends the C string as well. *)
Fixpoint chomp (buf : string) : string :=
  match buf with
  | EmptyString => EmptyString
  | String c r =>
      if Ascii.eqb c newline || Ascii.eqb c NUL then EmptyString
      else String c (chomp r)
  end.

(** ** [sscanf] *)

(** The directives of the formats the program uses: white space, an ordinary
    character, and [%Ns]. *)
Inductive directive : Type :=
  | Ws
  | Lit (c : ascii)
  | Str (width : nat).

(** Reading of a format string; [conv] is the width read so far inside a
    conversion specification. *)
Fixpoint directives (fmt : string) (conv : option nat) : list directive :=
  match fmt with
  | EmptyString => []
  | String c r =>
      match conv with
      | Some width =>
          if isdigit c
          then directives r (Some (10 * width + Z.to_nat (code c - 48))%nat)
          else Str width :: directives r None
      | None =>
          if isspace c then Ws :: directives r None
          else if Ascii.eqb c "%"%char then directives r (Some O)
          else Lit c :: directives r None
      end
  end.

(** The characters a [%Ns] conversion stores (at most [n], none of them
    white space), and what is left of the input. *)
Fixpoint scan_field (n : nat) (s : string) : string * string :=
  match n, s with
  | O, _ => (EmptyString, s)
  | S _, EmptyString => (EmptyString, EmptyString)
  | S n', String c r =>
      if isspace c then (EmptyString, s)
      else let (field, rest) := scan_field n' r in (String c field, rest)
  end.

Definition EOF : Z := -1.

(** The value [sscanf] returns when it stops after [assigned]: the number of
    fields stored or, on an input failure before the first of them, [EOF]. *)
Definition input_failure (assigned : list string) : Z :=
  match assigned with
  | [] => EOF
  | _ => Z.of_nat (List.length assigned)
  end.

Fixpoint scan (fmt : list directive) (input : string) (assigned : list string)
  : Z * list string :=
  match fmt with
  | [] => (Z.of_nat (List.length assigned), assigned)
  | Ws :: fmt' => scan fmt' (skip_spaces input) assigned
  | Lit c :: fmt' =>
      match input with
      | EmptyString => (input_failure assigned, assigned)
      | String c' rest =>
          if Ascii.eqb c c' then scan fmt' rest assigned
          else (Z.of_nat (List.length assigned), assigned)
      end
  | Str n :: fmt' =>
      match skip_spaces input with
      | EmptyString => (input_failure assigned, assigned)
      | input' =>
          let (field, rest) := scan_field n input' in
          scan fmt' rest (assigned ++ [field])
      end
  end.

(** [sscanf (input, fmt, ...)]: the returned count and the strings stored, in
    the order of the arguments. *)
Definition sscanf (input fmt : string) : Z * list string :=
  scan (directives fmt None) input [].

(** The [i]-th output argument after the call. *)
Definition arg (i : nat) (args : list string) : string :=
  nth i args EmptyString.

(** ** Scene and building validation functions *)

Definition buildings_overlap (b1 b2 : Building) : bool :=
  negb ((int_add (b_x b1) (b_w b1) <=? int_sub (b_x b2) (b_w b2))
        || (int_sub (b_x b1) (b_w b1) >=? int_add (b_x b2) (b_w b2))
        || (int_add (b_y b1) (b_h b1) <=? int_sub (b_y b2) (b_h b2))
        || (int_sub (b_y b1) (b_h b1) >=? int_add (b_y b2) (b_h b2))).

Definition is_duplicate_building_id (scene : Scene) (id : string) : bool :=
  existsb (fun b => strcmp (b_id b) id =? 0) (buildings scene).

Definition is_duplicate_antenna_id (scene : Scene) (id : string) : bool :=
  existsb (fun a => strcmp (a_id a) id =? 0) (antennas scene).

Definition has_same_position (a1 a2 : Antenna) : bool :=
  (a_x a1 =? a_x a2) && (a_y a1 =? a_y a2).

(** The two nested loops of [check_building_overlaps], over the elements
    from index [i] on: the result is the pair of identifiers copied to
    [id1] and [id2], or [None] when the function returns false. *)
Fixpoint building_overlaps_from (l : list Building) : option (string * string) :=
  match l with
  | [] => None
  | bi :: l' =>
      match find (fun bj => buildings_overlap bi bj) l' with
      | Some bj => Some (b_id bi, b_id bj)
      | None => building_overlaps_from l'
      end
  end.

Definition check_building_overlaps (scene : Scene) : option (string * string) :=
  building_overlaps_from (buildings scene).

Fixpoint antenna_positions_from (l : list Antenna) : option (string * string) :=
  match l with
  | [] => None
  | ai :: l' =>
      match find (fun aj => has_same_position ai aj) l' with
      | Some aj => Some (a_id ai, a_id aj)
      | None => antenna_positions_from l'
      end
  end.

Definition check_antenna_positions (scene : Scene) : option (string * string) :=
  antenna_positions_from (antennas scene).

(** ** Error handling functions *)

Definition line_suffix (line_num : Z) : string :=
  " (line #" ++ fmt_d line_num ++ ")" ++ endl.

Definition print_error_line (line_num : Z) : IO unit :=
  eprintf ("error: unrecognized line" ++ line_suffix line_num).

Definition print_error_mandatory : IO unit :=
  eprintf ("error: subcommand is mandatory" ++ endl).

Definition print_error_unrecognized (subcommand : string) : IO unit :=
  eprintf ("error: subcommand '" ++ subcommand ++ "' is not recognized" ++ endl).

(** The texts of the diagnostics of the two line parsers. *)
Definition msg_wrong_arguments (kind : string) (line_num : Z) : string :=
  "error: " ++ kind ++ " line has wrong number of arguments" ++ line_suffix line_num.

Definition msg_invalid (what token : string) (line_num : Z) : string :=
  "error: invalid " ++ what ++ " " ++ dquote ++ token ++ dquote
  ++ line_suffix line_num.

(** ** Parsing functions *)

(** The result is [Some building] when the function returns true, having
    filled [*building], and [None] when it returns false. *)
Definition parse_building_line (line : string) (line_num : Z)
  : IO (option Building) :=
  let (n, args) := sscanf line " building %10s %10s %10s %10s %10s " in
  let id := arg 0 args in
  let x_str := arg 1 args in
  let y_str := arg 2 args in
  let w_str := arg 3 args in
  let h_str := arg 4 args in
  if negb (n =? 5) then
    eprintf (msg_wrong_arguments "building" line_num) ;;; ret None
  else if negb (is_valid_id id) then
    eprintf (msg_invalid "identifier" id line_num) ;;; ret None
  else if negb (is_valid_integer x_str) then
    eprintf (msg_invalid "integer" x_str line_num) ;;; ret None
  else if negb (is_valid_integer y_str) then
    eprintf (msg_invalid "integer" y_str line_num) ;;; ret None
  else if negb (is_valid_positive_integer w_str) then
    eprintf (msg_invalid "positive integer" w_str line_num) ;;; ret None
  else if negb (is_valid_positive_integer h_str) then
    eprintf (msg_invalid "positive integer" h_str line_num) ;;; ret None
  else
    ret (Some (mkBuilding id (atoi x_str) (atoi y_str) (atoi w_str) (atoi h_str))).

Definition parse_antenna_line (line : string) (line_num : Z)
  : IO (option Antenna) :=
  let (n, args) := sscanf line " antenna %10s %10s %10s %10s " in
  let id := arg 0 args in
  let x_str := arg 1 args in
  let y_str := arg 2 args in
  let r_str := arg 3 args in
  if negb (n =? 4) then
    eprintf (msg_wrong_arguments "antenna" line_num) ;;; ret None
  else if negb (is_valid_id id) then
    eprintf (msg_invalid "identifier" id line_num) ;;; ret None
  else if negb (is_valid_integer x_str) then
    eprintf (msg_invalid "integer" x_str line_num) ;;; ret None
  else if negb (is_valid_integer y_str) then
    eprintf (msg_invalid "integer" y_str line_num) ;;; ret None
  else if negb (is_valid_positive_integer r_str) then
    eprintf (msg_invalid "positive integer" r_str line_num) ;;; ret None
  else
    ret (Some (mkAntenna id (atoi x_str) (atoi y_str) (atoi r_str))).

(** ** Scene processing functions *)

Definition init_scene : Scene := mkScene [] [].

Definition msg_building_non_unique (id : string) : string :=
  "error: building identifier " ++ id ++ " is non unique" ++ endl.

Definition msg_overlapping (id1 id2 : string) : string :=
  "error: buildings " ++ id1 ++ " and " ++ id2 ++ " are overlapping" ++ endl.

Definition msg_antenna_non_unique (id : string) : string :=
  "error: antenna identifier " ++ id ++ " is non unique" ++ endl.

Definition msg_same_position (id1 id2 : string) : string :=
  "error: antennas " ++ id1 ++ " and " ++ id2 ++ " have the same position" ++ endl.

(** The functions that take [Scene* scene] return the scene they leave
    behind, next to their boolean result. *)
Definition process_building (scene : Scene) (line : string) (line_num : Z)
  : IO (bool * Scene) :=
  r <- parse_building_line line line_num ;;
  match r with
  | None => ret (false, scene)
  | Some building =>
      if is_duplicate_building_id scene (b_id building) then
        eprintf (msg_building_non_unique (b_id building)) ;;; ret (false, scene)
      else
        match find (fun bi => buildings_overlap bi building) (buildings scene) with
        | Some bi =>
            eprintf (msg_overlapping (b_id bi) (b_id building)) ;;;
            ret (false, scene)
        | None =>
            ret (true, mkScene (buildings scene ++ [building]) (antennas scene))
        end
  end.

Definition process_antenna (scene : Scene) (line : string) (line_num : Z)
  : IO (bool * Scene) :=
  r <- parse_antenna_line line line_num ;;
  match r with
  | None => ret (false, scene)
  | Some antenna =>
      if is_duplicate_antenna_id scene (a_id antenna) then
        eprintf (msg_antenna_non_unique (a_id antenna)) ;;; ret (false, scene)
      else
        let scene' := mkScene (buildings scene) (antennas scene ++ [antenna]) in
        match check_antenna_positions scene' with
        | Some (id1, id2) =>
            eprintf (msg_same_position id1 id2) ;;; ret (false, scene')
        | None => ret (true, scene')
        end
  end.

Definition process_line (scene : Scene) (line : string) (line_num : Z)
  : IO (bool * Scene) :=
  let (n, args) := sscanf line " %10s " in
  let type := arg 0 args in
  if negb (n =? 1) then
    print_error_line line_num ;;; ret (false, scene)
  else if strcmp type "building" =? 0 then
    process_building scene line line_num
  else if strcmp type "antenna" =? 0 then
    process_antenna scene line line_num
  else
    print_error_line line_num ;;; ret (false, scene).

Definition msg_first_line : string :=
  "error: first line must be exactly 'begin scene'" ++ endl.

Definition msg_last_line : string :=
  "error: last line must be exactly 'end scene'" ++ endl.

(** The [while (fgets (...))] loop of [read_scene].  Every turn of the loop
    that does not leave it has taken at least one character from the
    stream; [fuel] bounds the number of turns, and [None] is returned when it
    runs out. *)
Fixpoint read_lines (fuel : nat) (scene : Scene) (line_num : Z)
  : IO (option (bool * Scene)) :=
  match fuel with
  | O => ret None
  | S fuel' =>
      r <- fgets MAX_LINE_LENGTH ;;
      match r with
      | None => eprintf msg_last_line ;;; ret (Some (false, scene))
      | Some buf =>
          let line_num := int_add line_num 1 in
          let line := chomp buf in
          if is_end_scene line then ret (Some (true, scene))
          else
            p <- process_line scene line line_num ;;
            if negb (fst p) then ret (Some (false, snd p))
            else read_lines fuel' (snd p) line_num
      end
  end.

(** [read_scene]; the loop is given more turns than the stream has
    characters. *)
Definition read_scene (scene : Scene) : IO (option (bool * Scene)) :=
  r <- fgets MAX_LINE_LENGTH ;;
  match r with
  | None => ret (Some (false, scene))
  | Some buf =>
      if negb (is_begin_scene (chomp buf)) then
        eprintf msg_first_line ;;; ret (Some (false, scene))
      else
        fun w => read_lines (S (String.length (w_stdin w))) scene 1 w
  end.

(** ** Scene computation functions *)

(** The four output parameters of [compute_bounding_box]. *)
Record Box := mkBox { min_x : Z; max_x : Z; min_y : Z; max_y : Z }.

(** One turn of the loop over the buildings. *)
Definition box_building (bx : Box) (b : Building) : Box :=
  let lo_x := int_sub (b_x b) (b_w b) in
  let hi_x := int_add (b_x b) (b_w b) in
  let lo_y := int_sub (b_y b) (b_h b) in
  let hi_y := int_add (b_y b) (b_h b) in
  mkBox (if lo_x <? min_x bx then lo_x else min_x bx)
        (if hi_x >? max_x bx then hi_x else max_x bx)
        (if lo_y <? min_y bx then lo_y else min_y bx)
        (if hi_y >? max_y bx then hi_y else max_y bx).

(** One turn of the loop over the antennas. *)
Definition box_antenna (bx : Box) (a : Antenna) : Box :=
  let lo_x := int_sub (a_x a) (a_r a) in
  let hi_x := int_add (a_x a) (a_r a) in
  let lo_y := int_sub (a_y a) (a_r a) in
  let hi_y := int_add (a_y a) (a_r a) in
  mkBox (if lo_x <? min_x bx then lo_x else min_x bx)
        (if hi_x >? max_x bx then hi_x else max_x bx)
        (if lo_y <? min_y bx then lo_y else min_y bx)
        (if hi_y >? max_y bx then hi_y else max_y bx).

Definition compute_bounding_box (scene : Scene) : Box :=
  let start := mkBox INT_MAX INT_MIN INT_MAX INT_MIN in
  fold_left box_antenna (antennas scene)
    (fold_left box_building (buildings scene) start).

(** ** Output functions *)

Definition print_bounding_box (scene : Scene) : IO unit :=
  if (num_buildings scene =? 0)%nat && (num_antennas scene =? 0)%nat then
    printf ("undefined (empty scene)" ++ endl)
  else
    let bx := compute_bounding_box scene in
    printf ("bounding box [" ++ fmt_d (min_x bx) ++ ", " ++ fmt_d (max_x bx)
            ++ "] x [" ++ fmt_d (min_y bx) ++ ", " ++ fmt_d (max_y bx) ++ "]"
            ++ endl).

(** The text of [printf ("%d thing%s", n, n > 1 ? "s" : "")]. *)
Definition counted (n : nat) (thing : string) : string :=
  fmt_d (Z.of_nat n) ++ " " ++ thing ++ (if (1 <? n)%nat then "s" else EmptyString).

Definition print_summary (scene : Scene) : IO unit :=
  if (num_buildings scene =? 0)%nat && (num_antennas scene =? 0)%nat then
    printf ("An empty scene" ++ endl)
  else
    printf "A scene with " ;;;
    (if (0 <? num_buildings scene)%nat then
       printf (counted (num_buildings scene) "building") ;;;
       (if (0 <? num_antennas scene)%nat then printf " and " else ret tt)
     else ret tt) ;;;
    (if (0 <? num_antennas scene)%nat then
       printf (counted (num_antennas scene) "antenna")
     else ret tt) ;;;
    printf endl.

Definition building_text (b : Building) : string :=
  "  building " ++ b_id b ++ " at " ++ fmt_d (b_x b) ++ " " ++ fmt_d (b_y b)
  ++ " with dimensions " ++ fmt_d (b_w b) ++ " " ++ fmt_d (b_h b) ++ endl.

Definition antenna_text (a : Antenna) : string :=
  "  antenna " ++ a_id a ++ " at " ++ fmt_d (a_x a) ++ " " ++ fmt_d (a_y a)
  ++ " with range " ++ fmt_d (a_r a) ++ endl.

Definition print_building (b : Building) : IO unit := printf (building_text b).

Definition print_antenna (a : Antenna) : IO unit := printf (antenna_text a).

Definition compare_ids (a b : string) : Z := strcmp a b.

(** [qsort] of an array of identifiers with [compare_ids].  The library
    promises the array sorted by the comparison function and nothing about
    the method; [compare_ids] tells apart any two different strings, so the
    sorted array is the same whatever the method.  The model inserts each
    element in turn. *)
Fixpoint qsort_insert (x : string) (l : list string) : list string :=
  match l with
  | [] => [x]
  | y :: l' => if compare_ids x y <=? 0 then x :: l else y :: qsort_insert x l'
  end.

Fixpoint qsort (l : list string) : list string :=
  match l with
  | [] => []
  | x :: l' => qsort_insert x (qsort l')
  end.

(** [for (i ...) body (ids[i])] *)
Fixpoint for_each {A : Type} (body : A -> IO unit) (l : list A) : IO unit :=
  match l with
  | [] => ret tt
  | x :: l' => body x ;;; for_each body l'
  end.

(** The inner loops of [print_description]: the first element carrying the
    identifier is printed. *)
Definition print_building_named (scene : Scene) (id : string) : IO unit :=
  match find (fun b => strcmp id (b_id b) =? 0) (buildings scene) with
  | Some b => print_building b
  | None => ret tt
  end.

Definition print_antenna_named (scene : Scene) (id : string) : IO unit :=
  match find (fun a => strcmp id (a_id a) =? 0) (antennas scene) with
  | Some a => print_antenna a
  | None => ret tt
  end.

Definition print_description (scene : Scene) : IO unit :=
  print_summary scene ;;;
  let building_ids := qsort (map b_id (buildings scene)) in
  for_each (print_building_named scene) building_ids ;;;
  let antenna_ids := qsort (map a_id (antennas scene)) in
  for_each (print_antenna_named scene) antenna_ids.

Definition print_help : IO unit :=
  printf ("Usage: kover SUBCOMMAND" ++ endl) ;;;
  printf ("Handles positioning of communication antennas by reading a scene on stdin."
          ++ endl ++ endl) ;;;
  printf ("SUBCOMMAND is mandatory and must take one of the following values:" ++ endl) ;;;
  printf ("  bounding-box: returns a bounding box of the loaded scene" ++ endl) ;;;
  printf ("  describe: describes the loaded scene in details" ++ endl) ;;;
  printf ("  help: shows this message" ++ endl) ;;;
  printf ("  summarize: summarizes the loaded scene" ++ endl ++ endl) ;;;
  printf ("A scene is a text stream that must satisfy the following syntax:"
          ++ endl ++ endl) ;;;
  printf ("  1. The first line must be exactly 'begin scene'" ++ endl) ;;;
  printf ("  2. The last line must be exactly 'end scene'" ++ endl) ;;;
  printf ("  3. Any line between the first and last line must either be a building line"
          ++ endl) ;;;
  printf ("     or an antenna line" ++ endl) ;;;
  printf ("  4. A building line has the form 'building ID X Y W H' (with any number of"
          ++ endl) ;;;
  printf ("     blank characters before or after), where" ++ endl) ;;;
  printf ("       ID is the building identifier" ++ endl) ;;;
  printf ("       X is the x-coordinate of the building" ++ endl) ;;;
  printf ("       Y is the y-coordinate of the building" ++ endl) ;;;
  printf ("       W is the half-width of the building" ++ endl) ;;;
  printf ("       H is the half-height of the building" ++ endl) ;;;
  printf ("  5. An antenna line has the form 'antenna ID X Y R' (with any number of"
          ++ endl) ;;;
  printf ("     blank characters before or after), where" ++ endl) ;;;
  printf ("       ID is the building identifier" ++ endl) ;;;
  printf ("       X is the x-coordinate of the antenna" ++ endl) ;;;
  printf ("       Y is the y-coordinate of the antenna" ++ endl) ;;;
  printf ("       R is the radius scope of the antenna" ++ endl).

(** ** Main function *)

(** [main]: [argv] is the argument vector, the program name first; the
    result is the exit status.  [None] stands for a reading loop cut short
    (see [read_lines]). *)
Definition main (argv : list string) : IO (option Z) :=
  if negb (List.length argv =? 2)%nat then
    print_error_mandatory ;;; ret (Some ERROR)
  else
    let subcommand := arg 1 argv in
    if strcmp subcommand "help" =? 0 then
      print_help ;;; ret (Some SUCCESS)
    else if negb (is_valid_subcommand subcommand) then
      print_error_unrecognized subcommand ;;; ret (Some ERROR)
    else
      r <- read_scene init_scene ;;
      match r with
      | None => ret None
      | Some (false, _) => ret (Some ERROR)
      | Some (true, scene) =>
          (if strcmp subcommand "bounding-box" =? 0 then print_bounding_box scene
           else if strcmp subcommand "describe" =? 0 then print_description scene
           else if strcmp subcommand "summarize" =? 0 then print_summary scene
           else ret tt) ;;;
          ret (Some SUCCESS)
      end.

(** The run of the program on an input text. *)
Definition run (argv : list string) (input : string) : option Z * World :=
  main argv (mkWorld input EmptyString EmptyString).

(** * Vocabulary of the properties *)

(** ** Lexical validators *)

(** The ten ASCII digits. *)
Definition ascii_digit (c : ascii) : Prop :=
  In c ["0"; "1"; "2"; "3"; "4"; "5"; "6"; "7"; "8"; "9"]%char.

Fixpoint only_digits (s : string) : Prop :=
  match s with
  | EmptyString => True
  | String c r => ascii_digit c /\ only_digits r
  end.

(** An optional minus sign, then a non-empty run of digits that starts with
    a zero only when it is the single digit zero. *)
Definition numeral (s : string) : Prop :=
  exists sign ds,
    s = sign ++ ds
    /\ (sign = EmptyString \/ sign = "-")
    /\ ds <> EmptyString
    /\ only_digits ds
    /\ (forall r, ds = String "0" r -> r = EmptyString).

(** The integers the specification describes: the numerals, without the
    signed zero. *)
Definition canonical_integer (s : string) : Prop :=
  numeral s /\ s <> "-0".

(** A minus sign, a zero, and at least one more digit. *)
Definition signed_leading_zero (s : string) : Prop :=
  exists ds, ds <> EmptyString /\ only_digits ds /\ s = "-0" ++ ds.

(** ** Overlap of buildings *)

(** The four extents of a building fit in an [int]: the sums and differences
    the program computes do not overflow. *)
Definition building_fits (b : Building) : Prop :=
  in_int (b_x b + b_w b) /\ in_int (b_x b - b_w b)
  /\ in_int (b_y b + b_h b) /\ in_int (b_y b - b_h b).

(** The separation of two rectangles, as the specification writes it, on
    the integers. *)
Definition separated (A B : Building) : Prop :=
  b_x A + b_w A <= b_x B - b_w B
  \/ b_x A - b_w A >= b_x B + b_w B
  \/ b_y A + b_h A <= b_y B - b_h B
  \/ b_y A - b_h A >= b_y B + b_h B.

(** The same, with the sums and differences of the program. *)
Definition separated_int (A B : Building) : Prop :=
  int_add (b_x A) (b_w A) <= int_sub (b_x B) (b_w B)
  \/ int_sub (b_x A) (b_w A) >= int_add (b_x B) (b_w B)
  \/ int_add (b_y A) (b_h A) <= int_sub (b_y B) (b_h B)
  \/ int_sub (b_y A) (b_h A) >= int_add (b_y B) (b_h B).

(** An edge of [A] lies on the line of the facing edge of [B]. *)
Definition edge_adjacent (A B : Building) : Prop :=
  b_x A + b_w A = b_x B - b_w B
  \/ b_x A - b_w A = b_x B + b_w B
  \/ b_y A + b_h A = b_y B - b_h B
  \/ b_y A - b_h A = b_y B + b_h B.

Definition edge_adjacent_int (A B : Building) : Prop :=
  int_add (b_x A) (b_w A) = int_sub (b_x B) (b_w B)
  \/ int_sub (b_x A) (b_w A) = int_add (b_x B) (b_w B)
  \/ int_add (b_y A) (b_h A) = int_sub (b_y B) (b_h B)
  \/ int_sub (b_y A) (b_h A) = int_add (b_y B) (b_h B).

(** ** The tokenizer *)

Fixpoint take (n : nat) (s : string) : string :=
  match n, s with
  | S n', String c r => String c (take n' r)
  | _, _ => EmptyString
  end.

Fixpoint drop (n : nat) (s : string) : string :=
  match n, s with
  | S n', String c r => drop n' r
  | _, _ => s
  end.

(** No character of [s] is white space. *)
Fixpoint no_space (s : string) : bool :=
  match s with
  | EmptyString => true
  | String c r => negb (isspace c) && no_space r
  end.

(** Only white space. *)
Fixpoint blank (s : string) : bool :=
  match s with
  | EmptyString => true
  | String c r => isspace c && blank r
  end.

(** What may follow a token: the end of the line, or white space. *)
Definition token_end (s : string) : bool :=
  match s with
  | EmptyString => true
  | String c _ => isspace c
  end.

(** The widest [%Ns] of a format is at most [k]. *)
Definition widths_within (k : nat) (fmt : list directive) : bool :=
  forallb (fun d => match d with Str n => (n <=? k)%nat | _ => true end) fmt.

Definition short (k : nat) (field : string) : Prop :=
  (String.length field <= k)%nat.

(** ** The line parsers *)

Definition building_format : string := " building %10s %10s %10s %10s %10s ".
Definition antenna_format : string := " antenna %10s %10s %10s %10s ".

(** ** Adding an antenna *)

(** The antennas at the indices [i < j] of [l] have the same position. *)
Definition collide (l : list Antenna) (i j : nat) : Prop :=
  exists a1 a2,
    (i < j)%nat /\ nth_error l i = Some a1 /\ nth_error l j = Some a2
    /\ a_x a1 = a_x a2 /\ a_y a1 = a_y a2.

(** [(i, j)] is the first colliding pair in the order in which the two loops
    run over the collection: the least [i], and for it the least [j]. *)
Definition first_collision (l : list Antenna) (i j : nat) : Prop :=
  collide l i j
  /\ forall i' j', collide l i' j' -> (i < i')%nat \/ (i = i' /\ (j <= j')%nat).

(** The world after [text] has been written to the error channel. *)
Definition with_stderr (w : World) (text : string) : World :=
  mkWorld (w_stdin w) (w_stdout w) (w_stderr w ++ text).

(** The scene with [a] appended to its antennas. *)
Definition with_antenna (scene : Scene) (a : Antenna) : Scene :=
  mkScene (buildings scene) (antennas scene ++ [a]).

(** The identifier of [a] is that of an antenna of the scene. *)
Definition antenna_id_taken (scene : Scene) (a : Antenna) : Prop :=
  exists a', In a' (antennas scene) /\ a_id a' = a_id a.

(** The world in which nothing is left to read and nothing was printed. *)
Definition silent : World := mkWorld EmptyString EmptyString EmptyString.

(** ** The bounding box *)

Definition is_minimum (m : Z) (l : list Z) : Prop :=
  In m l /\ forall v, In v l -> m <= v.

Definition is_maximum (m : Z) (l : list Z) : Prop :=
  In m l /\ forall v, In v l -> v <= m.

(** The four extents of an antenna, centre minus and plus radius, fit in an
    [int]. *)
Definition antenna_fits (a : Antenna) : Prop :=
  in_int (a_x a + a_r a) /\ in_int (a_x a - a_r a)
  /\ in_int (a_y a + a_r a) /\ in_int (a_y a - a_r a).

Definition scene_fits (scene : Scene) : Prop :=
  Forall building_fits (buildings scene) /\ Forall antenna_fits (antennas scene).

(** The ends of the extents [x-w, x+w] x [y-h, y+h] of the buildings and
    [x-r, x+r] x [y-r, y+r] of the antennas, on the integers. *)
Definition lefts (scene : Scene) : list Z :=
  map (fun b => b_x b - b_w b) (buildings scene)
  ++ map (fun a => a_x a - a_r a) (antennas scene).

Definition rights (scene : Scene) : list Z :=
  map (fun b => b_x b + b_w b) (buildings scene)
  ++ map (fun a => a_x a + a_r a) (antennas scene).

Definition bottoms (scene : Scene) : list Z :=
  map (fun b => b_y b - b_h b) (buildings scene)
  ++ map (fun a => a_y a - a_r a) (antennas scene).

Definition tops (scene : Scene) : list Z :=
  map (fun b => b_y b + b_h b) (buildings scene)
  ++ map (fun a => a_y a + a_r a) (antennas scene).

(** The same, with the sums and differences of the program. *)
Definition lefts_int (scene : Scene) : list Z :=
  map (fun b => int_sub (b_x b) (b_w b)) (buildings scene)
  ++ map (fun a => int_sub (a_x a) (a_r a)) (antennas scene).

Definition rights_int (scene : Scene) : list Z :=
  map (fun b => int_add (b_x b) (b_w b)) (buildings scene)
  ++ map (fun a => int_add (a_x a) (a_r a)) (antennas scene).

Definition bottoms_int (scene : Scene) : list Z :=
  map (fun b => int_sub (b_y b) (b_h b)) (buildings scene)
  ++ map (fun a => int_sub (a_y a) (a_r a)) (antennas scene).

Definition tops_int (scene : Scene) : list Z :=
  map (fun b => int_add (b_y b) (b_h b)) (buildings scene)
  ++ map (fun a => int_add (a_y a) (a_r a)) (antennas scene).

Definition nonempty (scene : Scene) : Prop :=
  buildings scene <> [] \/ antennas scene <> [].

Definition box_text (bx : Box) : string :=
  "bounding box [" ++ fmt_d (min_x bx) ++ ", " ++ fmt_d (max_x bx)
  ++ "] x [" ++ fmt_d (min_y bx) ++ ", " ++ fmt_d (max_y bx) ++ "]" ++ endl.

(** The world after [text] has been written to the output channel. *)
Definition with_stdout (w : World) (text : string) : World :=
  mkWorld (w_stdin w) (w_stdout w ++ text) (w_stderr w).

(** ** The description *)

(** Byte-wise lexicographic order on strings: a proper prefix comes first,
    and at the first difference the smaller byte decides. *)
Inductive lex_le : string -> string -> Prop :=
  | lex_le_empty : forall s, lex_le EmptyString s
  | lex_le_byte : forall c1 c2 s1 s2,
      code c1 < code c2 -> lex_le (String c1 s1) (String c2 s2)
  | lex_le_next : forall c s1 s2,
      lex_le s1 s2 -> lex_le (String c s1) (String c s2).

(** The order [compare_ids] gives to [qsort]. *)
Definition id_le (s1 s2 : string) : Prop := compare_ids s1 s2 <= 0.

(** Texts printed one after the other. *)
Definition texts (l : list string) : string :=
  fold_right String.append EmptyString l.

(** [m] prints [text] on the output channel and does nothing else. *)
Definition writes (m : IO unit) (text : string) : Prop :=
  forall w, m w = (tt, with_stdout w text).

(** The text of the summary line. *)
Definition summary_text (scene : Scene) : string :=
  if (num_buildings scene =? 0)%nat && (num_antennas scene =? 0)%nat then
    "An empty scene" ++ endl
  else
    "A scene with "
    ++ ((if (0 <? num_buildings scene)%nat then
           counted (num_buildings scene) "building"
           ++ (if (0 <? num_antennas scene)%nat then " and " else EmptyString)
         else EmptyString)
        ++ (if (0 <? num_antennas scene)%nat then
              counted (num_antennas scene) "antenna"
            else EmptyString)
        ++ endl).

Section FirstNamed.

Variable A : Type.
Variable id_of : A -> string.

(** The inner loop: the first element of [l] whose identifier is [id]. *)
Definition first_named (l : list A) (id : string) : list A :=
  match find (fun x => strcmp id (id_of x) =? 0) l with
  | Some x => [x]
  | None => []
  end.

End FirstNamed.

(** ** Computations that only write diagnostics *)

(** [m] leaves the input and the output channel alone, and what it returns
    and appends to the error channel does not depend on the world. *)
Definition stderr_only {A : Type} (m : IO A) : Prop :=
  forall w, m w = (fst (m silent), with_stderr w (w_stderr (snd (m silent)))).

(** ** The scene reader *)

(** The buffers successive calls of [fgets (line, MAX_LINE_LENGTH, stdin)]
    fill from a stream: the lines of the input, each with its line feed, a
    line of 50 characters or more coming in pieces.  [fuel] bounds their
    number. *)
Fixpoint buffers (fuel : nat) (s : string) : list string :=
  match fuel with
  | O => []
  | S fuel' =>
      match s with
      | EmptyString => []
      | _ =>
          let (buf, rest) := read_upto (MAX_LINE_LENGTH - 1) s in
          buf :: buffers fuel' rest
      end
  end.

Definition lines_read (input : string) : list string :=
  buffers (String.length input) input.

(** The value of the [int] counter of lines after [k] lines. *)
Definition line_number (k : nat) : Z := wrap_int (Z.of_nat k).

(** What [process_line] returns and prints for a line. *)
Definition line_verdict (scene : Scene) (line : string) (line_num : Z)
  : (bool * Scene) * string :=
  let (r, w) := process_line scene line line_num silent in (r, w_stderr w).

(** The protocol of the specification (section 4.4), written from its words
    on the list of the lines of the stream.  After the start marker, [k]
    lines having been read: a line that is exactly the end marker ends the
    reading with success; the end of the stream is the missing terminator
    failure; a line that [process_line] refuses is a failure at once;
    otherwise the reading goes on with the scene the line leaves.  The
    result is the outcome, the scene, the diagnostics printed and the lines
    left unread.  A line is given to [process_line] with its number in the
    stream, counted from 1. *)
Fixpoint interior_spec (k : nat) (scene : Scene) (raw : list string)
  : bool * Scene * string * list string :=
  match raw with
  | [] => (false, scene, msg_last_line, [])
  | buf :: rest =>
      if String.eqb (chomp buf) "end scene" then (true, scene, EmptyString, rest)
      else
        let (r, msg) := line_verdict scene (chomp buf) (line_number (S k)) in
        if fst r then
          let '(ok, scene', msgs, unread) := interior_spec (S k) (snd r) rest in
          (ok, scene', (msg ++ msgs)%string, unread)
        else (false, snd r, msg, rest)
  end.

(** The whole stream: the first line must be exactly the start marker. *)
Definition reader_spec (scene : Scene) (raw : list string)
  : bool * Scene * string * list string :=
  match raw with
  | [] => (false, scene, EmptyString, [])
  | buf :: rest =>
      if String.eqb (chomp buf) "begin scene" then interior_spec 1 scene rest
      else (false, scene, msg_first_line, rest)
  end.

(** ** Streams of text lines *)

(** A line of text that [fgets] reads whole: no line feed and no NUL in it,
    and, with its line feed, no longer than the buffer. *)
Fixpoint plain (l : string) : bool :=
  match l with
  | EmptyString => true
  | String c r => negb (Ascii.eqb c newline || Ascii.eqb c NUL) && plain r
  end.

Definition text_line (l : string) : Prop :=
  plain l = true /\ (String.length l + 2 <= MAX_LINE_LENGTH)%nat.

(** The stream made of the lines, each ended by a line feed. *)
Fixpoint unlines (ls : list string) : string :=
  match ls with
  | [] => EmptyString
  | l :: ls' => (l ++ String newline (unlines ls'))%string
  end.

(** ** Validated scenes *)

(** No two buildings, and no two antennas, have the same identifier. *)
Definition unique_ids (scene : Scene) : Prop :=
  NoDup (map b_id (buildings scene)) /\ NoDup (map a_id (antennas scene)).

(** The buildings, and the antennas, in the order [print_description] prints
    them. *)
Definition buildings_listed (scene : Scene) : list Building :=
  flat_map (first_named Building b_id (buildings scene))
    (qsort (map b_id (buildings scene))).

Definition antennas_listed (scene : Scene) : list Antenna :=
  flat_map (first_named Antenna a_id (antennas scene))
    (qsort (map a_id (antennas scene))).

(** ** Failures and their diagnostics *)

(** [m] returns [bad] only after it has written a diagnostic. *)
Definition reported {A : Type} (m : IO A) (bad : A -> Prop) : Prop :=
  forall w a w', m w = (a, w') -> bad a -> w_stderr w' <> EmptyString.

(** * Further code and vocabulary *)

(** ** Identifiers and positive integers *)

(** The 52 ASCII letters. *)
Definition ascii_letter (c : ascii) : Prop :=
  In c ["A"; "B"; "C"; "D"; "E"; "F"; "G"; "H"; "I"; "J"; "K"; "L"; "M";
        "N"; "O"; "P"; "Q"; "R"; "S"; "T"; "U"; "V"; "W"; "X"; "Y"; "Z";
        "a"; "b"; "c"; "d"; "e"; "f"; "g"; "h"; "i"; "j"; "k"; "l"; "m";
        "n"; "o"; "p"; "q"; "r"; "s"; "t"; "u"; "v"; "w"; "x"; "y"; "z"]%char.

(** Letters, digits and underscores only. *)
Fixpoint word_chars (s : string) : Prop :=
  match s with
  | EmptyString => True
  | String c r =>
      (ascii_letter c \/ ascii_digit c \/ c = "_"%char) /\ word_chars r
  end.

(** A letter or an underscore, then letters, digits and underscores. *)
Definition identifier (s : string) : Prop :=
  exists c r,
    s = String c r /\ (ascii_letter c \/ c = "_"%char) /\ word_chars r.

(** A non-empty run of digits that does not start with a zero. *)
Definition positive_numeral (s : string) : Prop :=
  exists c r,
    s = String c r /\ ascii_digit c /\ c <> "0"%char /\ only_digits r.

(** ** The first token of a line *)

(** [tok] is the first token of [line]: white space, then [tok], then the
    end of the line or more white space. *)
Definition first_token (line tok : string) : Prop :=
  exists lead rest,
    line = (lead ++ tok ++ rest)%string
    /\ blank lead = true /\ no_space tok = true /\ tok <> EmptyString
    /\ token_end rest = true.

(** ** Adding a building *)

(** The scene with [b] appended to its buildings. *)
Definition with_building (scene : Scene) (b : Building) : Scene :=
  mkScene (buildings scene ++ [b]) (antennas scene).

(** The identifier of [b] is that of a building of the scene. *)
Definition building_id_taken (scene : Scene) (b : Building) : Prop :=
  exists b', In b' (buildings scene) /\ b_id b' = b_id b.

(** The building at index [k] of [l] is the first one that overlaps [b]. *)
Definition first_overlap (l : list Building) (b : Building) (k : nat) : Prop :=
  (exists bk, nth_error l k = Some bk /\ ~ separated_int bk b)
  /\ forall k' bk',
      (k' < k)%nat -> nth_error l k' = Some bk' -> separated_int bk' b.

(** The buildings at the indices [i < j] of [l] overlap. *)
Definition overlapping (l : list Building) (i j : nat) : Prop :=
  exists b1 b2,
    (i < j)%nat /\ nth_error l i = Some b1 /\ nth_error l j = Some b2
    /\ ~ separated_int b1 b2.

(** [(i, j)] is the first overlapping pair in the order of the two loops. *)
Definition first_overlapping (l : list Building) (i j : nat) : Prop :=
  overlapping l i j
  /\ forall i' j', overlapping l i' j' -> (i < i')%nat \/ (i = i' /\ (j <= j')%nat).

(** What the reader guarantees of the scene it returns: identifiers all
    different within each group, no two buildings overlapping, no two
    antennas at the same position. *)
Definition scene_sound (scene : Scene) : Prop :=
  unique_ids scene
  /\ (forall i j, ~ overlapping (buildings scene) i j)
  /\ (forall i j, ~ collide (antennas scene) i j).

(** The number of elements of a scene. *)
Definition elements (scene : Scene) : nat :=
  (num_buildings scene + num_antennas scene)%nat.

(** ** Runs of the program *)

(** The command line names one of the three subcommands that read a scene. *)
Definition scene_subcommand (argv : list string) : Prop :=
  List.length argv = 2%nat
  /\ In (arg 1 argv) ["bounding-box"; "describe"; "summarize"].

(** [m] prints on the output channel only, and prints something. *)
Definition prints (m : IO unit) : Prop :=
  exists text, writes m text /\ text <> EmptyString.

(** ** Scenes with the same elements *)

(** The two scenes hold the same buildings and the same antennas, in any
    order. *)
Definition same_elements (s1 s2 : Scene) : Prop :=
  Permutation (buildings s1) (buildings s2)
  /\ Permutation (antennas s1) (antennas s2).

(** ** [trim_line] *)

(** [line[i]]: the character at the index [i], the terminating NUL at the
    length. *)
Definition char_at (line : string) (i : nat) : ascii :=
  match String.get i line with
  | Some c => c
  | None => NUL
  end.

(** The first loop of [trim_line], which decrements [end] while it is
    past the start of the line and points to a blank, with [end] as an
    index into [line].  A turn of the loop decrements the index, so that
    [fuel], taken as the index at the start, bounds the turns. *)
Fixpoint trim_end (fuel : nat) (line : string) (end_ : nat) : nat :=
  match fuel with
  | O => end_
  | S fuel' =>
      if (0 <? end_)%nat && is_blank (char_at line end_) then
        trim_end fuel' line (end_ - 1)
      else end_
  end.

(** [trim_line]: the content of the buffer when the function returns.
    The assignment of NUL to [end[1]] cuts the line after the index the
    first loop stops at.  The second loop advances the parameter [line], a
    copy of the caller's pointer, over the leading blanks and writes
    nothing.  On the empty line [end] starts before the buffer, no loop is
    entered and the NUL is written over itself. *)
Definition trim_line (line : string) : string :=
  match line with
  | EmptyString => EmptyString
  | _ =>
      let end_ := (String.length line - 1)%nat in
      take (S (trim_end end_ line end_)) line
  end.

(** A space or a tabulation. *)
Definition space_or_tab (c : ascii) : Prop :=
  c = " "%char \/ c = "009"%char.

(** Only spaces and tabulations. *)
Fixpoint blanks (s : string) : Prop :=
  match s with
  | EmptyString => True
  | String c r => space_or_tab c /\ blanks r
  end.

(** ** The parsers and the description in three steps (src/unnamed/part_000)

    The second version of the program splits each line parser into the
    reading of the arguments, their validation and the construction of
    the element, and the description into the summary and the two sorted
    lists. *)

Module Refactored.

Definition validate_building_args (id x_str y_str w_str h_str : string)
           (line_num : Z) : IO bool :=
  if negb (is_valid_id id) then
    eprintf (msg_invalid "identifier" id line_num) ;;; ret false
  else if negb (is_valid_integer x_str) then
    eprintf (msg_invalid "integer" x_str line_num) ;;; ret false
  else if negb (is_valid_integer y_str) then
    eprintf (msg_invalid "integer" y_str line_num) ;;; ret false
  else if negb (is_valid_positive_integer w_str) then
    eprintf (msg_invalid "positive integer" w_str line_num) ;;; ret false
  else if negb (is_valid_positive_integer h_str) then
    eprintf (msg_invalid "positive integer" h_str line_num) ;;; ret false
  else ret true.

(** The result is the boolean returned and the buffers as [sscanf] has
    filled them. *)
Definition extract_building_args (line : string) (line_num : Z)
  : IO (bool * list string) :=
  let (n, args) := sscanf line " building %10s %10s %10s %10s %10s " in
  if negb (n =? 5) then
    eprintf (msg_wrong_arguments "building" line_num) ;;; ret (false, args)
  else ret (true, args).

Definition construct_building (id x_str y_str w_str h_str : string) : Building :=
  mkBuilding id (atoi x_str) (atoi y_str) (atoi w_str) (atoi h_str).

Definition parse_building_line (line : string) (line_num : Z)
  : IO (option Building) :=
  e <- extract_building_args line line_num ;;
  let id := arg 0 (snd e) in
  let x_str := arg 1 (snd e) in
  let y_str := arg 2 (snd e) in
  let w_str := arg 3 (snd e) in
  let h_str := arg 4 (snd e) in
  if negb (fst e) then ret None
  else
    v <- validate_building_args id x_str y_str w_str h_str line_num ;;
    if negb v then ret None
    else ret (Some (construct_building id x_str y_str w_str h_str)).

Definition validate_antenna_args (id x_str y_str r_str : string)
           (line_num : Z) : IO bool :=
  if negb (is_valid_id id) then
    eprintf (msg_invalid "identifier" id line_num) ;;; ret false
  else if negb (is_valid_integer x_str) then
    eprintf (msg_invalid "integer" x_str line_num) ;;; ret false
  else if negb (is_valid_integer y_str) then
    eprintf (msg_invalid "integer" y_str line_num) ;;; ret false
  else if negb (is_valid_positive_integer r_str) then
    eprintf (msg_invalid "positive integer" r_str line_num) ;;; ret false
  else ret true.

Definition extract_antenna_args (line : string) (line_num : Z)
  : IO (bool * list string) :=
  let (n, args) := sscanf line " antenna %10s %10s %10s %10s " in
  if negb (n =? 4) then
    eprintf (msg_wrong_arguments "antenna" line_num) ;;; ret (false, args)
  else ret (true, args).

Definition construct_antenna (id x_str y_str r_str : string) : Antenna :=
  mkAntenna id (atoi x_str) (atoi y_str) (atoi r_str).

Definition parse_antenna_line (line : string) (line_num : Z)
  : IO (option Antenna) :=
  e <- extract_antenna_args line line_num ;;
  let id := arg 0 (snd e) in
  let x_str := arg 1 (snd e) in
  let y_str := arg 2 (snd e) in
  let r_str := arg 3 (snd e) in
  if negb (fst e) then ret None
  else
    v <- validate_antenna_args id x_str y_str r_str line_num ;;
    if negb v then ret None
    else ret (Some (construct_antenna id x_str y_str r_str)).

Definition print_sorted_buildings (scene : Scene) : IO unit :=
  let building_ids := qsort (map b_id (buildings scene)) in
  for_each (print_building_named scene) building_ids.

Definition print_sorted_antennas (scene : Scene) : IO unit :=
  let antenna_ids := qsort (map a_id (antennas scene)) in
  for_each (print_antenna_named scene) antenna_ids.

Definition print_description (scene : Scene) : IO unit :=
  print_summary scene ;;;
  print_sorted_buildings scene ;;;
  print_sorted_antennas scene.

End Refactored.

(** ** The texts of the reports

    The texts the specification and the scenarios expect on the two
    channels, written out character by character; the numbers are written
    by [decimal], which owes nothing to the program. *)

(** The line feed that ends a line. *)
Definition LF : string := String "010"%char EmptyString.

(** The character of a digit below ten. *)
Definition digit_char (d : Z) : ascii := ascii_of_N (Z.to_N (48 + d)).

(** The digits of a natural number in front of [tail], found from the last
    one by successive divisions by ten; [fuel] bounds their number. *)
Fixpoint natural_digits (fuel : nat) (n : Z) (tail : string) : string :=
  match fuel with
  | O => tail
  | S fuel' =>
      let tail' := String (digit_char (n mod 10)) tail in
      if n <? 10 then tail' else natural_digits fuel' (n / 10) tail'
  end.

(** The decimal numeral of an integer: the digits of its absolute value,
    the most significant first and without a leading zero, after a minus
    sign when it is negative.  A number has no more decimal digits than
    binary ones. *)
Definition decimal (z : Z) : string :=
  let n := Z.abs z in
  let ds := natural_digits (S (Z.to_nat (Z.log2 n))) n EmptyString in
  if z <? 0 then String "-"%char ds else ds.

(** A count and its noun, in the plural unless the count is one. *)
Definition count_of (n : nat) (noun : string) : string :=
  decimal (Z.of_nat n) ++ " " ++ noun
  ++ (if (n =? 1)%nat then EmptyString else "s").

(** The summary line of a scene of [nb] buildings and [na] antennas. *)
Definition summary_line (nb na : nat) : string :=
  match nb, na with
  | O, O => "An empty scene"
  | S _, O => "A scene with " ++ count_of nb "building"
  | O, S _ => "A scene with " ++ count_of na "antenna"
  | S _, S _ =>
      "A scene with " ++ count_of nb "building" ++ " and "
      ++ count_of na "antenna"
  end.

(** The line of the description for a building, and for an antenna. *)
Definition building_line (b : Building) : string :=
  "  building " ++ b_id b ++ " at " ++ decimal (b_x b) ++ " "
  ++ decimal (b_y b) ++ " with dimensions " ++ decimal (b_w b) ++ " "
  ++ decimal (b_h b).

Definition antenna_line (a : Antenna) : string :=
  "  antenna " ++ a_id a ++ " at " ++ decimal (a_x a) ++ " "
  ++ decimal (a_y a) ++ " with range " ++ decimal (a_r a).

(** * Properties *)

(** ** Strings *)

(** [strcmp] returns 0 on equal strings only. *)
Lemma strcmp_eq (s1 s2 : string) : (strcmp s1 s2 =? 0) = true <-> s1 = s2.
Proof.
  unfold strcmp.
  destruct (String_as_OT.compare_spec s1 s2) as [H | H | H]; simpl.
  - tauto.
  - split; [discriminate |]. intros ->.
    exfalso. exact (StrictOrder_Irreflexive _ H).
  - split; [discriminate |]. intros ->.
    exfalso. exact (StrictOrder_Irreflexive _ H).
Qed.

(** ** Lexical validators *)

Module Lexical.

Lemma isdigit_spec (c : ascii) : isdigit c = true <-> ascii_digit c.
Proof.
  unfold ascii_digit.
  destruct c as [[] [] [] [] [] [] [] []]; vm_compute;
    split; intro H; try reflexivity; try discriminate;
    try (repeat (destruct H as [H | H]; [discriminate H |]); contradiction);
    repeat (try (left; reflexivity); right).
Qed.

Lemma all_digits_spec (s : string) : all_digits s = true <-> only_digits s.
Proof.
  induction s as [| c r IH]; simpl.
  - tauto.
  - destruct (isdigit c) eqn:E; simpl.
    + rewrite IH. apply isdigit_spec in E. tauto.
    + split; [discriminate |].
      intros [H _]. apply isdigit_spec in H. congruence.
Qed.

Lemma digit_not_minus (c : ascii) : ascii_digit c -> c <> "-"%char.
Proof.
  unfold ascii_digit. simpl. intros H.
  repeat (destruct H as [H | H]; [subst c; discriminate |]). contradiction.
Qed.

Lemma is_empty_spec (s : string) : is_empty s = true <-> s = EmptyString.
Proof. destruct s; simpl; split; congruence. Qed.

Lemma numeral_intro (sign ds : string) :
  sign = EmptyString \/ sign = "-" ->
  ds <> EmptyString ->
  only_digits ds ->
  (forall r, ds = String "0" r -> r = EmptyString) ->
  numeral (sign ++ ds).
Proof. intros H1 H2 H3 H4. exists sign, ds. auto. Qed.

Lemma valid_integer_numeral (s : string) :
  is_valid_integer s = true -> ~ signed_leading_zero s -> numeral s.
Proof.
  destruct s as [| c0 rest]; simpl; [discriminate |].
  destruct (Ascii.eqb_spec c0 "0"%char) as [-> | Hzero]; simpl.
  - destruct rest; simpl; [| discriminate]. intros _ _.
    apply (numeral_intro EmptyString "0"); [auto | discriminate | |].
    + vm_compute. auto.
    + intros r H. congruence.
  - destruct (Ascii.eqb_spec c0 "-"%char) as [-> | Hminus].
    + destruct rest as [| d r]; simpl; [discriminate |].
      intros Hd Hslip.
      change ((if negb (isdigit d) then false else all_digits r) = true)
        with (all_digits (String d r) = true) in Hd.
      apply all_digits_spec in Hd.
      apply (numeral_intro "-" (String d r)); [auto | discriminate | exact Hd |].
      intros r' Hr'. injection Hr' as -> ->.
      destruct r' as [| e r']; [reflexivity |].
      exfalso. apply Hslip. exists (String e r').
      split; [discriminate | split; [apply Hd | reflexivity]].
    + intros Hd _.
      change ((if negb (isdigit c0) then false else all_digits rest) = true)
        with (all_digits (String c0 rest) = true) in Hd.
      apply all_digits_spec in Hd.
      apply (numeral_intro EmptyString (String c0 rest));
        [auto | discriminate | exact Hd |].
      intros r Hr. congruence.
Qed.

Lemma numeral_valid_integer (s : string) :
  numeral s -> is_valid_integer s = true.
Proof.
  intros (sign & ds & -> & Hsign & Hne & Hd & Hlead).
  destruct ds as [| d r]; [congruence |].
  destruct Hsign as [-> | ->]; simpl.
  - destruct (Ascii.eqb_spec d "0"%char) as [-> | Hz]; simpl.
    + rewrite (Hlead r eq_refl). reflexivity.
    + destruct (Ascii.eqb_spec d "-"%char) as [-> | Hm].
      * destruct Hd as [Hd _]. apply digit_not_minus in Hd. congruence.
      * apply (proj2 (all_digits_spec (String d r))). exact Hd.
  - apply (proj2 (all_digits_spec (String d r))). exact Hd.
Qed.

End Lexical.

(** C1, as the code has it.  For every string [s] that is not a minus sign
    followed by a zero and further digits, [is_valid_integer] accepts [s]
    iff [s] is an optional single leading minus sign followed by a non-empty
    run of ASCII digits that starts with a zero only when it is the lone
    digit zero.  So "0" and "-0" are accepted, and "00", "01" and a bare "-"
    are rejected. *)
Theorem is_valid_integer_numeral :
  forall s : string,
    ~ signed_leading_zero s ->
    (is_valid_integer s = true <-> numeral s)
    /\ is_valid_integer "0" = true
    /\ is_valid_integer "-0" = true
    /\ is_valid_integer "00" = false
    /\ is_valid_integer "01" = false
    /\ is_valid_integer "-" = false.
Proof.
  intros s Hslip. split; [| repeat split].
  split.
  - intro H. now apply Lexical.valid_integer_numeral.
  - apply Lexical.numeral_valid_integer.
Qed.

(** An instance: the string "-12". *)
Lemma is_valid_integer_numeral_witness :
  ~ signed_leading_zero "-12"
  /\ ((is_valid_integer "-12" = true <-> numeral "-12")
      /\ is_valid_integer "0" = true
      /\ is_valid_integer "-0" = true
      /\ is_valid_integer "00" = false
      /\ is_valid_integer "01" = false
      /\ is_valid_integer "-" = false).
Proof.
  assert (H : ~ signed_leading_zero "-12").
  { intros (ds & _ & _ & E). discriminate E. }
  split; [exact H | exact (is_valid_integer_numeral "-12" H)].
Defined.

(** C1 as the specification words it fails at the signed zero: the validator
    accepts "-0", which is not a canonical integer. *)
Lemma is_valid_integer_signed_zero :
  is_valid_integer "-0" = true /\ ~ canonical_integer "-0".
Proof.
  split; [reflexivity |]. intros [_ H]. apply H. reflexivity.
Qed.

(** ** Overlap of buildings *)

Lemma wrap_int_small (z : Z) : in_int z -> wrap_int z = z.
Proof.
  unfold in_int, INT_MIN, INT_MAX, wrap_int. intros H.
  rewrite Z.mod_small; lia.
Qed.

Lemma wrap_int_range (z : Z) : in_int (wrap_int z).
Proof.
  unfold in_int, INT_MIN, INT_MAX, wrap_int.
  pose proof (Z.mod_pos_bound (z + 2 ^ 31) (2 ^ 32) ltac:(lia)). lia.
Qed.

(** The predicate on the machine integers, whatever the buildings. *)
Lemma buildings_overlap_int (A B : Building) :
  buildings_overlap A B = false <-> separated_int A B.
Proof.
  unfold buildings_overlap, separated_int.
  rewrite negb_false_iff, !orb_true_iff, !Z.leb_le, !Z.geb_le. lia.
Qed.

Lemma buildings_overlap_true (A B : Building) :
  buildings_overlap A B = true <-> ~ separated_int A B.
Proof.
  rewrite <- buildings_overlap_int.
  destruct (buildings_overlap A B); split; congruence.
Qed.

(** Without overflow the sums and differences of the program are those of
    the integers. *)
Lemma separated_int_fits (A B : Building) :
  building_fits A -> building_fits B ->
  (separated_int A B <-> separated A B)
  /\ (edge_adjacent_int A B <-> edge_adjacent A B).
Proof.
  intros (Ha1 & Ha2 & Ha3 & Ha4) (Hb1 & Hb2 & Hb3 & Hb4).
  unfold separated_int, separated, edge_adjacent_int, edge_adjacent,
    int_add, int_sub.
  rewrite !wrap_int_small by assumption. tauto.
Qed.

(** C3.  For buildings with strictly positive half-width and half-height,
    [buildings_overlap A B] is false iff A.x+A.w <= B.x-B.w or
    A.x-A.w >= B.x+B.w or A.y+A.h <= B.y-B.h or A.y-A.h >= B.y+B.h, and true
    iff that disjunction is false; two rectangles that only share a boundary
    line are not overlapping.  The sums and differences are those of the
    program, on [int]; they are the sums and differences of the integers
    when the extents of the buildings are representable. *)
Theorem buildings_overlap_iff_not_separated :
  forall A B : Building,
    0 < b_w A -> 0 < b_h A -> 0 < b_w B -> 0 < b_h B ->
    (buildings_overlap A B = false <-> separated_int A B)
    /\ (buildings_overlap A B = true <-> ~ separated_int A B)
    /\ (edge_adjacent_int A B -> buildings_overlap A B = false)
    /\ (building_fits A -> building_fits B ->
        (buildings_overlap A B = false <-> separated A B)
        /\ (buildings_overlap A B = true <-> ~ separated A B)
        /\ (edge_adjacent A B -> buildings_overlap A B = false)).
Proof.
  intros A B _ _ _ _.
  pose proof (buildings_overlap_int A B) as H.
  assert (Hadj : edge_adjacent_int A B -> buildings_overlap A B = false).
  { intros Hadj. apply H. unfold edge_adjacent_int, separated_int in *. lia. }
  assert (Htrue : buildings_overlap A B = true <-> ~ separated_int A B).
  { rewrite <- H. destruct (buildings_overlap A B); split; congruence. }
  split; [exact H |]. split; [exact Htrue |]. split; [exact Hadj |].
  intros HA HB. destruct (separated_int_fits A B HA HB) as [Hs He].
  rewrite <- Hs, <- He. auto.
Qed.

(** An instance: the rectangles spanning x in [0,2] and x in [2,4], with the
    same range of y. *)
Lemma buildings_overlap_iff_not_separated_witness :
  building_fits (mkBuilding "a" 1 0 1 1)
  /\ building_fits (mkBuilding "b" 3 0 1 1)
  /\ edge_adjacent (mkBuilding "a" 1 0 1 1) (mkBuilding "b" 3 0 1 1)
  /\ buildings_overlap (mkBuilding "a" 1 0 1 1) (mkBuilding "b" 3 0 1 1) = false
  /\ separated (mkBuilding "a" 1 0 1 1) (mkBuilding "b" 3 0 1 1).
Proof.
  assert (Ha : building_fits (mkBuilding "a" 1 0 1 1)).
  { unfold building_fits, in_int, INT_MIN, INT_MAX; simpl; lia. }
  assert (Hb : building_fits (mkBuilding "b" 3 0 1 1)).
  { unfold building_fits, in_int, INT_MIN, INT_MAX; simpl; lia. }
  assert (He : edge_adjacent (mkBuilding "a" 1 0 1 1) (mkBuilding "b" 3 0 1 1)).
  { left. reflexivity. }
  destruct (buildings_overlap_iff_not_separated
              (mkBuilding "a" 1 0 1 1) (mkBuilding "b" 3 0 1 1)
              ltac:(simpl; lia) ltac:(simpl; lia) ltac:(simpl; lia)
              ltac:(simpl; lia)) as (_ & _ & _ & Hfits).
  destruct (Hfits Ha Hb) as (Hsep & _ & Hadj).
  split; [exact Ha |]. split; [exact Hb |]. split; [exact He |].
  split; [exact (Hadj He) |]. exact (proj1 Hsep (Hadj He)).
Defined.

(** C9.  The overlap predicate is symmetric. *)
Theorem buildings_overlap_sym :
  forall A B : Building, buildings_overlap A B = buildings_overlap B A.
Proof.
  intros A B. unfold buildings_overlap. rewrite !Z.geb_leb.
  destruct (int_add (b_x A) (b_w A) <=? int_sub (b_x B) (b_w B)),
           (int_add (b_x B) (b_w B) <=? int_sub (b_x A) (b_w A)),
           (int_add (b_y A) (b_h A) <=? int_sub (b_y B) (b_h B)),
           (int_add (b_y B) (b_h B) <=? int_sub (b_y A) (b_h A));
    reflexivity.
Qed.

(** ** The tokenizer *)

Module Tokenizer.

Lemma scan_field_length (n : nat) (s : string) :
  (String.length (fst (scan_field n s)) <= n)%nat.
Proof.
  revert s. induction n as [| n IH]; intros s; simpl; [lia |].
  destruct s as [| c r]; simpl; [lia |].
  destruct (isspace c); simpl; [lia |].
  specialize (IH r). destruct (scan_field n r) as [field rest]. simpl in *. lia.
Qed.

Lemma scan_short (k : nat) (fmt : list directive) :
  widths_within k fmt = true ->
  forall input assigned,
    Forall (short k) assigned ->
    Forall (short k) (snd (scan fmt input assigned)).
Proof.
  induction fmt as [| d fmt IH]; intros Hw input assigned Ha; simpl.
  - exact Ha.
  - simpl in Hw. apply andb_true_iff in Hw. destruct Hw as [Hd Hw].
    destruct d as [| c | n].
    + apply IH; assumption.
    + destruct input as [| c' rest]; simpl; [exact Ha |].
      destruct (Ascii.eqb c c'); [apply IH; assumption | exact Ha].
    + destruct (skip_spaces input) as [| c' rest] eqn:E; simpl; [exact Ha |].
      pose proof (scan_field_length n (String c' rest)) as Hlen.
      destruct (scan_field n (String c' rest)) as [field rest'].
      apply IH; [assumption |].
      apply Forall_app. split; [exact Ha |].
      constructor; [| constructor].
      apply Nat.leb_le in Hd. unfold short. simpl in Hlen. lia.
Qed.

(** The count [scan] returns is the number of fields stored, or [EOF] when
    none was. *)
Lemma scan_count (fmt : list directive) :
  forall input assigned,
    fst (scan fmt input assigned)
      = Z.of_nat (List.length (snd (scan fmt input assigned)))
    \/ (fst (scan fmt input assigned) = EOF
        /\ snd (scan fmt input assigned) = []).
Proof.
  assert (Hfail : forall assigned : list string,
             input_failure assigned = Z.of_nat (List.length assigned)
             \/ (input_failure assigned = EOF /\ assigned = [])).
  { intros [| a l]; simpl; auto. }
  induction fmt as [| d fmt IH]; intros input assigned; simpl.
  - auto.
  - destruct d as [| c | n].
    + apply IH.
    + destruct input as [| c' rest]; simpl; [apply Hfail |].
      destruct (Ascii.eqb c c'); simpl; [apply IH | auto].
    + destruct (skip_spaces input) as [| c' rest]; simpl; [apply Hfail |].
      destruct (scan_field n (String c' rest)) as [field rest']. apply IH.
Qed.

Lemma sscanf_short (input fmt : string) (k : nat) :
  widths_within k (directives fmt None) = true ->
  Forall (short k) (snd (sscanf input fmt)).
Proof. intros H. apply scan_short; [exact H | constructor]. Qed.

Lemma sscanf_count (input fmt : string) (n : nat) (args : list string) :
  sscanf input fmt = (Z.of_nat n, args) -> List.length args = n.
Proof.
  intros E. destruct (scan_count (directives fmt None) input []) as [H | [H _]];
    fold (sscanf input fmt) in H; rewrite E in H; simpl in H.
  - lia.
  - unfold EOF in H. lia.
Qed.

(** A token of the line, read by [%Ns]: the field is its first [n]
    characters, and what follows them stays in the input. *)
Lemma scan_field_token (n : nat) :
  forall tok rest,
    no_space tok = true -> token_end rest = true ->
    scan_field n (tok ++ rest) = (take n tok, drop n tok ++ rest).
Proof.
  induction n as [| n IH]; intros tok rest Htok Hrest.
  - destruct tok; reflexivity.
  - destruct tok as [| c r]; simpl.
    + destruct rest as [| c' r']; simpl; [reflexivity |].
      simpl in Hrest. rewrite Hrest. reflexivity.
    + simpl in Htok. apply andb_true_iff in Htok. destruct Htok as [Hc Hr].
      apply negb_true_iff in Hc. rewrite Hc.
      rewrite (IH r rest Hr Hrest). reflexivity.
Qed.

Lemma skip_spaces_blank (lead s : string) :
  blank lead = true -> skip_spaces (lead ++ s) = skip_spaces s.
Proof.
  induction lead as [| c r IH]; simpl; intros H; [reflexivity |].
  apply andb_true_iff in H. destruct H as [Hc Hr]. rewrite Hc. auto.
Qed.

Lemma skip_spaces_token (tok rest : string) :
  no_space tok = true -> tok <> EmptyString ->
  skip_spaces (tok ++ rest) = tok ++ rest.
Proof.
  destruct tok as [| c r]; simpl; intros H Hne; [congruence |].
  apply andb_true_iff in H. destruct H as [Hc _].
  apply negb_true_iff in Hc. rewrite Hc. reflexivity.
Qed.

Lemma no_space_drop (n : nat) :
  forall tok, no_space tok = true -> no_space (drop n tok) = true.
Proof.
  induction n as [| n IH]; intros [| c r] H; simpl; auto.
  simpl in H. apply andb_true_iff in H. apply IH. tauto.
Qed.

Lemma length_take (n : nat) :
  forall s, (n <= String.length s)%nat -> String.length (take n s) = n.
Proof.
  induction n as [| n IH]; intros [| c r] H; simpl in *; auto; try lia.
  rewrite IH; lia.
Qed.

Lemma drop_nonempty (n : nat) :
  forall s, (n < String.length s)%nat -> drop n s <> EmptyString.
Proof.
  induction n as [| n IH]; intros [| c r] H; simpl in *; try lia; try discriminate.
  apply IH. lia.
Qed.

Lemma take_drop (n : nat) : forall s, take n s ++ drop n s = s.
Proof.
  induction n as [| n IH]; intros [| c r]; simpl; auto. now rewrite IH.
Qed.

Lemma scan_Ws (fmt : list directive) (input : string) (assigned : list string) :
  scan (Ws :: fmt) input assigned = scan fmt (skip_spaces input) assigned.
Proof. reflexivity. Qed.

(** One [%Ns] directive at the start of a token. *)
Lemma scan_Str_token (n : nat) (fmt : list directive) :
  forall tok rest assigned,
    no_space tok = true -> tok <> EmptyString -> token_end rest = true ->
    scan (Str n :: fmt) (tok ++ rest) assigned
    = scan fmt (drop n tok ++ rest) (assigned ++ [take n tok]).
Proof.
  intros tok rest assigned Htok Hne Hrest. cbn [scan].
  rewrite skip_spaces_token by assumption.
  destruct (tok ++ rest)%string as [| c r] eqn:E.
  - destruct tok; [congruence | discriminate E].
  - rewrite <- E. rewrite scan_field_token by assumption. reflexivity.
Qed.

(** Two consecutive [%Ns] directives on a token longer than [n]. *)
Lemma scan_long_token (n : nat) (fmt : list directive) :
  forall lead tok rest assigned,
    blank lead = true -> no_space tok = true -> token_end rest = true ->
    (n < String.length tok)%nat ->
    scan (Ws :: Str n :: Ws :: Str n :: fmt) (lead ++ tok ++ rest) assigned
    = scan fmt (drop n (drop n tok) ++ rest)
        (assigned ++ [take n tok; take n (drop n tok)]).
Proof.
  intros lead tok rest assigned Hlead Htok Hrest Hlen.
  assert (Hne : tok <> EmptyString).
  { intros ->. simpl in Hlen. lia. }
  assert (Hne' : drop n tok <> EmptyString) by now apply drop_nonempty.
  assert (Htok' : no_space (drop n tok) = true) by now apply no_space_drop.
  rewrite scan_Ws, skip_spaces_blank, skip_spaces_token by assumption.
  rewrite scan_Str_token by assumption.
  rewrite scan_Ws, skip_spaces_token by assumption.
  rewrite scan_Str_token by assumption.
  rewrite <- app_assoc. reflexivity.
Qed.

End Tokenizer.

(** ** The line parsers *)

Module Parser.

Import Tokenizer.

(** A branch of a parser that prints a diagnostic and returns false. *)
Ltac diagnosed :=
  let H := fresh in
  intros H; unfold bind, eprintf, ret in H; simpl in H; discriminate H.

Ltac list_of_length H :=
  repeat match type of H with
         | List.length ?l = _ => destruct l; simpl in H; try discriminate H;
                                 try (apply eq_add_S in H)
         end.

(** What a successful [parse_building_line] has read and checked. *)
Lemma parse_building_line_inv (line : string) (line_num : Z) (w w' : World)
      (b : Building) :
  parse_building_line line line_num w = (Some b, w') ->
  w' = w
  /\ exists id x y wd h,
      sscanf line building_format = (5, [id; x; y; wd; h])
      /\ is_valid_id id = true
      /\ is_valid_integer x = true
      /\ is_valid_integer y = true
      /\ is_valid_positive_integer wd = true
      /\ is_valid_positive_integer h = true
      /\ b = mkBuilding id (atoi x) (atoi y) (atoi wd) (atoi h).
Proof.
  unfold parse_building_line. fold building_format.
  destruct (sscanf line building_format) as [n args] eqn:E.
  destruct (n =? 5) eqn:En; cbn [negb]; [| diagnosed].
  apply Z.eqb_eq in En. subst n.
  pose proof (sscanf_count line building_format 5 args E) as Hlen.
  list_of_length Hlen. unfold arg; cbn [nth].
  destruct (is_valid_id s) eqn:E1; cbn [negb]; [| diagnosed].
  destruct (is_valid_integer s0) eqn:E2; cbn [negb]; [| diagnosed].
  destruct (is_valid_integer s1) eqn:E3; cbn [negb]; [| diagnosed].
  destruct (is_valid_positive_integer s2) eqn:E4; cbn [negb]; [| diagnosed].
  destruct (is_valid_positive_integer s3) eqn:E5; cbn [negb]; [| diagnosed].
  unfold ret. intros H. injection H as <- <-.
  split; [reflexivity |]. exists s, s0, s1, s2, s3. auto 10.
Qed.

Lemma parse_antenna_line_inv (line : string) (line_num : Z) (w w' : World)
      (a : Antenna) :
  parse_antenna_line line line_num w = (Some a, w') ->
  w' = w
  /\ exists id x y r,
      sscanf line antenna_format = (4, [id; x; y; r])
      /\ is_valid_id id = true
      /\ is_valid_integer x = true
      /\ is_valid_integer y = true
      /\ is_valid_positive_integer r = true
      /\ a = mkAntenna id (atoi x) (atoi y) (atoi r).
Proof.
  unfold parse_antenna_line. fold antenna_format.
  destruct (sscanf line antenna_format) as [n args] eqn:E.
  destruct (n =? 4) eqn:En; cbn [negb]; [| diagnosed].
  apply Z.eqb_eq in En. subst n.
  pose proof (sscanf_count line antenna_format 4 args E) as Hlen.
  list_of_length Hlen. unfold arg; cbn [nth].
  destruct (is_valid_id s) eqn:E1; cbn [negb]; [| diagnosed].
  destruct (is_valid_integer s0) eqn:E2; cbn [negb]; [| diagnosed].
  destruct (is_valid_integer s1) eqn:E3; cbn [negb]; [| diagnosed].
  destruct (is_valid_positive_integer s2) eqn:E4; cbn [negb]; [| diagnosed].
  unfold ret. intros H. injection H as <- <-.
  split; [reflexivity |]. exists s, s0, s1, s2. auto 10.
Qed.

Lemma building_fields_short (line : string) :
  Forall (short 10) (snd (sscanf line building_format)).
Proof. apply sscanf_short. reflexivity. Qed.

Lemma antenna_fields_short (line : string) :
  Forall (short 10) (snd (sscanf line antenna_format)).
Proof. apply sscanf_short. reflexivity. Qed.

End Parser.

(** X19.  A line that [parse_building_line] or [parse_antenna_line] accepts
    stores an identifier of at most 10 characters, and each of its numeric
    tokens has at most 10 characters.  A token of 11 or more characters
    read by a [%10s] that another [%10s] follows is cut after its tenth
    character, and the characters that follow are what the next [%10s]
    reads. *)
Theorem fields_at_most_ten_characters :
  forall (line : string) (line_num : Z) (w w' : World),
    (forall b : Building,
        parse_building_line line line_num w = (Some b, w') ->
        (String.length (b_id b) <= 10)%nat
        /\ exists x y wd h,
            snd (sscanf line building_format) = [b_id b; x; y; wd; h]
            /\ Forall (short 10) [x; y; wd; h]
            /\ b = mkBuilding (b_id b) (atoi x) (atoi y) (atoi wd) (atoi h))
    /\ (forall a : Antenna,
           parse_antenna_line line line_num w = (Some a, w') ->
           (String.length (a_id a) <= 10)%nat
           /\ exists x y r,
               snd (sscanf line antenna_format) = [a_id a; x; y; r]
               /\ Forall (short 10) [x; y; r]
               /\ a = mkAntenna (a_id a) (atoi x) (atoi y) (atoi r))
    /\ (forall (lead tok rest : string) (fmt : list directive)
               (assigned : list string),
           blank lead = true ->
           no_space tok = true ->
           token_end rest = true ->
           (11 <= String.length tok)%nat ->
           tok = (take 10 tok ++ drop 10 tok)%string
           /\ String.length (take 10 tok) = 10%nat
           /\ drop 10 tok <> EmptyString
           /\ scan (Ws :: Str 10 :: Ws :: Str 10 :: fmt)
                   (lead ++ tok ++ rest) assigned
              = scan fmt
                  (drop 10 (drop 10 tok) ++ rest)
                  (assigned ++ [take 10 tok;
                                take 10 (drop 10 tok)])).
Proof.
  intros line line_num w w'. split; [| split].
  - intros b H.
    apply Parser.parse_building_line_inv in H.
    destruct H as (_ & id & x & y & wd & h & E & _ & _ & _ & _ & _ & ->).
    pose proof (Parser.building_fields_short line) as Hs.
    rewrite E in Hs. simpl in Hs. inversion Hs as [| ? ? Hid Hrest]; subst.
    split; [exact Hid |]. exists x, y, wd, h.
    rewrite E. simpl. auto.
  - intros a H.
    apply Parser.parse_antenna_line_inv in H.
    destruct H as (_ & id & x & y & r & E & _ & _ & _ & _ & ->).
    pose proof (Parser.antenna_fields_short line) as Hs.
    rewrite E in Hs. simpl in Hs. inversion Hs as [| ? ? Hid Hrest]; subst.
    split; [exact Hid |]. exists x, y, r.
    rewrite E. simpl. auto.
  - intros lead tok rest fmt assigned Hlead Htok Hrest Hlen.
    split; [symmetry; apply Tokenizer.take_drop |].
    split; [apply Tokenizer.length_take; lia |].
    split; [apply Tokenizer.drop_nonempty; lia |].
    apply Tokenizer.scan_long_token; auto.
Qed.

(** An instance: the line
    [building a1234567895 0 1 1]: its second token has 11 characters; the
    line is accepted with the identifier [a123456789] and x = 5. *)
Lemma fields_at_most_ten_characters_witness :
  parse_building_line "building a1234567895 0 1 1" 2
    (mkWorld EmptyString EmptyString EmptyString)
  = (Some (mkBuilding "a123456789" 5 0 1 1),
     mkWorld EmptyString EmptyString EmptyString)
  /\ (String.length "a123456789" <= 10)%nat
  /\ (11 <= String.length "a1234567895")%nat
  /\ scan [Ws; Str 10; Ws; Str 10] " a1234567895 0 1 1" []
     = scan [] " 0 1 1" ["a123456789"; "5"].
Proof.
  pose (w := mkWorld EmptyString EmptyString EmptyString).
  destruct (fields_at_most_ten_characters "building a1234567895 0 1 1" 2 w w)
    as (Hb & _ & Htok).
  assert (E : parse_building_line "building a1234567895 0 1 1" 2 w
              = (Some (mkBuilding "a123456789" 5 0 1 1), w)) by reflexivity.
  split; [exact E |].
  split; [exact (proj1 (Hb _ E)) |].
  split; [simpl; lia |].
  destruct (Htok " " "a1234567895" " 0 1 1" [] []
              eq_refl eq_refl eq_refl ltac:(simpl; lia)) as (_ & _ & _ & H).
  exact H.
Defined.

(** C10, at a line whose last token is too long.  The field that another
    one follows hands its remainder to the next field, and the line
    [building b1 0 0 1234567890x 1] is refused for its half-height [x].
    After the last field of the format nothing reads the remainder:
    [building b1 0 0 1 1234567890x] is accepted with the half-height
    1234567890 and [antenna a1 0 0 1234567890x] with the radius
    1234567890, without a diagnostic, and the scene is read to its end.
    The token of 11 characters is taken as a number. *)
Theorem last_field_remainder_dropped :
  forall w : World,
    parse_building_line "building b1 0 0 1 1234567890x" 2 w
    = (Some (mkBuilding "b1" 0 0 1 1234567890), w)
    /\ parse_antenna_line "antenna a1 0 0 1234567890x" 2 w
       = (Some (mkAntenna "a1" 0 0 1234567890), w)
    /\ parse_building_line "building b1 0 0 1234567890x 1" 2 w
       = (None,
          mkWorld (w_stdin w) (w_stdout w)
            (w_stderr w ++ "error: invalid positive integer "
             ++ String "034"%char "x" ++ String "034"%char " (line #2)"
             ++ LF))
    /\ run ["kover"; "describe"]
         (unlines ["begin scene"; "building b1 0 0 1 1234567890x";
                   "end scene"])
       = (Some 0,
          mkWorld EmptyString
            (unlines ["A scene with 1 building";
                      "  building b1 at 0 0 with dimensions 1 1234567890"])
            EmptyString).
Proof.
  intros w. split; [reflexivity |]. split; [reflexivity |].
  split; [reflexivity |]. vm_compute. reflexivity.
Qed.

(** C2, at the lines of scenario 5.  The tokens that follow the last field
    are not looked at: [building b1 0 0 1 1 extra], with 6 tokens after the
    keyword, is parsed as the building b1, and so is an antenna line with 5
    tokens; no diagnostic is printed and the scene is read to its end. *)
Theorem parse_line_ignores_extra_tokens :
  forall w : World,
    parse_building_line "building b1 0 0 1 1 extra" 2 w
    = (Some (mkBuilding "b1" 0 0 1 1), w)
    /\ parse_antenna_line "antenna a1 0 0 1 extra" 2 w
       = (Some (mkAntenna "a1" 0 0 1), w)
    /\ run ["kover"; "summarize"]
         ("begin scene" ++ endl ++ "building b1 0 0 1 1 extra" ++ endl
          ++ "end scene" ++ endl)
       = (Some SUCCESS,
          mkWorld EmptyString ("A scene with 1 building" ++ endl) EmptyString).
Proof.
  intros w. split; [reflexivity |]. split; [reflexivity |].
  vm_compute. reflexivity.
Qed.

(** ** Adding an antenna *)

Module Positions.

Lemma has_same_position_spec (a1 a2 : Antenna) :
  has_same_position a1 a2 = true <-> a_x a1 = a_x a2 /\ a_y a1 = a_y a2.
Proof.
  unfold has_same_position. now rewrite andb_true_iff, !Z.eqb_eq.
Qed.

Lemma find_first {A : Type} (f : A -> bool) (l : list A) (x : A) :
  find f l = Some x ->
  exists j, nth_error l j = Some x /\ f x = true
            /\ forall j' y, (j' < j)%nat -> nth_error l j' = Some y -> f y = false.
Proof.
  induction l as [| a l IH]; simpl; [discriminate |].
  destruct (f a) eqn:E.
  - intros H. injection H as <-. exists O. repeat split; auto.
    intros j' y Hj. lia.
  - intros H. destruct (IH H) as (j & Hn & Hf & Hmin).
    exists (S j). repeat split; auto.
    intros [| j'] y Hj Hy; simpl in Hy.
    + congruence.
    + apply (Hmin j'); [lia | exact Hy].
Qed.

Lemma find_nowhere {A : Type} (f : A -> bool) (l : list A) :
  find f l = None -> forall j y, nth_error l j = Some y -> f y = false.
Proof.
  intros H j y Hy. apply (find_none f l H). eapply nth_error_In; eauto.
Qed.

Lemma collide_tail (a : Antenna) (l : list Antenna) (i j : nat) :
  collide (a :: l) (S i) (S j) <-> collide l i j.
Proof.
  unfold collide. simpl. split; intros (a1 & a2 & H & R); exists a1, a2;
    (split; [lia | exact R]).
Qed.

Lemma antenna_positions_from_some (l : list Antenna) :
  forall id1 id2,
    antenna_positions_from l = Some (id1, id2) ->
    exists i j a1 a2,
      nth_error l i = Some a1 /\ nth_error l j = Some a2
      /\ first_collision l i j /\ id1 = a_id a1 /\ id2 = a_id a2.
Proof.
  induction l as [| a l IH]; intros id1 id2; simpl; [discriminate |].
  destruct (find (fun aj => has_same_position a aj) l) as [aj |] eqn:E.
  - intros H. injection H as <- <-.
    destruct (find_first _ _ _ E) as (j & Hn & Hs & Hmin).
    apply has_same_position_spec in Hs.
    exists O, (S j), a, aj. repeat split; auto.
    + exists a, aj. repeat split; simpl; auto; try lia; tauto.
    + intros [| i'] j' (a1 & a2 & Hlt & H1 & H2 & Hpos); [| left; lia].
      right. split; [reflexivity |].
      destruct j' as [| j']; [lia |]. simpl in H1, H2. injection H1 as <-.
      destruct (Nat.lt_ge_cases j' j) as [Hlt' | Hge]; [| lia].
      pose proof (Hmin j' a2 Hlt' H2) as Hno. simpl in Hno.
      apply (proj2 (has_same_position_spec a a2)) in Hpos. congruence.
  - intros H. destruct (IH _ _ H) as (i & j & a1 & a2 & H1 & H2 & [Hc Hmin] & -> & ->).
    exists (S i), (S j), a1, a2. repeat split; auto.
    + now apply collide_tail.
    + intros [| i'] j' Hc'.
      * destruct Hc' as (b1 & b2 & Hlt & Hb1 & Hb2 & Hpos).
        destruct j' as [| j']; [lia |]. simpl in Hb1, Hb2. injection Hb1 as <-.
        pose proof (find_nowhere _ _ E j' b2 Hb2) as Hno. simpl in Hno.
        apply (proj2 (has_same_position_spec a b2)) in Hpos. congruence.
      * destruct j' as [| j'].
        { destruct Hc' as (_ & _ & Hlt & _). lia. }
        apply collide_tail in Hc'. destruct (Hmin _ _ Hc') as [Hlt | [-> Hle]].
        { left. lia. }
        { right. split; [reflexivity | lia]. }
Qed.

Lemma antenna_positions_from_none (l : list Antenna) :
  antenna_positions_from l = None -> forall i j, ~ collide l i j.
Proof.
  induction l as [| a l IH]; simpl.
  - intros _ i j (a1 & a2 & _ & H & _). destruct i; discriminate H.
  - destruct (find (fun aj => has_same_position a aj) l) as [aj |] eqn:E;
      [discriminate |].
    intros H i j Hc. destruct i as [| i], j as [| j].
    + destruct Hc as (_ & _ & Hlt & _). lia.
    + destruct Hc as (b1 & b2 & Hlt & Hb1 & Hb2 & Hpos).
      simpl in Hb1, Hb2. injection Hb1 as <-.
      pose proof (find_nowhere _ _ E j b2 Hb2) as Hno. simpl in Hno.
      apply (proj2 (has_same_position_spec a b2)) in Hpos. congruence.
    + destruct Hc as (_ & _ & Hlt & _). lia.
    + apply collide_tail in Hc. exact (IH H i j Hc).
Qed.

(** The pair the function reports is the first colliding one. *)
Lemma antenna_positions_from_first (l : list Antenna) (i j : nat)
      (a1 a2 : Antenna) :
  first_collision l i j ->
  nth_error l i = Some a1 -> nth_error l j = Some a2 ->
  antenna_positions_from l = Some (a_id a1, a_id a2).
Proof.
  intros [Hc Hmin] H1 H2.
  destruct (antenna_positions_from l) as [[id1 id2] |] eqn:E.
  - destruct (antenna_positions_from_some l id1 id2 E)
      as (i' & j' & b1 & b2 & Hb1 & Hb2 & [Hc' Hmin'] & -> & ->).
    destruct (Hmin _ _ Hc') as [Hlt | [<- Hle]];
      destruct (Hmin' _ _ Hc) as [Hlt' | [Heq Hle']]; try lia.
    assert (j = j') by lia. subst j'. congruence.
  - exfalso. exact (antenna_positions_from_none l E i j Hc).
Qed.

Lemma is_duplicate_antenna_id_spec (scene : Scene) (id : string) :
  is_duplicate_antenna_id scene id = true
  <-> exists a, In a (antennas scene) /\ a_id a = id.
Proof.
  unfold is_duplicate_antenna_id. rewrite existsb_exists.
  split; intros (a & Hin & H); exists a; (split; [exact Hin |]);
    now apply strcmp_eq.
Qed.

End Positions.

Lemma process_antenna_parsed (scene : Scene) (line : string) (line_num : Z)
      (w w' : World) (a : Antenna) :
  parse_antenna_line line line_num w = (Some a, w') ->
  process_antenna scene line line_num w
  = if is_duplicate_antenna_id scene (a_id a) then
      ((false, scene), with_stderr w (msg_antenna_non_unique (a_id a)))
    else
      match antenna_positions_from (antennas scene ++ [a]) with
      | Some (id1, id2) =>
          ((false, with_antenna scene a),
           with_stderr w (msg_same_position id1 id2))
      | None => ((true, with_antenna scene a), w)
      end.
Proof.
  intros H.
  destruct (Parser.parse_antenna_line_inv _ _ _ _ _ H) as [-> _].
  unfold process_antenna, bind. rewrite H.
  destruct (is_duplicate_antenna_id scene (a_id a)); [reflexivity |].
  unfold check_antenna_positions. cbn [antennas].
  destruct (antenna_positions_from (antennas scene ++ [a])) as [[id1 id2] |];
    reflexivity.
Qed.

(** C8.  For every scene and every antenna [a] parsed from a line,
    [process_antenna] fails with the DuplicateId diagnostic, the scene
    untouched, iff the identifier of [a] is that of an antenna of the scene;
    otherwise it appends [a], and then fails iff two antennas of the
    resulting collection have the same (x, y), with the SamePosition
    diagnostic naming the first colliding pair in collection order, the one
    added earlier first; and it succeeds when no two collide.  The two
    diagnostics are the lines [error: antenna identifier ID is non unique]
    and [error: antennas ID1 and ID2 have the same position] on the error
    channel. *)
Theorem process_antenna_outcome :
  forall (scene : Scene) (line : string) (line_num : Z) (w w' : World)
         (a : Antenna),
    parse_antenna_line line line_num w = (Some a, w') ->
    (antenna_id_taken scene a
     <-> process_antenna scene line line_num w
         = ((false, scene),
            with_stderr w
              ("error: antenna identifier " ++ a_id a ++ " is non unique"
               ++ LF)))
    /\ (~ antenna_id_taken scene a ->
        snd (fst (process_antenna scene line line_num w)) = with_antenna scene a
        /\ (fst (fst (process_antenna scene line line_num w)) = false
            <-> exists i j,
                 collide (antennas (with_antenna scene a)) i j)
        /\ (forall i j a1 a2,
               first_collision (antennas (with_antenna scene a)) i j ->
               nth_error (antennas (with_antenna scene a)) i = Some a1 ->
               nth_error (antennas (with_antenna scene a)) j = Some a2 ->
               process_antenna scene line line_num w
               = ((false, with_antenna scene a),
                  with_stderr w
                    ("error: antennas " ++ a_id a1 ++ " and " ++ a_id a2
                     ++ " have the same position" ++ LF)))
        /\ ((forall i j,
                ~ collide (antennas (with_antenna scene a)) i j) ->
            process_antenna scene line line_num w
            = ((true, with_antenna scene a), w))).
Proof.
  intros scene line line_num w w' a H.
  rewrite (process_antenna_parsed scene line line_num w w' a H).
  pose proof (Positions.is_duplicate_antenna_id_spec scene (a_id a)) as Hdup.
  fold (antenna_id_taken scene a) in Hdup.
  destruct (is_duplicate_antenna_id scene (a_id a)) eqn:E.
  - split.
    + split; [reflexivity | intros _; now apply Hdup].
    + intros Hno. exfalso. apply Hno. now apply Hdup.
  - assert (Hno : ~ antenna_id_taken scene a).
    { intros Ht. apply Hdup in Ht. discriminate Ht. }
    assert (Hne : with_antenna scene a <> scene).
    { unfold with_antenna. intros Heq.
      apply (f_equal (fun s => List.length (antennas s))) in Heq.
      simpl in Heq. rewrite length_app in Heq. simpl in Heq. lia. }
    cbn [antennas with_antenna].
    destruct (antenna_positions_from (antennas scene ++ [a]))
      as [[id1 id2] |] eqn:P.
    + split.
      * split; [intros Ht; contradiction |].
        intros Heq. exfalso. apply Hne. congruence.
      * intros _. cbn [fst snd]. split; [reflexivity |]. split; [| split].
        -- split; [intros _ | reflexivity].
           destruct (Positions.antenna_positions_from_some _ _ _ P)
             as (i & j & _ & _ & _ & _ & [Hc _] & _).
           exists i, j. exact Hc.
        -- intros i j a1 a2 Hf H1 H2.
           pose proof (Positions.antenna_positions_from_first _ _ _ _ _ Hf H1 H2)
             as P'.
           rewrite P in P'. injection P' as -> ->. reflexivity.
        -- intros Hnone. exfalso.
           destruct (Positions.antenna_positions_from_some _ _ _ P)
             as (i & j & _ & _ & _ & _ & [Hc _] & _).
           exact (Hnone i j Hc).
    + split.
      * split; [intros Ht; contradiction |].
        intros Heq. discriminate Heq.
      * intros _. cbn [fst snd]. split; [reflexivity |]. split; [| split].
        -- split; [discriminate |].
           intros (i & j & Hc). exfalso.
           exact (Positions.antenna_positions_from_none _ P i j Hc).
        -- intros i j a1 a2 [Hc _] _ _. exfalso.
           exact (Positions.antenna_positions_from_none _ P i j Hc).
        -- reflexivity.
Qed.

(** An instance, scenario 4: the scene holds the antenna a1
    at (5, 5) and the line [antenna a2 5 5 2] is read. *)
Lemma process_antenna_outcome_witness :
  parse_antenna_line "antenna a2 5 5 2" 3 silent
  = (Some (mkAntenna "a2" 5 5 2), silent)
  /\ ~ antenna_id_taken (mkScene [] [mkAntenna "a1" 5 5 3]) (mkAntenna "a2" 5 5 2)
  /\ process_antenna (mkScene [] [mkAntenna "a1" 5 5 3]) "antenna a2 5 5 2" 3 silent
     = ((false, mkScene [] [mkAntenna "a1" 5 5 3; mkAntenna "a2" 5 5 2]),
        mkWorld EmptyString EmptyString
          ("error: antennas a1 and a2 have the same position" ++ LF)).
Proof.
  assert (Hparse : parse_antenna_line "antenna a2 5 5 2" 3 silent
                   = (Some (mkAntenna "a2" 5 5 2), silent)) by reflexivity.
  assert (Hfree : ~ antenna_id_taken (mkScene [] [mkAntenna "a1" 5 5 3])
                      (mkAntenna "a2" 5 5 2)).
  { intros (a' & [<- | []] & Hid). discriminate Hid. }
  split; [exact Hparse |]. split; [exact Hfree |].
  destruct (process_antenna_outcome
              (mkScene [] [mkAntenna "a1" 5 5 3]) "antenna a2 5 5 2" 3
              silent silent (mkAntenna "a2" 5 5 2) Hparse) as [_ Hadd].
  destruct (Hadd Hfree) as (_ & _ & Hfirst & _).
  apply (Hfirst 0%nat 1%nat (mkAntenna "a1" 5 5 3) (mkAntenna "a2" 5 5 2));
    [| reflexivity | reflexivity].
  split.
  - exists (mkAntenna "a1" 5 5 3), (mkAntenna "a2" 5 5 2).
    repeat split; auto.
  - intros i' j' (b1 & b2 & Hlt & _).
    destruct i' as [| i']; [right; split; [reflexivity | lia] | left; lia].
Defined.

(** ** The bounding box *)

Module Bounding.

Lemma fold_min_le (l : list Z) :
  forall acc, fold_left Z.min l acc <= acc
              /\ (forall v, In v l -> fold_left Z.min l acc <= v)
              /\ (fold_left Z.min l acc = acc \/ In (fold_left Z.min l acc) l).
Proof.
  induction l as [| x l IH]; intros acc; simpl.
  - split; [lia |]. split; [tauto | auto].
  - destruct (IH (Z.min acc x)) as (H1 & H2 & H3).
    split; [lia |]. split.
    + intros v [<- | Hv]; [lia | auto].
    + destruct H3 as [H3 | H3]; [| auto].
      rewrite H3.
      destruct (Z.min_spec acc x) as [[_ E] | [_ E]]; rewrite E;
        [left; reflexivity | right; left; reflexivity].
Qed.

Lemma fold_max_ge (l : list Z) :
  forall acc, acc <= fold_left Z.max l acc
              /\ (forall v, In v l -> v <= fold_left Z.max l acc)
              /\ (fold_left Z.max l acc = acc \/ In (fold_left Z.max l acc) l).
Proof.
  induction l as [| x l IH]; intros acc; simpl.
  - split; [lia |]. split; [tauto | auto].
  - destruct (IH (Z.max acc x)) as (H1 & H2 & H3).
    split; [lia |]. split.
    + intros v [<- | Hv]; [lia | auto].
    + destruct H3 as [H3 | H3]; [| auto].
      rewrite H3.
      destruct (Z.max_spec acc x) as [[_ E] | [_ E]]; rewrite E;
        [right; left; reflexivity | left; reflexivity].
Qed.

Lemma fold_min_minimum (l : list Z) (acc : Z) :
  l <> [] -> (forall v, In v l -> v <= acc) ->
  is_minimum (fold_left Z.min l acc) l.
Proof.
  intros Hne Hacc. destruct (fold_min_le l acc) as (H1 & H2 & H3).
  split; [| exact H2].
  destruct H3 as [H3 | H3]; [| exact H3].
  destruct l as [| x l]; [congruence |].
  assert (E : fold_left Z.min (x :: l) acc = x).
  { pose proof (H2 x (or_introl eq_refl)). pose proof (Hacc x (or_introl eq_refl)).
    lia. }
  rewrite E. left. reflexivity.
Qed.

Lemma fold_max_maximum (l : list Z) (acc : Z) :
  l <> [] -> (forall v, In v l -> acc <= v) ->
  is_maximum (fold_left Z.max l acc) l.
Proof.
  intros Hne Hacc. destruct (fold_max_ge l acc) as (H1 & H2 & H3).
  split; [| exact H2].
  destruct H3 as [H3 | H3]; [| exact H3].
  destruct l as [| x l]; [congruence |].
  assert (E : fold_left Z.max (x :: l) acc = x).
  { pose proof (H2 x (or_introl eq_refl)). pose proof (Hacc x (or_introl eq_refl)).
    lia. }
  rewrite E. left. reflexivity.
Qed.

Lemma keep_min (lo cur : Z) : (if lo <? cur then lo else cur) = Z.min cur lo.
Proof. destruct (Z.ltb_spec lo cur); lia. Qed.

Lemma keep_max (hi cur : Z) : (if hi >? cur then hi else cur) = Z.max cur hi.
Proof. rewrite Z.gtb_ltb. destruct (Z.ltb_spec cur hi); lia. Qed.

(** The loop over the buildings, one output parameter at a time. *)
Lemma fold_box_building (bs : list Building) :
  forall bx,
    fold_left box_building bs bx
    = mkBox (fold_left Z.min (map (fun b => int_sub (b_x b) (b_w b)) bs) (min_x bx))
            (fold_left Z.max (map (fun b => int_add (b_x b) (b_w b)) bs) (max_x bx))
            (fold_left Z.min (map (fun b => int_sub (b_y b) (b_h b)) bs) (min_y bx))
            (fold_left Z.max (map (fun b => int_add (b_y b) (b_h b)) bs) (max_y bx)).
Proof.
  induction bs as [| b bs IH]; intros bx; simpl.
  - destruct bx; reflexivity.
  - rewrite IH. unfold box_building. simpl.
    rewrite !keep_min, !keep_max. reflexivity.
Qed.

Lemma fold_box_antenna (l : list Antenna) :
  forall bx,
    fold_left box_antenna l bx
    = mkBox (fold_left Z.min (map (fun a => int_sub (a_x a) (a_r a)) l) (min_x bx))
            (fold_left Z.max (map (fun a => int_add (a_x a) (a_r a)) l) (max_x bx))
            (fold_left Z.min (map (fun a => int_sub (a_y a) (a_r a)) l) (min_y bx))
            (fold_left Z.max (map (fun a => int_add (a_y a) (a_r a)) l) (max_y bx)).
Proof.
  induction l as [| a l IH]; intros bx; simpl.
  - destruct bx; reflexivity.
  - rewrite IH. unfold box_antenna. simpl.
    rewrite !keep_min, !keep_max. reflexivity.
Qed.

(** The box is made of the four folds over the extents. *)
Lemma compute_bounding_box_folds (scene : Scene) :
  compute_bounding_box scene
  = mkBox (fold_left Z.min (lefts_int scene) INT_MAX)
          (fold_left Z.max (rights_int scene) INT_MIN)
          (fold_left Z.min (bottoms_int scene) INT_MAX)
          (fold_left Z.max (tops_int scene) INT_MIN).
Proof.
  unfold compute_bounding_box.
  rewrite fold_box_antenna, fold_box_building. cbn [min_x max_x min_y max_y].
  unfold lefts_int, rights_int, bottoms_int, tops_int.
  rewrite !fold_left_app. reflexivity.
Qed.

(** Without overflow the extents the program computes are those of the
    integers. *)
Lemma extents_fit (scene : Scene) :
  scene_fits scene ->
  lefts_int scene = lefts scene /\ rights_int scene = rights scene
  /\ bottoms_int scene = bottoms scene /\ tops_int scene = tops scene.
Proof.
  intros [Hb Ha]. rewrite Forall_forall in Hb, Ha.
  unfold lefts_int, rights_int, bottoms_int, tops_int,
    lefts, rights, bottoms, tops.
  assert (Eb : forall (f g : Building -> Z),
             (forall b, building_fits b -> f b = g b) ->
             map f (buildings scene) = map g (buildings scene)).
  { intros f g H. apply map_ext_in. intros b Hin. apply H, Hb, Hin. }
  assert (Ea : forall (f g : Antenna -> Z),
             (forall a, antenna_fits a -> f a = g a) ->
             map f (antennas scene) = map g (antennas scene)).
  { intros f g H. apply map_ext_in. intros a Hin. apply H, Ha, Hin. }
  rewrite (Eb (fun b => int_sub (b_x b) (b_w b)) (fun b => b_x b - b_w b))
    by (intros b (_ & H & _ & _); now apply wrap_int_small).
  rewrite (Eb (fun b => int_add (b_x b) (b_w b)) (fun b => b_x b + b_w b))
    by (intros b (H & _ & _ & _); now apply wrap_int_small).
  rewrite (Eb (fun b => int_sub (b_y b) (b_h b)) (fun b => b_y b - b_h b))
    by (intros b (_ & _ & _ & H); now apply wrap_int_small).
  rewrite (Eb (fun b => int_add (b_y b) (b_h b)) (fun b => b_y b + b_h b))
    by (intros b (_ & _ & H & _); now apply wrap_int_small).
  rewrite (Ea (fun a => int_sub (a_x a) (a_r a)) (fun a => a_x a - a_r a))
    by (intros a (_ & H & _ & _); now apply wrap_int_small).
  rewrite (Ea (fun a => int_add (a_x a) (a_r a)) (fun a => a_x a + a_r a))
    by (intros a (H & _ & _ & _); now apply wrap_int_small).
  rewrite (Ea (fun a => int_sub (a_y a) (a_r a)) (fun a => a_y a - a_r a))
    by (intros a (_ & _ & _ & H); now apply wrap_int_small).
  rewrite (Ea (fun a => int_add (a_y a) (a_r a)) (fun a => a_y a + a_r a))
    by (intros a (_ & _ & H & _); now apply wrap_int_small).
  auto.
Qed.

(** Every end of an extent the program computes is an [int]. *)
Lemma extents_in_int (scene : Scene) (v : Z) :
  In v (lefts_int scene) \/ In v (rights_int scene)
  \/ In v (bottoms_int scene) \/ In v (tops_int scene) ->
  in_int v.
Proof.
  unfold lefts_int, rights_int, bottoms_int, tops_int.
  rewrite !in_app_iff, !in_map_iff.
  intros [[(b & <- & _) | (a & <- & _)]
         | [[(b & <- & _) | (a & <- & _)]
           | [[(b & <- & _) | (a & <- & _)]
             | [(b & <- & _) | (a & <- & _)]]]];
    apply wrap_int_range.
Qed.

Lemma extents_nonempty (scene : Scene) :
  nonempty scene ->
  lefts_int scene <> [] /\ rights_int scene <> []
  /\ bottoms_int scene <> [] /\ tops_int scene <> [].
Proof.
  unfold nonempty, lefts_int, rights_int, bottoms_int, tops_int.
  destruct (buildings scene), (antennas scene); simpl;
    intros [H | H]; try congruence; repeat split; discriminate.
Qed.

End Bounding.

(** C6.  For every non-empty scene, the box computed by
    [compute_bounding_box] and printed by [print_bounding_box] has for
    bounds the minimum and the maximum of x, and of y, over the extents
    [x-w, x+w] x [y-h, y+h] of the buildings and [x-r, x+r] x [y-r, y+r] of
    the antennas; the sums and differences are those of the program, on
    [int], and are those of the integers when the extents of the scene are
    representable.  For a scene with no building and no antenna the query
    prints "undefined"; and the scene made of [building b1 0 0 1 1] yields
    "bounding box [-1, 1] x [-1, 1]". *)
Theorem bounding_box_extents :
  forall (scene : Scene) (w : World),
    (nonempty scene ->
     is_minimum (min_x (compute_bounding_box scene)) (lefts_int scene)
     /\ is_maximum (max_x (compute_bounding_box scene)) (rights_int scene)
     /\ is_minimum (min_y (compute_bounding_box scene)) (bottoms_int scene)
     /\ is_maximum (max_y (compute_bounding_box scene)) (tops_int scene)
     /\ print_bounding_box scene w
        = (tt, with_stdout w (box_text (compute_bounding_box scene))))
    /\ (scene_fits scene ->
        lefts_int scene = lefts scene /\ rights_int scene = rights scene
        /\ bottoms_int scene = bottoms scene /\ tops_int scene = tops scene)
    /\ (buildings scene = [] -> antennas scene = [] ->
        print_bounding_box scene w
        = (tt, with_stdout w ("undefined (empty scene)" ++ endl)))
    /\ run ["kover"; "bounding-box"]
         ("begin scene" ++ endl ++ "building b1 0 0 1 1" ++ endl
          ++ "end scene" ++ endl)
       = (Some SUCCESS,
          mkWorld EmptyString ("bounding box [-1, 1] x [-1, 1]" ++ endl)
            EmptyString).
Proof.
  intros scene w. split; [| split; [| split]].
  - intros Hne.
    rewrite (Bounding.compute_bounding_box_folds scene).
    cbn [min_x max_x min_y max_y].
    destruct (Bounding.extents_nonempty scene Hne) as (Nl & Nr & Nb & Nt).
    assert (Hint : forall v,
               In v (lefts_int scene) \/ In v (rights_int scene)
               \/ In v (bottoms_int scene) \/ In v (tops_int scene) ->
               INT_MIN <= v <= INT_MAX).
    { intros v Hv. exact (Bounding.extents_in_int scene v Hv). }
    split; [apply Bounding.fold_min_minimum; [exact Nl |];
            intros v Hv; apply Hint; auto |].
    split; [apply Bounding.fold_max_maximum; [exact Nr |];
            intros v Hv; apply Hint; auto |].
    split; [apply Bounding.fold_min_minimum; [exact Nb |];
            intros v Hv; apply Hint; auto |].
    split; [apply Bounding.fold_max_maximum; [exact Nt |];
            intros v Hv; apply Hint; auto |].
    unfold print_bounding_box, num_buildings, num_antennas.
    rewrite <- (Bounding.compute_bounding_box_folds scene).
    destruct Hne as [Hb | Ha].
    + destruct (buildings scene); [congruence | reflexivity].
    + destruct (antennas scene); [congruence |].
      rewrite andb_false_r. reflexivity.
  - apply Bounding.extents_fit.
  - intros Hb Ha. unfold print_bounding_box, num_buildings, num_antennas.
    rewrite Hb, Ha. reflexivity.
  - vm_compute. reflexivity.
Qed.

(** An instance: the scene of scenario 2. *)
Lemma bounding_box_extents_witness :
  nonempty (mkScene [mkBuilding "b1" 0 0 1 1] [])
  /\ scene_fits (mkScene [mkBuilding "b1" 0 0 1 1] [])
  /\ lefts (mkScene [mkBuilding "b1" 0 0 1 1] []) = [-1]
  /\ is_minimum
       (min_x (compute_bounding_box (mkScene [mkBuilding "b1" 0 0 1 1] [])))
       (lefts (mkScene [mkBuilding "b1" 0 0 1 1] []))
  /\ print_bounding_box (mkScene [mkBuilding "b1" 0 0 1 1] []) silent
     = (tt, with_stdout silent ("bounding box [-1, 1] x [-1, 1]" ++ endl)).
Proof.
  assert (Hfits : scene_fits (mkScene [mkBuilding "b1" 0 0 1 1] [])).
  { split; simpl; repeat constructor;
      unfold in_int, INT_MIN, INT_MAX; simpl; lia. }
  assert (Hne : nonempty (mkScene [mkBuilding "b1" 0 0 1 1] [])).
  { left. discriminate. }
  split; [exact Hne |]. split; [exact Hfits |]. split; [reflexivity |].
  destruct (bounding_box_extents (mkScene [mkBuilding "b1" 0 0 1 1] []) silent)
    as (H & Hmath & _).
  destruct (H Hne) as (Hmin & _ & _ & _ & Hprint).
  destruct (Hmath Hfits) as (El & _).
  split; [rewrite <- El; exact Hmin | exact Hprint].
Defined.

(** ** The description *)

Module Description.

Lemma ascii_compare (c1 c2 : ascii) :
  Ascii_as_OT.compare c1 c2 = (code c1 ?= code c2).
Proof.
  unfold Ascii_as_OT.compare, code. symmetry. apply N2Z.inj_compare.
Qed.

Lemma code_inj (c1 c2 : ascii) : code c1 = code c2 -> c1 = c2.
Proof.
  unfold code. intros H. apply N2Z.inj in H.
  rewrite <- (ascii_N_embedding c1), <- (ascii_N_embedding c2). now rewrite H.
Qed.

Lemma strcmp_lex_le (s1 s2 : string) : strcmp s1 s2 <= 0 <-> lex_le s1 s2.
Proof.
  unfold strcmp. revert s2.
  induction s1 as [| c1 s1 IH]; intros [| c2 s2]; cbn [String_as_OT.compare].
  - split; [constructor | lia].
  - split; [constructor | lia].
  - split; [lia | intros H; inversion H].
  - rewrite ascii_compare.
    destruct (Z.compare_spec (code c1) (code c2)) as [E | L | G].
    + apply code_inj in E. subst c2. rewrite IH. split.
      * now constructor.
      * intros H. inversion H; subst; [lia | assumption].
    + split; [intros _; now constructor | lia].
    + split; [lia |]. intros H. inversion H; subst; lia.
Qed.

Lemma id_le_total (s1 s2 : string) : ~ id_le s1 s2 -> id_le s2 s1.
Proof.
  unfold id_le, compare_ids, strcmp.
  destruct (String_as_OT.compare_spec s1 s2) as [E | L | G]; try lia.
  intros _. unfold String_as_OT.lt in G. rewrite G. lia.
Qed.

Lemma qsort_insert_perm (x : string) (l : list string) :
  Permutation (x :: l) (qsort_insert x l).
Proof.
  induction l as [| y l IH]; simpl; [reflexivity |].
  destruct (compare_ids x y <=? 0); [reflexivity |].
  rewrite perm_swap. now constructor.
Qed.

Lemma qsort_perm (l : list string) : Permutation l (qsort l).
Proof.
  induction l as [| x l IH]; simpl; [constructor |].
  rewrite <- qsort_insert_perm. now constructor.
Qed.

Lemma qsort_insert_sorted (x : string) (l : list string) :
  Sorted id_le l -> Sorted id_le (qsort_insert x l).
Proof.
  induction l as [| y l IH]; simpl; intros Hs.
  - repeat constructor.
  - destruct (Z.leb_spec (compare_ids x y) 0) as [Hle | Hgt].
    + constructor; [exact Hs |]. constructor. exact Hle.
    + assert (Hyx : id_le y x) by (apply id_le_total; unfold id_le; lia).
      apply Sorted_inv in Hs. destruct Hs as [Hs Hhd].
      constructor; [now apply IH |].
      destruct l as [| z l]; simpl.
      * constructor. exact Hyx.
      * destruct (compare_ids x z <=? 0); constructor;
          [exact Hyx | now inversion Hhd].
Qed.

Lemma qsort_sorted (l : list string) : Sorted id_le (qsort l).
Proof.
  induction l as [| x l IH]; simpl; [constructor |].
  now apply qsort_insert_sorted.
Qed.

Lemma append_assoc (s1 s2 s3 : string) :
  ((s1 ++ s2) ++ s3 = s1 ++ (s2 ++ s3))%string.
Proof. induction s1 as [| c s1 IH]; simpl; [reflexivity | now rewrite IH]. Qed.

Lemma append_empty (s : string) : (s ++ EmptyString)%string = s.
Proof. induction s as [| c s IH]; simpl; [reflexivity | now rewrite IH]. Qed.

Lemma texts_app (l1 l2 : list string) :
  texts (l1 ++ l2) = (texts l1 ++ texts l2)%string.
Proof.
  induction l1 as [| s l1 IH]; simpl; [reflexivity |].
  now rewrite IH, append_assoc.
Qed.

Lemma writes_printf (text : string) : writes (printf text) text.
Proof. intros w. reflexivity. Qed.

Lemma writes_ret : writes (ret tt) EmptyString.
Proof.
  intros [i o e]. unfold ret, with_stdout. simpl. now rewrite append_empty.
Qed.

Lemma writes_seq (m1 m2 : IO unit) (t1 t2 : string) :
  writes m1 t1 -> writes m2 t2 -> writes (m1 ;;; m2) (t1 ++ t2).
Proof.
  intros H1 H2 w. unfold bind. rewrite H1, H2.
  unfold with_stdout. simpl. now rewrite append_assoc.
Qed.

Lemma writes_for_each {A : Type} (body : A -> IO unit) (text : A -> string)
      (l : list A) :
  (forall x, writes (body x) (text x)) ->
  writes (for_each body l) (texts (map text l)).
Proof.
  intros H. induction l as [| x l IH]; simpl.
  - apply writes_ret.
  - apply writes_seq; [apply H | exact IH].
Qed.

Lemma writes_print_summary (scene : Scene) :
  writes (print_summary scene) (summary_text scene).
Proof.
  unfold print_summary, summary_text.
  destruct ((num_buildings scene =? 0)%nat && (num_antennas scene =? 0)%nat).
  - apply writes_printf.
  - apply writes_seq; [apply writes_printf |].
    apply writes_seq; [| apply writes_seq; [| apply writes_printf]].
    + destruct (0 <? num_buildings scene)%nat; [| apply writes_ret].
      apply writes_seq; [apply writes_printf |].
      destruct (0 <? num_antennas scene)%nat;
        [apply writes_printf | apply writes_ret].
    + destruct (0 <? num_antennas scene)%nat;
        [apply writes_printf | apply writes_ret].
Qed.

End Description.

(** The elements printed for a sorted array of identifiers. *)
Module Lookup.

Section Named.

Variable A : Type.
Variable id_of : A -> string.

Local Abbreviation named := (first_named A id_of).

Lemma find_own (l : list A) (x : A) :
  NoDup (map id_of l) -> In x l ->
  find (fun y => strcmp (id_of x) (id_of y) =? 0) l = Some x.
Proof.
  induction l as [| a l IH]; simpl; intros Hnd Hin; [contradiction |].
  inversion Hnd as [| ? ? Hnotin Hnd']; subst.
  destruct Hin as [-> | Hin].
  - rewrite (proj2 (strcmp_eq (id_of x) (id_of x)) eq_refl).
    reflexivity.
  - destruct (strcmp (id_of x) (id_of a) =? 0) eqn:E.
    + apply strcmp_eq in E. exfalso. apply Hnotin.
      rewrite <- E. now apply in_map.
    + now apply IH.
Qed.

Lemma named_own (l l0 : list A) :
  NoDup (map id_of l) -> incl l0 l ->
  flat_map (named l) (map id_of l0) = l0.
Proof.
  intros Hnd. induction l0 as [| x l0 IH]; simpl; intros Hincl; [reflexivity |].
  unfold named at 1. rewrite find_own; [| exact Hnd | apply Hincl; now left].
  simpl. f_equal. apply IH. intros y Hy. apply Hincl. now right.
Qed.

Lemma named_ids (l : list A) (ids : list string) :
  incl ids (map id_of l) ->
  map id_of (flat_map (named l) ids) = ids.
Proof.
  induction ids as [| id ids IH]; simpl; intros Hincl; [reflexivity |].
  rewrite map_app, IH by (intros y Hy; apply Hincl; now right).
  unfold named.
  destruct (find (fun x => strcmp id (id_of x) =? 0) l) as [x |] eqn:E.
  - apply find_some in E. destruct E as [_ E].
    apply strcmp_eq in E. simpl. now rewrite <- E.
  - exfalso. assert (Hin : In id (map id_of l)) by (apply Hincl; now left).
    apply in_map_iff in Hin. destruct Hin as (x & <- & Hx).
    pose proof (find_none _ _ E x Hx) as Hno. simpl in Hno.
    rewrite (proj2 (strcmp_eq (id_of x) (id_of x)) eq_refl) in Hno.
    discriminate Hno.
Qed.

(** With identifiers all different, looking up the sorted identifiers
    lists every element once, in the order of the identifiers. *)
Lemma named_sorted (l : list A) :
  NoDup (map id_of l) ->
  Permutation (flat_map (named l) (qsort (map id_of l))) l
  /\ map id_of (flat_map (named l) (qsort (map id_of l))) = qsort (map id_of l).
Proof.
  intros Hnd. split.
  - apply Permutation_trans with (flat_map (named l) (map id_of l)).
    + apply Permutation_flat_map. symmetry. apply Description.qsort_perm.
    + rewrite (named_own l l Hnd (incl_refl l)). reflexivity.
  - apply named_ids. intros id Hid.
    eapply Permutation_in; [symmetry; apply Description.qsort_perm | exact Hid].
Qed.

Lemma texts_flat_map (text : A -> string) (l : list A) (ids : list string) :
  texts
    (map (fun id => texts (map text (named l id))) ids)
  = texts (map text (flat_map (named l) ids)).
Proof.
  induction ids as [| id ids IH]; simpl; [reflexivity |].
  now rewrite map_app, Description.texts_app, IH.
Qed.

End Named.

End Lookup.

Module Order.

Import Description.

Lemma id_le_cases (s1 s2 : string) :
  id_le s1 s2 <-> s1 = s2 \/ String_as_OT.lt s1 s2.
Proof.
  unfold id_le, compare_ids, strcmp.
  destruct (String_as_OT.compare_spec s1 s2) as [E | L | G].
  - split; [auto | lia].
  - split; [auto | lia].
  - split; [lia |]. intros [-> | L]; exfalso.
    + exact (StrictOrder_Irreflexive _ G).
    + exact (StrictOrder_Irreflexive _ (StrictOrder_Transitive _ _ _ L G)).
Qed.

Lemma id_le_trans (s1 s2 s3 : string) : id_le s1 s2 -> id_le s2 s3 -> id_le s1 s3.
Proof.
  rewrite !id_le_cases. intros [-> | H1] [-> | H2]; auto.
  right. exact (StrictOrder_Transitive _ _ _ H1 H2).
Qed.

Lemma lex_le_trans : Relations_1.Transitive lex_le.
Proof.
  intros s1 s2 s3 H1 H2. apply strcmp_lex_le. apply strcmp_lex_le in H1, H2.
  exact (id_le_trans _ _ _ H1 H2).
Qed.

Lemma strongly_sorted_ids (l : list string) :
  Sorted id_le l -> StronglySorted lex_le l.
Proof.
  intros H. apply Sorted_StronglySorted; [exact lex_le_trans |].
  induction H as [| x l Hs IH Hhd]; constructor; [exact IH |].
  destruct Hhd; constructor. now apply strcmp_lex_le.
Qed.

End Order.

(** ** Computations that only write diagnostics *)

Module Diagnostics.

Lemma with_stderr_empty (w : World) : with_stderr w EmptyString = w.
Proof.
  destruct w as [i o e]. unfold with_stderr. simpl.
  now rewrite Description.append_empty.
Qed.

Lemma with_stderr_twice (w : World) (e1 e2 : string) :
  with_stderr (with_stderr w e1) e2 = with_stderr w (e1 ++ e2).
Proof.
  unfold with_stderr. simpl. now rewrite Description.append_assoc.
Qed.

Lemma stderr_only_ret {A : Type} (a : A) : stderr_only (ret a).
Proof. intros w. unfold ret. simpl. now rewrite with_stderr_empty. Qed.

Lemma stderr_only_eprintf (text : string) : stderr_only (eprintf text).
Proof. intros w. reflexivity. Qed.

Lemma stderr_only_bind {A B : Type} (m : IO A) (k : A -> IO B) :
  stderr_only m -> (forall a, stderr_only (k a)) -> stderr_only (bind m k).
Proof.
  intros Hm Hk w. unfold bind.
  pose proof (Hm w) as Hw. pose proof (Hm silent) as Hs.
  destruct (m silent) as [a w1]. cbn [fst snd] in Hw, Hs.
  rewrite Hw. injection Hs as Hs.
  remember (w_stderr w1) as e1 eqn:He1. clear He1. subst w1.
  rewrite (Hk a (with_stderr w e1)), (Hk a (with_stderr silent e1)).
  cbn [fst snd]. rewrite with_stderr_twice.
  unfold with_stderr, silent. simpl. reflexivity.
Qed.

Ltac stderr_only_steps :=
  repeat first
    [ apply stderr_only_ret
    | apply stderr_only_eprintf
    | apply stderr_only_bind; [| intros ? ]
    | match goal with
      | |- stderr_only (if ?b then _ else _) => destruct b
      | |- stderr_only (match ?x with Some _ => _ | None => _ end) => destruct x
      | |- stderr_only (match ?x with (_, _) => _ end) => destruct x
      end ].

Lemma stderr_only_parse_building (line : string) (line_num : Z) :
  stderr_only (parse_building_line line line_num).
Proof.
  unfold parse_building_line.
  destruct (sscanf line _) as [n args]. stderr_only_steps.
Qed.

Lemma stderr_only_parse_antenna (line : string) (line_num : Z) :
  stderr_only (parse_antenna_line line line_num).
Proof.
  unfold parse_antenna_line.
  destruct (sscanf line _) as [n args]. stderr_only_steps.
Qed.

Lemma stderr_only_process_building (scene : Scene) (line : string) (line_num : Z) :
  stderr_only (process_building scene line line_num).
Proof.
  unfold process_building.
  apply stderr_only_bind; [apply stderr_only_parse_building |].
  intros [b |]; stderr_only_steps.
Qed.

Lemma stderr_only_process_antenna (scene : Scene) (line : string) (line_num : Z) :
  stderr_only (process_antenna scene line line_num).
Proof.
  unfold process_antenna.
  apply stderr_only_bind; [apply stderr_only_parse_antenna |].
  intros [a |]; stderr_only_steps.
Qed.

Lemma stderr_only_process_line (scene : Scene) (line : string) (line_num : Z) :
  stderr_only (process_line scene line line_num).
Proof.
  unfold process_line, print_error_line.
  destruct (sscanf line _) as [n args].
  destruct (negb (n =? 1)); [stderr_only_steps |].
  destruct (strcmp (arg 0 args) "building" =? 0);
    [apply stderr_only_process_building |].
  destruct (strcmp (arg 0 args) "antenna" =? 0);
    [apply stderr_only_process_antenna |].
  stderr_only_steps.
Qed.

End Diagnostics.

(** ** The scene reader *)

Module Reader.

Import Description Diagnostics.

Lemma read_upto_append (n : nat) :
  forall s, (fst (read_upto n s) ++ snd (read_upto n s))%string = s.
Proof.
  induction n as [| n IH]; intros [| c r]; simpl; try reflexivity.
  destruct (Ascii.eqb c newline); simpl; [reflexivity |].
  specialize (IH r). destruct (read_upto n r) as [buf rest]. simpl in *.
  now rewrite IH.
Qed.

Lemma read_upto_shorter (n : nat) :
  forall c r,
    (String.length (snd (read_upto (S n) (String c r))) <= String.length r)%nat.
Proof.
  induction n as [| n IH]; intros c r; simpl.
  - destruct (Ascii.eqb c newline); simpl; [lia |].
    destruct r; simpl; lia.
  - destruct (Ascii.eqb c newline); simpl; [lia |].
    destruct r as [| c' r']; simpl; [lia |].
    specialize (IH c' r'). simpl in IH.
    destruct (Ascii.eqb c' newline); simpl in *; [lia |].
    destruct (read_upto n r') as [buf rest]. simpl in *. lia.
Qed.

Lemma buffers_enough (f1 : nat) :
  forall f2 s,
    (String.length s <= f1)%nat -> (String.length s <= f2)%nat ->
    buffers f1 s = buffers f2 s.
Proof.
  induction f1 as [| f1 IH]; intros f2 s H1 H2.
  - destruct s; simpl in H1; [| lia]. destruct f2; reflexivity.
  - destruct s as [| c r]; [destruct f2; reflexivity |].
    destruct f2 as [| f2]; simpl in H1, H2; [lia |].
    cbn [buffers].
    pose proof (read_upto_shorter (MAX_LINE_LENGTH - 2) c r) as Hlen.
    change (S (MAX_LINE_LENGTH - 2)) with (MAX_LINE_LENGTH - 1)%nat in Hlen.
    destruct (read_upto (MAX_LINE_LENGTH - 1) (String c r)) as [buf rest].
    simpl in Hlen. f_equal. apply IH; lia.
Qed.

Lemma lines_read_cons (c : ascii) (r : string) :
  lines_read (String c r)
  = fst (read_upto (MAX_LINE_LENGTH - 1) (String c r))
    :: lines_read (snd (read_upto (MAX_LINE_LENGTH - 1) (String c r))).
Proof.
  unfold lines_read. cbn [String.length buffers].
  pose proof (read_upto_shorter (MAX_LINE_LENGTH - 2) c r) as Hlen.
  change (S (MAX_LINE_LENGTH - 2)) with (MAX_LINE_LENGTH - 1)%nat in Hlen.
  destruct (read_upto (MAX_LINE_LENGTH - 1) (String c r)) as [buf rest].
  simpl in Hlen. cbn [fst snd]. f_equal. apply buffers_enough; lia.
Qed.

(** The buffers, put end to end, are the stream. *)
Lemma texts_lines_read (s : string) : texts (lines_read s) = s.
Proof.
  remember (String.length s) as n eqn:Hn.
  revert s Hn. induction n as [n IH] using lt_wf_ind. intros s Hn.
  destruct s as [| c r]; [reflexivity |].
  rewrite lines_read_cons.
  pose proof (read_upto_shorter (MAX_LINE_LENGTH - 2) c r) as Hlen.
  change (S (MAX_LINE_LENGTH - 2)) with (MAX_LINE_LENGTH - 1)%nat in Hlen.
  pose proof (read_upto_append (MAX_LINE_LENGTH - 1) (String c r)) as Happ.
  destruct (read_upto (MAX_LINE_LENGTH - 1) (String c r)) as [buf rest].
  cbn [fst snd] in *.
  change (texts (buf :: lines_read rest))
    with (buf ++ texts (lines_read rest))%string.
  rewrite (IH (String.length rest)); [exact Happ | | reflexivity].
  subst n. cbn [String.length]. lia.
Qed.

Lemma fgets_empty (w : World) :
  w_stdin w = EmptyString -> fgets MAX_LINE_LENGTH w = (None, w).
Proof. intros H. unfold fgets. now rewrite H. Qed.

Lemma fgets_line (w : World) (c : ascii) (r : string) :
  w_stdin w = String c r ->
  fgets MAX_LINE_LENGTH w
  = (Some (fst (read_upto (MAX_LINE_LENGTH - 1) (String c r))),
     mkWorld (snd (read_upto (MAX_LINE_LENGTH - 1) (String c r)))
             (w_stdout w) (w_stderr w)).
Proof.
  intros H. unfold fgets. rewrite H.
  destruct (read_upto (MAX_LINE_LENGTH - 1) (String c r)). reflexivity.
Qed.

Lemma is_end_scene_eqb (line : string) :
  is_end_scene line = String.eqb line "end scene".
Proof.
  unfold is_end_scene. apply eq_true_iff_eq.
  now rewrite strcmp_eq, String.eqb_eq.
Qed.

Lemma is_begin_scene_eqb (line : string) :
  is_begin_scene line = String.eqb line "begin scene".
Proof.
  unfold is_begin_scene. apply eq_true_iff_eq.
  now rewrite strcmp_eq, String.eqb_eq.
Qed.

Lemma line_number_next (k : nat) :
  int_add (line_number k) 1 = line_number (S k).
Proof.
  unfold int_add, line_number, wrap_int. rewrite Nat2Z.inj_succ. unfold Z.succ.
  f_equal.
  replace ((Z.of_nat k + 2 ^ 31) mod 2 ^ 32 - 2 ^ 31 + 1 + 2 ^ 31)
    with ((Z.of_nat k + 2 ^ 31) mod 2 ^ 32 + 1) by lia.
  rewrite Zplus_mod_idemp_l. f_equal. lia.
Qed.

Lemma line_number_small (k : nat) :
  Z.of_nat k <= INT_MAX -> line_number k = Z.of_nat k.
Proof.
  intros H. apply wrap_int_small. unfold in_int, INT_MIN, INT_MAX in *. lia.
Qed.

Lemma process_line_verdict (scene : Scene) (line : string) (line_num : Z)
      (w : World) :
  process_line scene line line_num w
  = (fst (line_verdict scene line line_num),
     with_stderr w (snd (line_verdict scene line line_num))).
Proof.
  rewrite (stderr_only_process_line scene line line_num w).
  unfold line_verdict.
  destruct (process_line scene line line_num silent). reflexivity.
Qed.

(** The loop of [read_scene] follows the protocol, and has fuel enough. *)
Lemma read_lines_interior (fuel : nat) :
  forall (k : nat) (scene : Scene) (w : World),
    (String.length (w_stdin w) < fuel)%nat ->
    read_lines fuel scene (line_number k) w
    = let '(ok, scene', msg, unread) :=
        interior_spec k scene (lines_read (w_stdin w)) in
      (Some (ok, scene'),
       mkWorld (texts unread) (w_stdout w) (w_stderr w ++ msg)).
Proof.
  induction fuel as [| fuel IH]; intros k scene w Hfuel; [lia |].
  cbn [read_lines]. unfold bind at 1.
  destruct (w_stdin w) as [| c r] eqn:Ein.
  - rewrite (fgets_empty w Ein). cbn [lines_read String.length buffers interior_spec].
    unfold bind, eprintf, ret. rewrite Ein. reflexivity.
  - rewrite (fgets_line w c r Ein). rewrite lines_read_cons.
    pose proof (read_upto_shorter (MAX_LINE_LENGTH - 2) c r) as Hlen.
    change (S (MAX_LINE_LENGTH - 2)) with (MAX_LINE_LENGTH - 1)%nat in Hlen.
    destruct (read_upto (MAX_LINE_LENGTH - 1) (String c r)) as [buf rest].
    cbn [fst snd] in *. cbn [interior_spec].
    rewrite is_end_scene_eqb.
    destruct (String.eqb (chomp buf) "end scene").
    + unfold ret. rewrite texts_lines_read, append_empty. reflexivity.
    + unfold bind. rewrite process_line_verdict, line_number_next.
      destruct (line_verdict scene (chomp buf) (line_number (S k))) as [p msg].
      cbn [fst snd]. destruct p as [ok scene']. cbn [fst snd].
      destruct ok; cbn [negb].
      * rewrite IH by (simpl in *; lia). cbn [w_stdin w_stdout w_stderr with_stderr].
        destruct (interior_spec (S k) scene' (lines_read rest))
          as [[[ok' scene''] msgs] unread].
        now rewrite append_assoc.
      * unfold ret, with_stderr. cbn [w_stdin w_stdout w_stderr].
        now rewrite texts_lines_read.
Qed.

Lemma read_scene_protocol (scene : Scene) (w : World) :
  read_scene scene w
  = let '(ok, scene', msg, unread) := reader_spec scene (lines_read (w_stdin w)) in
    (Some (ok, scene'),
     mkWorld (texts unread) (w_stdout w) (w_stderr w ++ msg)).
Proof.
  unfold read_scene, bind.
  destruct (w_stdin w) as [| c r] eqn:Ein.
  - rewrite (fgets_empty w Ein). cbn. unfold ret.
    destruct w as [i o e]. simpl in *. subst i. now rewrite append_empty.
  - rewrite (fgets_line w c r Ein). rewrite lines_read_cons.
    destruct (read_upto (MAX_LINE_LENGTH - 1) (String c r)) as [buf rest].
    cbn [fst snd reader_spec]. rewrite is_begin_scene_eqb.
    destruct (String.eqb (chomp buf) "begin scene"); cbn [negb].
    + change 1 with (line_number 1).
      rewrite read_lines_interior by (simpl; lia). reflexivity.
    + unfold eprintf, ret. cbn [w_stdin w_stdout w_stderr].
      now rewrite texts_lines_read.
Qed.

Lemma then_status (m : IO unit) (s : Z) (w : World) :
  exists (status : Z) (w' : World), (m ;;; ret (Some s)) w = (Some status, w').
Proof. unfold bind, ret. destruct (m w) as [u w']. eauto. Qed.

(** The program always ends with a status: the loop of [read_scene] never
    runs out of fuel. *)
Lemma run_ends (argv : list string) (input : string) :
  exists (status : Z) (w : World), run argv input = (Some status, w).
Proof.
  unfold run, main.
  destruct (negb (List.length argv =? 2)%nat); [apply then_status |].
  destruct (strcmp (arg 1 argv) "help" =? 0); [apply then_status |].
  destruct (negb (is_valid_subcommand (arg 1 argv))); [apply then_status |].
  unfold bind at 1.
  destruct (read_scene init_scene (mkWorld input EmptyString EmptyString))
    as [r w1] eqn:E.
  rewrite read_scene_protocol in E.
  destruct (reader_spec init_scene _) as [[[ok scene] msg] unread].
  injection E as <- <-.
  destruct ok; [apply then_status | unfold ret; eauto].
Qed.

End Reader.

(** ** Streams of text lines *)

Module Text.

Import Description Reader.

Lemma read_upto_line (n : nat) :
  forall l rest,
    plain l = true -> (String.length l < n)%nat ->
    read_upto n (l ++ String newline rest)
    = ((l ++ String newline EmptyString)%string, rest).
Proof.
  induction n as [| n IH]; intros l rest Hp Hlen; [lia |].
  destruct l as [| c r]; simpl.
  - reflexivity.
  - simpl in Hp. apply andb_true_iff in Hp. destruct Hp as [Hc Hr].
    apply negb_true_iff, orb_false_iff in Hc. destruct Hc as [Hc _].
    rewrite Hc. rewrite (IH r rest Hr) by (simpl in Hlen; lia). reflexivity.
Qed.

Lemma chomp_line (l : string) :
  plain l = true -> chomp (l ++ String newline EmptyString) = l.
Proof.
  induction l as [| c r IH]; simpl; intros Hp; [reflexivity |].
  apply andb_true_iff in Hp. destruct Hp as [Hc Hr].
  apply negb_true_iff in Hc. rewrite Hc. now rewrite IH.
Qed.

(** The lines read from a stream of text lines are these lines. *)
Lemma lines_read_unlines (ls : list string) :
  Forall text_line ls -> map chomp (lines_read (unlines ls)) = ls.
Proof.
  induction ls as [| l ls IH]; intros H; [reflexivity |].
  inversion H as [| ? ? [Hp Hlen] Hrest]; subst.
  cbn [unlines].
  destruct (l ++ String newline (unlines ls))%string as [| c r] eqn:E.
  - destruct l; discriminate E.
  - rewrite lines_read_cons, <- E.
    rewrite (read_upto_line _ l (unlines ls) Hp)
      by (unfold MAX_LINE_LENGTH in *; lia).
    cbn [fst snd map]. rewrite (chomp_line l Hp), (IH Hrest). reflexivity.
Qed.

End Text.

(** C4.  [read_scene] follows the protocol of the specification on the
    lines it reads: it fails when the first line is not exactly
    [begin scene]; then it reads lines until one is exactly [end scene]
    (success), or the stream ends (failure, with the missing terminator
    diagnostic), or a line is refused by [process_line] (failure at once, the
    following lines left in the stream).  The lines are numbered from 1, the
    start marker being line 1.  For a stream of text lines that fit the line
    buffer, the lines read are these lines. *)
Theorem read_scene_follows_protocol :
  forall (scene : Scene) (w : World),
    read_scene scene w
    = (let '(ok, scene', msg, unread) :=
         reader_spec scene (lines_read (w_stdin w)) in
       (Some (ok, scene'),
        mkWorld (texts unread) (w_stdout w) (w_stderr w ++ msg)))
    /\ texts (lines_read (w_stdin w)) = w_stdin w
    /\ (forall ls : list string,
           Forall text_line ls ->
           map chomp (lines_read (unlines ls)) = ls)
    /\ (forall k : nat,
           Z.of_nat k <= INT_MAX -> line_number k = Z.of_nat k).
Proof.
  intros scene w.
  split; [apply Reader.read_scene_protocol |].
  split; [apply Reader.texts_lines_read |].
  split; [apply Text.lines_read_unlines | apply Reader.line_number_small].
Qed.

(** An instance: a stream of four lines, the third of
    which is not recognized: the reading stops there, with the number 3 in
    the diagnostic, and the fourth line is left in the stream. *)
Lemma read_scene_follows_protocol_witness :
  Forall text_line ["begin scene"; "antenna a1 5 5 3"; "tower"; "end scene"]
  /\ map chomp
       (lines_read
          (unlines ["begin scene"; "antenna a1 5 5 3"; "tower"; "end scene"]))
     = ["begin scene"; "antenna a1 5 5 3"; "tower"; "end scene"]
  /\ line_number 3 = 3
  /\ read_scene init_scene
       (mkWorld
          (unlines ["begin scene"; "antenna a1 5 5 3"; "tower"; "end scene"])
          EmptyString EmptyString)
     = (Some (false, mkScene [] [mkAntenna "a1" 5 5 3]),
        mkWorld ("end scene" ++ endl) EmptyString
          ("error: unrecognized line (line #3)" ++ endl)).
Proof.
  assert (Hls : Forall text_line
                  ["begin scene"; "antenna a1 5 5 3"; "tower"; "end scene"]).
  { repeat constructor; simpl; unfold MAX_LINE_LENGTH; lia. }
  destruct (read_scene_follows_protocol init_scene
              (mkWorld
                 (unlines
                    ["begin scene"; "antenna a1 5 5 3"; "tower"; "end scene"])
                 EmptyString EmptyString)) as (Hrun & _ & Hlines & Hnum).
  split; [exact Hls |].
  split; [exact (Hlines _ Hls) |].
  split; [apply (Hnum 3%nat); unfold INT_MAX; simpl; lia |].
  rewrite Hrun. vm_compute. reflexivity.
Defined.

(** ** Validated scenes *)

Module Validated.

Lemma NoDup_snoc {A : Type} (l : list A) (x : A) :
  NoDup l -> ~ In x l -> NoDup (l ++ [x]).
Proof.
  intros Hl Hx. apply (Permutation_NoDup (l := x :: l)).
  - apply Permutation_cons_append.
  - now constructor.
Qed.

Lemma fresh_building_id (scene : Scene) (id : string) :
  is_duplicate_building_id scene id = false ->
  ~ In id (map b_id (buildings scene)).
Proof.
  unfold is_duplicate_building_id. intros H Hin.
  apply in_map_iff in Hin. destruct Hin as (b & <- & Hb).
  assert (E : existsb (fun b0 => strcmp (b_id b0) (b_id b) =? 0)
                (buildings scene) = true).
  { apply existsb_exists. exists b. split; [exact Hb |].
    now apply strcmp_eq. }
  congruence.
Qed.

Lemma fresh_antenna_id (scene : Scene) (id : string) :
  is_duplicate_antenna_id scene id = false ->
  ~ In id (map a_id (antennas scene)).
Proof.
  intros H Hin. apply in_map_iff in Hin. destruct Hin as (a & <- & Ha).
  assert (E : is_duplicate_antenna_id scene (a_id a) = true).
  { apply Positions.is_duplicate_antenna_id_spec. now exists a. }
  congruence.
Qed.

Lemma process_building_unique (scene scene' : Scene) (line : string)
      (line_num : Z) (w w' : World) (ok : bool) :
  process_building scene line line_num w = ((ok, scene'), w') ->
  unique_ids scene -> unique_ids scene'.
Proof.
  unfold process_building, bind.
  destruct (parse_building_line line line_num w) as [[b |] w1].
  - destruct (is_duplicate_building_id scene (b_id b)) eqn:Edup.
    + unfold eprintf, ret. intros H. injection H as _ <- _. auto.
    + destruct (find _ (buildings scene)).
      * unfold eprintf, ret. intros H. injection H as _ <- _. auto.
      * unfold ret. intros H. injection H as _ <- _. intros [Hb Ha].
        split; [| exact Ha]. cbn [buildings]. rewrite map_app. simpl.
        apply NoDup_snoc; [exact Hb | now apply fresh_building_id].
  - unfold ret. intros H. injection H as _ <- _. auto.
Qed.

Lemma process_antenna_unique (scene scene' : Scene) (line : string)
      (line_num : Z) (w w' : World) (ok : bool) :
  process_antenna scene line line_num w = ((ok, scene'), w') ->
  unique_ids scene -> unique_ids scene'.
Proof.
  unfold process_antenna, bind.
  destruct (parse_antenna_line line line_num w) as [[a |] w1].
  - destruct (is_duplicate_antenna_id scene (a_id a)) eqn:Edup.
    + unfold eprintf, ret. intros H. injection H as _ <- _. auto.
    + assert (Hu : unique_ids scene ->
                   unique_ids (mkScene (buildings scene) (antennas scene ++ [a]))).
      { intros [Hb Ha]. split; [exact Hb |]. cbn [antennas].
        rewrite map_app. simpl.
        apply NoDup_snoc; [exact Ha | now apply fresh_antenna_id]. }
      destruct (check_antenna_positions _) as [[id1 id2] |].
      * unfold eprintf, ret. intros H. injection H as _ <- _. exact Hu.
      * unfold ret. intros H. injection H as _ <- _. exact Hu.
  - unfold ret. intros H. injection H as _ <- _. auto.
Qed.

Lemma process_line_unique (scene scene' : Scene) (line : string)
      (line_num : Z) (w w' : World) (ok : bool) :
  process_line scene line line_num w = ((ok, scene'), w') ->
  unique_ids scene -> unique_ids scene'.
Proof.
  unfold process_line, print_error_line.
  destruct (sscanf line _) as [n args].
  destruct (negb (n =? 1)).
  { unfold bind, eprintf, ret. intros H. injection H as _ <- _. auto. }
  destruct (strcmp (arg 0 args) "building" =? 0);
    [apply process_building_unique |].
  destruct (strcmp (arg 0 args) "antenna" =? 0);
    [apply process_antenna_unique |].
  unfold bind, eprintf, ret. intros H. injection H as _ <- _. auto.
Qed.

Lemma interior_unique (raw : list string) :
  forall k scene,
    unique_ids scene ->
    unique_ids (snd (fst (fst (interior_spec k scene raw)))).
Proof.
  induction raw as [| buf rest IH]; intros k scene Hu; cbn [interior_spec].
  - exact Hu.
  - destruct (String.eqb (chomp buf) "end scene"); [exact Hu |].
    unfold line_verdict.
    destruct (process_line scene (chomp buf) (line_number (S k)) silent)
      as [[ok scene'] w'] eqn:E.
    pose proof (process_line_unique _ _ _ _ _ _ _ E Hu) as Hu'.
    cbn [fst snd]. destruct ok; [| exact Hu'].
    specialize (IH (S k) scene' Hu').
    destruct (interior_spec (S k) scene' rest) as [[[ok' scene''] msgs] unread].
    exact IH.
Qed.

(** Every scene [read_scene] leaves behind, starting from the empty scene,
    has identifiers all different within each group. *)
Lemma read_scene_unique (w w' : World) (ok : bool) (scene : Scene) :
  read_scene init_scene w = (Some (ok, scene), w') -> unique_ids scene.
Proof.
  rewrite Reader.read_scene_protocol.
  assert (Hinit : unique_ids init_scene) by (split; constructor).
  assert (Hp : unique_ids
                 (snd (fst (fst (reader_spec init_scene
                                   (lines_read (w_stdin w))))))).
  { unfold reader_spec.
    destruct (lines_read (w_stdin w)) as [| buf rest]; [exact Hinit |].
    destruct (String.eqb (chomp buf) "begin scene"); [| exact Hinit].
    now apply interior_unique. }
  destruct (reader_spec init_scene (lines_read (w_stdin w)))
    as [[[ok' scene'] msg] unread].
  intros H. injection H as _ <- _. exact Hp.
Qed.

End Validated.

Module Listing.

Import Description.

Lemma writes_building_named (scene : Scene) (id : string) :
  writes (print_building_named scene id)
    (texts (map building_text (first_named Building b_id (buildings scene) id))).
Proof.
  unfold print_building_named, first_named.
  destruct (find _ (buildings scene)) as [b |]; simpl.
  - rewrite append_empty. apply writes_printf.
  - apply writes_ret.
Qed.

Lemma writes_antenna_named (scene : Scene) (id : string) :
  writes (print_antenna_named scene id)
    (texts (map antenna_text (first_named Antenna a_id (antennas scene) id))).
Proof.
  unfold print_antenna_named, first_named.
  destruct (find _ (antennas scene)) as [a |]; simpl.
  - rewrite append_empty. apply writes_printf.
  - apply writes_ret.
Qed.

Lemma writes_print_description (scene : Scene) :
  writes (print_description scene)
    (summary_text scene
     ++ texts (map building_text (buildings_listed scene))
     ++ texts (map antenna_text (antennas_listed scene))).
Proof.
  unfold print_description, buildings_listed, antennas_listed. cbv zeta.
  apply writes_seq; [apply writes_print_summary |].
  apply writes_seq.
  - rewrite <- Lookup.texts_flat_map.
    apply (writes_for_each (print_building_named scene)
             (fun id => texts (map building_text
                                 (first_named Building b_id (buildings scene) id)))).
    apply writes_building_named.
  - rewrite <- Lookup.texts_flat_map.
    apply (writes_for_each (print_antenna_named scene)
             (fun id => texts (map antenna_text
                                 (first_named Antenna a_id (antennas scene) id)))).
    apply writes_antenna_named.
Qed.

End Listing.


(** ** Failures and their diagnostics *)

Module Reported.

Import Reader.

Lemma append_nonempty (s1 s2 : string) :
  s2 <> EmptyString -> (s1 ++ s2)%string <> EmptyString.
Proof. destruct s1; simpl; [auto | discriminate]. Qed.

Ltac split_ifs :=
  repeat match goal with
         | |- context [if ?b then _ else _] => destruct b
         end.

(** A branch that prints a diagnostic and returns, or returns a good
    value. *)
Ltac branch_reported :=
  let H := fresh in
  let B := fresh in
  unfold bind, eprintf, ret; intros ? ? ? H B;
  injection H as <- <-;
  first [ discriminate B
        | cbn [w_stderr]; apply append_nonempty; discriminate ].

Lemma parse_building_reported (line : string) (line_num : Z) :
  reported (parse_building_line line line_num) (fun r => r = None).
Proof.
  unfold parse_building_line, reported.
  destruct (sscanf line _) as [n args]. split_ifs; branch_reported.
Qed.

Lemma parse_antenna_reported (line : string) (line_num : Z) :
  reported (parse_antenna_line line line_num) (fun r => r = None).
Proof.
  unfold parse_antenna_line, reported.
  destruct (sscanf line _) as [n args]. split_ifs; branch_reported.
Qed.

Lemma process_building_reported (scene : Scene) (line : string) (line_num : Z) :
  reported (process_building scene line line_num) (fun r => fst r = false).
Proof.
  unfold process_building. intros w r w'. unfold bind at 1.
  pose proof (parse_building_reported line line_num w) as Hp.
  destruct (parse_building_line line line_num w) as [[b |] w1].
  - clear Hp. revert w1 r w'.
    destruct (is_duplicate_building_id scene (b_id b)); [branch_reported |].
    destruct (find _ (buildings scene)); branch_reported.
  - unfold ret. intros H _. injection H as _ <-. now apply (Hp None w1).
Qed.

Lemma process_antenna_reported (scene : Scene) (line : string) (line_num : Z) :
  reported (process_antenna scene line line_num) (fun r => fst r = false).
Proof.
  unfold process_antenna. intros w r w'. unfold bind at 1.
  pose proof (parse_antenna_reported line line_num w) as Hp.
  destruct (parse_antenna_line line line_num w) as [[a |] w1].
  - clear Hp. revert w1 r w'.
    destruct (is_duplicate_antenna_id scene (a_id a)); [branch_reported |].
    destruct (check_antenna_positions _) as [[id1 id2] |]; branch_reported.
  - unfold ret. intros H _. injection H as _ <-. now apply (Hp None w1).
Qed.

Lemma process_line_reported (scene : Scene) (line : string) (line_num : Z) :
  reported (process_line scene line line_num) (fun r => fst r = false).
Proof.
  unfold process_line, print_error_line.
  destruct (sscanf line _) as [n args].
  destruct (negb (n =? 1)); [unfold reported; branch_reported |].
  destruct (strcmp (arg 0 args) "building" =? 0);
    [apply process_building_reported |].
  destruct (strcmp (arg 0 args) "antenna" =? 0);
    [apply process_antenna_reported |].
  unfold reported; branch_reported.
Qed.

(** A line that is refused is refused with a diagnostic. *)
Lemma refused_line_reported (scene : Scene) (line : string) (line_num : Z) :
  fst (fst (line_verdict scene line line_num)) = false ->
  snd (line_verdict scene line line_num) <> EmptyString.
Proof.
  unfold line_verdict.
  pose proof (process_line_reported scene line line_num silent) as H.
  destruct (process_line scene line line_num silent) as [r w].
  cbn [fst snd]. intros Hr. exact (H r w eq_refl Hr).
Qed.

Lemma interior_failure_reported (raw : list string) :
  forall k scene,
    fst (fst (fst (interior_spec k scene raw))) = false ->
    snd (fst (interior_spec k scene raw)) <> EmptyString.
Proof.
  induction raw as [| buf rest IH]; intros k scene; cbn [interior_spec].
  - intros _. discriminate.
  - destruct (String.eqb (chomp buf) "end scene"); [discriminate |].
    pose proof (refused_line_reported scene (chomp buf) (line_number (S k))) as Hr.
    destruct (line_verdict scene (chomp buf) (line_number (S k))) as [[ok scene'] msg].
    cbn [fst snd] in *. destruct ok.
    + specialize (IH (S k) scene').
      destruct (interior_spec (S k) scene' rest) as [[[ok' scene''] msgs] unread].
      cbn [fst snd] in *. intros H. apply append_nonempty. now apply IH.
    + cbn [fst snd]. exact Hr.
Qed.

(** On a stream that is not empty, a failure of [read_scene] comes with a
    diagnostic on the error channel. *)
Lemma read_scene_failure_reported (scene scene' : Scene) (w w' : World) :
  w_stdin w <> EmptyString ->
  read_scene scene w = (Some (false, scene'), w') ->
  exists msg, msg <> EmptyString /\ w_stderr w' = (w_stderr w ++ msg)%string.
Proof.
  intros Hin. rewrite read_scene_protocol.
  destruct (w_stdin w) as [| c r] eqn:E; [congruence |].
  rewrite lines_read_cons. cbn [reader_spec].
  destruct (String.eqb (chomp _) "begin scene").
  - pose proof (interior_failure_reported
                  (lines_read (snd (read_upto (MAX_LINE_LENGTH - 1) (String c r))))
                  1 scene) as Hf.
    destruct (interior_spec 1 scene _) as [[[ok sc] msg] unread].
    cbn [fst snd] in Hf. intros H. injection H as -> _ <-.
    exists msg. split; [now apply Hf | reflexivity].
  - intros H. injection H as _ <-.
    exists msg_first_line. split; [discriminate | reflexivity].
Qed.

End Reported.

(** C5, at the empty stream.  [read_scene] returns false without a word on
    the error channel, and the program ends with the status [ERROR] having
    printed nothing. *)
Theorem read_scene_empty_stream_silent :
  forall (scene : Scene) (out err : string),
    read_scene scene (mkWorld EmptyString out err)
    = (Some (false, scene), mkWorld EmptyString out err)
    /\ run ["kover"; "summarize"] EmptyString = (Some ERROR, silent).
Proof.
  intros scene out err. split; reflexivity.
Qed.

(** * Further properties *)

(** ** Identifiers and positive integers *)

Module Words.

Lemma isalpha_spec (c : ascii) : isalpha c = true <-> ascii_letter c.
Proof.
  unfold ascii_letter.
  destruct c as [[] [] [] [] [] [] [] []]; vm_compute;
    split; intro H; try reflexivity; try discriminate;
    try (repeat (destruct H as [H | H]; [discriminate H |]); contradiction);
    repeat (try (left; reflexivity); right).
Qed.

Lemma underscore_spec (c : ascii) : Ascii.eqb c "_"%char = true <-> c = "_"%char.
Proof. apply Ascii.eqb_eq. Qed.

Lemma first_char_spec (c : ascii) :
  is_valid_id_char c true = true <-> ascii_letter c \/ c = "_"%char.
Proof.
  unfold is_valid_id_char.
  now rewrite orb_true_iff, isalpha_spec, underscore_spec.
Qed.

Lemma next_char_spec (c : ascii) :
  is_valid_id_char c false = true
  <-> ascii_letter c \/ ascii_digit c \/ c = "_"%char.
Proof.
  unfold is_valid_id_char, isalnum.
  rewrite !orb_true_iff, isalpha_spec, Lexical.isdigit_spec, underscore_spec.
  tauto.
Qed.

Lemma valid_id_tail_spec (s : string) : valid_id_tail s = true <-> word_chars s.
Proof.
  induction s as [| c r IH]; cbn [valid_id_tail word_chars]; [tauto |].
  pose proof (next_char_spec c) as Hc.
  destruct (is_valid_id_char c false); cbn [negb].
  - rewrite IH. split; [intros H; split; [now apply Hc | exact H] | tauto].
  - split; [discriminate |]. intros [H _]. apply Hc in H. discriminate H.
Qed.

End Words.

(** X1.  [is_valid_id] accepts exactly the strings made of a letter or an
    underscore followed by letters, digits and underscores; the empty string
    and a string that starts with a digit are refused. *)
Theorem is_valid_id_identifier :
  forall s : string, is_valid_id s = true <-> identifier s.
Proof.
  intros s. unfold identifier. destruct s as [| c r]; cbn [is_valid_id].
  - split; [discriminate | intros (c & r & H & _); discriminate H].
  - pose proof (Words.first_char_spec c) as Hc.
    pose proof (Words.valid_id_tail_spec r) as Hr.
    destruct (is_valid_id_char c true); cbn [negb].
    + split.
      * intros H. exists c, r. split; [reflexivity |]. split; [| now apply Hr].
        now apply Hc.
      * intros (c' & r' & E & _ & Hw). injection E as <- <-. now apply Hr.
    + split; [discriminate |].
      intros (c' & r' & E & Hf & _). injection E as <- <-.
      apply Hc in Hf. discriminate Hf.
Qed.

(** X2.  [is_valid_positive_integer] accepts exactly the non-empty runs of
    digits that do not start with a zero; every string it accepts is accepted
    by [is_valid_integer] as well. *)
Theorem is_valid_positive_integer_numeral :
  forall s : string,
    (is_valid_positive_integer s = true <-> positive_numeral s)
    /\ (is_valid_positive_integer s = true -> is_valid_integer s = true).
Proof.
  intros s. unfold positive_numeral. destruct s as [| c r].
  - split; [| discriminate].
    split; [discriminate | intros (c & r & H & _); discriminate H].
  - cbn [is_valid_positive_integer is_valid_integer].
    pose proof (Lexical.all_digits_spec (String c r)) as Hd. simpl in Hd.
    destruct (Ascii.eqb_spec c "-"%char) as [-> | Hm]; simpl.
    { split; [| discriminate]. split; [discriminate |].
      intros (c' & r' & E & Hc & _). injection E as <- <-.
      apply Lexical.digit_not_minus in Hc. congruence. }
    destruct (Ascii.eqb_spec c "0"%char) as [-> | Hz]; simpl.
    { split; [| discriminate]. split; [discriminate |].
      intros (c' & r' & E & _ & Hc & _). injection E as <- <-. congruence. }
    split; [| auto].
    split.
    + intros H. apply Hd in H. exists c, r. tauto.
    + intros (c' & r' & E & Hc & _ & Hr). injection E as <- <-.
      apply Hd. tauto.
Qed.

(** An instance: the radius "12". *)
Lemma is_valid_positive_integer_numeral_witness :
  is_valid_positive_integer "12" = true /\ is_valid_integer "12" = true.
Proof.
  split; [reflexivity |].
  exact (proj2 (is_valid_positive_integer_numeral "12") eq_refl).
Defined.

(** ** Numbers and their decimal texts *)

Module Numbers.

Lemma digit_chars (d : Decimal.uint) : only_digits (NilEmpty.string_of_uint d).
Proof.
  induction d; simpl; (split; [| assumption]) || exact I;
    unfold ascii_digit; simpl; tauto.
Qed.

(** The loop of [strtol] on the digits of [d], from a positive
    accumulator. *)
Lemma digits_value_acc (d : Decimal.uint) :
  forall acc : positive,
    digits_value (NilEmpty.string_of_uint d) (Z.pos acc)
    = Z.pos (Pos.of_uint_acc d acc).
Proof.
  induction d; intros acc; cbn [NilEmpty.string_of_uint Pos.of_uint_acc];
    [reflexivity | ..];
    cbn [digits_value];
    match goal with
    | |- (if isdigit ?c then _ else _) = _ =>
        change (isdigit c) with true; cbv iota
    end;
    match goal with
    | |- digits_value _ ?a = Z.pos (Pos.of_uint_acc _ ?b) =>
        replace a with (Z.pos b) by (vm_compute code; lia)
    end;
    apply IHd.
Qed.

Lemma digits_value_uint (d : Decimal.uint) :
  digits_value (NilEmpty.string_of_uint d) 0 = Z.of_N (Pos.of_uint d).
Proof.
  induction d; cbn [NilEmpty.string_of_uint Pos.of_uint];
    [reflexivity | exact IHd | ..];
    cbn [digits_value];
    match goal with
    | |- (if isdigit ?c then _ else _) = _ =>
        change (isdigit c) with true; cbv iota
    end;
    match goal with
    | |- digits_value _ ?a = Z.of_N (N.pos (Pos.of_uint_acc _ ?b)) =>
        replace a with (Z.pos b) by (vm_compute; reflexivity)
    end;
    apply digits_value_acc.
Qed.

(** A run of digits is the text of a decimal number. *)
Lemma digits_uint (s : string) :
  only_digits s -> exists d, NilEmpty.string_of_uint d = s.
Proof.
  induction s as [| c r IH]; simpl.
  - intros _. exists Decimal.Nil. reflexivity.
  - intros [Hc Hr]. destruct (IH Hr) as [d <-].
    unfold ascii_digit in Hc. simpl in Hc.
    destruct Hc as [<- | [<- | [<- | [<- | [<- | [<- | [<- | [<- | [<- | [<- | []]]]]]]]]]].
    + now exists (Decimal.D0 d).
    + now exists (Decimal.D1 d).
    + now exists (Decimal.D2 d).
    + now exists (Decimal.D3 d).
    + now exists (Decimal.D4 d).
    + now exists (Decimal.D5 d).
    + now exists (Decimal.D6 d).
    + now exists (Decimal.D7 d).
    + now exists (Decimal.D8 d).
    + now exists (Decimal.D9 d).
Qed.

Lemma nzhead_not_zero (d d' : Decimal.uint) :
  Decimal.nzhead d <> Decimal.D0 d'.
Proof. induction d; simpl; try discriminate. exact IHd. Qed.

(** A normalized number starts with a zero only if it is zero. *)
Lemma unorm_zero (d d' : Decimal.uint) :
  Decimal.unorm d = Decimal.D0 d' -> d' = Decimal.Nil.
Proof.
  unfold Decimal.unorm.
  destruct (Decimal.nzhead d) eqn:E; intros H;
    try discriminate H.
  - injection H as <-. reflexivity.
  - exfalso. exact (nzhead_not_zero d _ E).
Qed.

Lemma to_uint_unorm (p : positive) :
  Decimal.unorm (Pos.to_uint p) = Pos.to_uint p.
Proof.
  rewrite <- (Unsigned.to_of (Pos.to_uint p)), Unsigned.of_to. reflexivity.
Qed.

(** The text of a positive number: a digit other than zero, then digits. *)
Lemma to_uint_text (p : positive) :
  exists c r,
    NilZero.string_of_uint (Pos.to_uint p) = String c r
    /\ NilEmpty.string_of_uint (Pos.to_uint p) = String c r
    /\ ascii_digit c /\ c <> "0"%char /\ only_digits r.
Proof.
  pose proof (to_uint_unorm p) as Hn.
  pose proof (Unsigned.to_uint_nonzero p) as Hz.
  pose proof (Unsigned.to_uint_nonnil p) as Hnil.
  pose proof (digit_chars (Pos.to_uint p)) as Hd.
  destruct (Pos.to_uint p) as [| d | d | d | d | d | d | d | d | d | d];
    try (eexists; eexists; split; [reflexivity |]; split; [reflexivity |];
         split; [apply Hd |]; split; [discriminate | apply Hd]).
  - congruence.
  - exfalso. apply Hz. rewrite (unorm_zero _ _ Hn). reflexivity.
Qed.

End Numbers.

Module Conversions.

Import Numbers.

Lemma strtol_digits (c : ascii) (r : string) :
  ascii_digit c ->
  strtol (String c r) = clamp_long (digits_value (String c r) 0).
Proof.
  unfold ascii_digit. simpl In.
  intros [<- | [<- | [<- | [<- | [<- | [<- | [<- | [<- | [<- | [<- | []]]]]]]]]]];
    reflexivity.
Qed.

Lemma strtol_minus (r : string) :
  strtol (String "-" r) = clamp_long (- digits_value r 0).
Proof. reflexivity. Qed.

Lemma clamp_long_int (z : Z) : in_int z -> clamp_long z = z.
Proof. unfold in_int, INT_MIN, INT_MAX, clamp_long, LONG_MIN, LONG_MAX. lia. Qed.

(** A clamped value that fits an [int] was not clamped. *)
Lemma clamp_long_fits (z : Z) : in_int (clamp_long z) -> clamp_long z = z.
Proof. unfold in_int, INT_MIN, INT_MAX, clamp_long, LONG_MIN, LONG_MAX. lia. Qed.

Lemma fmt_d_natural (n : N) :
  fmt_d (Z.of_N n) = NilZero.string_of_uint (N.to_uint n).
Proof. destruct n; reflexivity. Qed.

Lemma fmt_d_negative (q : positive) :
  fmt_d (Z.neg q) = String "-" (NilZero.string_of_uint (Pos.to_uint q)).
Proof. reflexivity. Qed.

(** A run of digits without a leading zero is the text of the number it
    denotes. *)
Lemma digits_text (ds : string) :
  only_digits ds -> ds <> EmptyString ->
  (forall r, ds = String "0" r -> r = EmptyString) ->
  exists d,
    NilEmpty.string_of_uint d = ds
    /\ NilZero.string_of_uint d = ds
    /\ N.to_uint (Pos.of_uint d) = d.
Proof.
  intros Hd Hne Hlead. destruct (digits_uint ds Hd) as [d <-].
  exists d. split; [reflexivity |].
  split; [destruct d; [exfalso; apply Hne; reflexivity | reflexivity ..] |].
  rewrite Unsigned.to_of.
  destruct d as [| d | d | d | d | d | d | d | d | d | d]; try reflexivity.
  - exfalso. apply Hne. reflexivity.
  - specialize (Hlead (NilEmpty.string_of_uint d) eq_refl).
    destruct d; try discriminate Hlead. reflexivity.
Qed.

End Conversions.

(** The numerals of the reports are those [printf] writes. *)

Module Decimals.

Import Numbers.

Lemma digit_char_spec (d : Z) :
  0 <= d < 10 ->
  isdigit (digit_char d) = true
  /\ code (digit_char d) - 48 = d
  /\ ascii_digit (digit_char d)
  /\ (digit_char d = "0"%char -> d = 0).
Proof.
  intros H.
  assert (C : d = 0 \/ d = 1 \/ d = 2 \/ d = 3 \/ d = 4 \/ d = 5 \/ d = 6
              \/ d = 7 \/ d = 8 \/ d = 9) by lia.
  destruct C as [-> | [-> | [-> | [-> | [-> | [-> | [-> | [-> | [-> | ->]]]]]]]]];
    (split; [reflexivity |]); (split; [reflexivity |]);
    (split; [unfold ascii_digit; simpl; auto 15 |]);
    first [reflexivity | discriminate | auto].
Qed.

Lemma natural_digits_tail (fuel : nat) :
  forall n tail,
    natural_digits fuel n tail
    = (natural_digits fuel n EmptyString ++ tail)%string.
Proof.
  induction fuel as [| fuel IH]; intros n tail; cbn [natural_digits].
  - reflexivity.
  - destruct (n <? 10); [reflexivity |].
    rewrite (IH (n / 10) (String (digit_char (n mod 10)) tail)).
    rewrite (IH (n / 10) (String (digit_char (n mod 10)) EmptyString)).
    now rewrite Description.append_assoc.
Qed.

Lemma only_digits_app (s1 s2 : string) :
  only_digits s1 -> only_digits s2 -> only_digits (s1 ++ s2).
Proof.
  induction s1 as [| c r IH]; simpl; [tauto |].
  intros [Hc Hr] H2. split; [exact Hc | now apply IH].
Qed.

Lemma isdigit_ascii_digit (c : ascii) : ascii_digit c -> isdigit c = true.
Proof.
  unfold ascii_digit. simpl.
  intros [<- | [<- | [<- | [<- | [<- | [<- | [<- | [<- | [<- | [<- | []]]]]]]]]]];
    reflexivity.
Qed.

(** The loop of [strtol] goes through a run of digits. *)
Lemma digits_value_app (s1 s2 : string) :
  only_digits s1 ->
  forall acc, digits_value (s1 ++ s2) acc = digits_value s2 (digits_value s1 acc).
Proof.
  induction s1 as [| c r IH]; simpl; [reflexivity |].
  intros [Hc Hr] acc. rewrite (isdigit_ascii_digit c Hc). now apply IH.
Qed.

(** The digits written for [n]: a numeral without a leading zero whose
    value is [n]. *)
Lemma natural_digits_spec (fuel : nat) :
  forall n,
    0 <= n < 2 ^ Z.of_nat (S fuel) ->
    only_digits (natural_digits (S fuel) n EmptyString)
    /\ digits_value (natural_digits (S fuel) n EmptyString) 0 = n
    /\ exists c r,
        natural_digits (S fuel) n EmptyString = String c r
        /\ (c = "0"%char -> n = 0 /\ r = EmptyString).
Proof.
  induction fuel as [| fuel IH]; intros n Hn.
  - assert (Hd : 0 <= n < 10) by (change (2 ^ Z.of_nat 1) with 2 in Hn; lia).
    cbn [natural_digits].
    replace (n <? 10) with true by (symmetry; apply Z.ltb_lt; lia).
    rewrite Z.mod_small by lia.
    destruct (digit_char_spec n Hd) as (H1 & H2 & H3 & H4).
    split; [simpl; auto |]. split.
    + cbn [digits_value]. rewrite H1. cbn [digits_value]. lia.
    + exists (digit_char n), EmptyString. split; [reflexivity |]. auto.
  - remember (S fuel) as f eqn:Ef.
    cbn [natural_digits].
    assert (Hm : 0 <= n mod 10 < 10) by (apply Z.mod_pos_bound; lia).
    destruct (digit_char_spec (n mod 10) Hm) as (H1 & H2 & H3 & H4).
    destruct (Z.ltb_spec n 10) as [Hlt | Hge].
    + rewrite Z.mod_small in * by lia.
      split; [simpl; auto |]. split.
      * cbn [digits_value]. rewrite H1. cbn [digits_value]. lia.
      * exists (digit_char n), EmptyString. split; [reflexivity |]. auto.
    + assert (Hq : 0 <= n / 10 < 2 ^ Z.of_nat f).
      { split; [apply Z.div_pos; lia |].
        apply Z.div_lt_upper_bound; [lia |].
        rewrite Nat2Z.inj_succ, Z.pow_succ_r in Hn by lia. lia. }
      subst f. destruct (IH (n / 10) Hq) as (I1 & I2 & c & r & I3 & I4).
      rewrite natural_digits_tail.
      split; [apply only_digits_app; [exact I1 | simpl; auto] |]. split.
      * rewrite digits_value_app by exact I1. rewrite I2.
        cbn [digits_value]. rewrite H1. cbn [digits_value].
        rewrite H2. pose proof (Z.div_mod n 10). lia.
      * exists c, (r ++ String (digit_char (n mod 10)) EmptyString)%string.
        rewrite I3. split; [reflexivity |].
        intros Hc. destruct (I4 Hc) as [Hz _].
        assert (1 <= n / 10) by (apply Z.div_le_lower_bound; lia). lia.
Qed.

(** The digits written for a positive number are those [printf] writes. *)
Lemma natural_digits_positive (p : positive) :
  natural_digits (S (Z.to_nat (Z.log2 (Z.pos p)))) (Z.pos p) EmptyString
  = NilZero.string_of_uint (Pos.to_uint p).
Proof.
  assert (Hn : 0 <= Z.pos p < 2 ^ Z.of_nat (S (Z.to_nat (Z.log2 (Z.pos p))))).
  { split; [lia |].
    rewrite Nat2Z.inj_succ, Z2Nat.id by apply Z.log2_nonneg.
    apply Z.log2_spec. lia. }
  destruct (natural_digits_spec _ _ Hn) as (H1 & H2 & c & r & H3 & H4).
  set (s := natural_digits _ _ _) in *.
  destruct (Conversions.digits_text s H1) as (d & E1 & E2 & E3).
  { rewrite H3. discriminate. }
  { intros r' E. rewrite H3 in E. injection E as Ec Er.
    destruct (H4 Ec) as [Hz _]. discriminate Hz. }
  rewrite <- E1 in H2. rewrite digits_value_uint in H2.
  assert (Ep : Pos.of_uint d = N.pos p) by lia.
  rewrite Ep in E3. simpl in E3. rewrite E3. exact (eq_sym E2).
Qed.

(** [decimal] writes what [%d] writes. *)
Lemma decimal_fmt_d (z : Z) : decimal z = fmt_d z.
Proof.
  destruct z as [| p | p].
  - reflexivity.
  - unfold decimal. change (Z.abs (Z.pos p)) with (Z.pos p).
    change (Z.pos p <? 0) with false. cbv iota zeta.
    rewrite natural_digits_positive. reflexivity.
  - unfold decimal. change (Z.abs (Z.neg p)) with (Z.pos p).
    change (Z.neg p <? 0) with true. cbv iota zeta.
    rewrite natural_digits_positive, Conversions.fmt_d_negative. reflexivity.
Qed.

Example decimal_samples :
  decimal 0 = "0"%string /\ decimal 7 = "7"%string
  /\ decimal 10 = "10"%string /\ decimal (-2147483648) = "-2147483648"%string
  /\ decimal 1234567890 = "1234567890"%string.
Proof. repeat split; vm_compute; reflexivity. Qed.

End Decimals.

(** X3.  The decimal text [printf ("%d")] writes for an [int] is accepted
    by [is_valid_integer] and read back by [atoi] as the same number. *)
Theorem atoi_of_printed :
  forall z : Z,
    in_int z -> atoi (fmt_d z) = z /\ is_valid_integer (fmt_d z) = true.
Proof.
  intros z Hz. destruct z as [| p | p].
  - split; reflexivity.
  - destruct (Numbers.to_uint_text p) as (c & r & E1 & E2 & Hc & Hnz & Hr).
    change (fmt_d (Z.pos p)) with (NilZero.string_of_uint (Pos.to_uint p)).
    rewrite E1. split.
    + unfold atoi. rewrite (Conversions.strtol_digits c r Hc), <- E2.
      rewrite Numbers.digits_value_uint, Unsigned.of_to.
      change (Z.of_N (N.pos p)) with (Z.pos p).
      rewrite Conversions.clamp_long_int by exact Hz.
      now apply wrap_int_small.
    + apply Lexical.numeral_valid_integer.
      apply (Lexical.numeral_intro EmptyString (String c r));
        [auto | discriminate | split; assumption |].
      intros r' E. congruence.
  - destruct (Numbers.to_uint_text p) as (c & r & E1 & E2 & Hc & Hnz & Hr).
    rewrite Conversions.fmt_d_negative, E1. split.
    + unfold atoi. rewrite Conversions.strtol_minus, <- E2.
      rewrite Numbers.digits_value_uint, Unsigned.of_to.
      change (- Z.of_N (N.pos p)) with (Z.neg p).
      rewrite Conversions.clamp_long_int by exact Hz.
      now apply wrap_int_small.
    + apply Lexical.numeral_valid_integer.
      apply (Lexical.numeral_intro "-" (String c r));
        [auto | discriminate | split; assumption |].
      intros r' E. congruence.
Qed.

(** An instance: the number -2147483648. *)
Lemma atoi_of_printed_witness :
  in_int (-2147483648)
  /\ fmt_d (-2147483648) = "-2147483648"
  /\ atoi (fmt_d (-2147483648)) = -2147483648
  /\ is_valid_integer (fmt_d (-2147483648)) = true.
Proof.
  assert (H : in_int (-2147483648)).
  { unfold in_int, INT_MIN, INT_MAX. lia. }
  split; [exact H |]. split; [reflexivity |].
  exact (atoi_of_printed (-2147483648) H).
Defined.

Module Reprint.

(** The text of the value [atoi] reads. *)
Lemma text_of_value (s : string) :
  canonical_integer s -> in_int (strtol s) -> fmt_d (atoi s) = s.
Proof.
  intros [(sign & ds & -> & Hsign & Hne & Hd & Hlead) Hnz] Hfit.
  destruct (Conversions.digits_text ds Hd Hne Hlead) as (d & E1 & E2 & Hto).
  destruct ds as [| c r]; [congruence |].
  unfold atoi. rewrite (wrap_int_small _ Hfit).
  destruct Hsign as [-> | ->]; simpl append in *.
  - rewrite (Conversions.strtol_digits c r (proj1 Hd)) in *.
    rewrite (Conversions.clamp_long_fits _ Hfit).
    rewrite <- E1 at 1. rewrite Numbers.digits_value_uint.
    rewrite Conversions.fmt_d_natural, Hto. exact E2.
  - rewrite Conversions.strtol_minus in *.
    rewrite (Conversions.clamp_long_fits _ Hfit).
    rewrite <- E1 at 1. rewrite Numbers.digits_value_uint.
    destruct (Pos.of_uint d) as [| q] eqn:Eq.
    + exfalso. simpl in Hto. subst d. simpl in E1. congruence.
    + change (- Z.of_N (N.pos q)) with (Z.neg q).
      rewrite Conversions.fmt_d_negative.
      simpl in Hto. rewrite Hto, E2. reflexivity.
Qed.

End Reprint.

(** X4.  A canonical integer text (no leading zero, no signed zero) whose
    value fits an [int] is printed back by [printf ("%d")] from the number
    [atoi] reads: the conversion loses nothing. *)
Theorem printed_of_atoi :
  forall s : string,
    canonical_integer s -> in_int (strtol s) -> fmt_d (atoi s) = s.
Proof. exact Reprint.text_of_value. Qed.

(** An instance: the text "-2147483648". *)
Lemma printed_of_atoi_witness :
  canonical_integer "-2147483648"
  /\ in_int (strtol "-2147483648")
  /\ fmt_d (atoi "-2147483648") = "-2147483648".
Proof.
  assert (Hc : canonical_integer "-2147483648").
  { split; [| discriminate].
    exists "-", "2147483648".
    split; [reflexivity |]. split; [auto |]. split; [discriminate |].
    split; [simpl; repeat split; unfold ascii_digit; simpl; auto 15 | discriminate]. }
  assert (Hf : in_int (strtol "-2147483648")).
  { vm_compute. split; discriminate. }
  split; [exact Hc |]. split; [exact Hf |].
  exact (printed_of_atoi "-2147483648" Hc Hf).
Defined.

Module Positive.

Lemma is_valid_positive_integer_numeral_shape (s : string) :
  is_valid_positive_integer s = true -> positive_numeral s.
Proof.
  unfold positive_numeral. destruct s as [| c r]; [discriminate |].
  cbn [is_valid_positive_integer].
  pose proof (Lexical.all_digits_spec (String c r)) as Hd. simpl in Hd.
  destruct (Ascii.eqb_spec c "-"%char) as [-> | Hm]; simpl; [discriminate |].
  destruct (Ascii.eqb_spec c "0"%char) as [-> | Hz]; simpl; [discriminate |].
  intros H. apply Hd in H. exists c, r. tauto.
Qed.

End Positive.

Module Dimensions.


(** The value of a positive numeral that fits an [int]. *)
Lemma positive_value (s : string) :
  is_valid_positive_integer s = true -> in_int (strtol s) -> 1 <= atoi s.
Proof.
  intros H Hfit. apply Positive.is_valid_positive_integer_numeral_shape in H.
  destruct H as (c & r & -> & Hc & Hnz & Hr).
  unfold atoi. rewrite (wrap_int_small _ Hfit).
  rewrite (Conversions.strtol_digits c r Hc) in *.
  rewrite (Conversions.clamp_long_fits _ Hfit).
  destruct (Numbers.digits_uint (String c r) (conj Hc Hr)) as [d E].
  rewrite <- E, Numbers.digits_value_uint.
  destruct d as [| d | d | d | d | d | d | d | d | d | d];
    simpl in E; try discriminate E;
    try (injection E as E _; congruence);
    cbn [Pos.of_uint]; lia.
Qed.

End Dimensions.

(** X5.  The half-width and half-height of a building, and the radius of
    an antenna, that the parsers return are at least 1, when the token they
    are read from fits an [int]. *)
Theorem parsed_dimensions_positive :
  forall (line : string) (line_num : Z) (w w' : World),
    (forall b : Building,
        parse_building_line line line_num w = (Some b, w') ->
        in_int (strtol (arg 3 (snd (sscanf line building_format)))) ->
        in_int (strtol (arg 4 (snd (sscanf line building_format)))) ->
        1 <= b_w b /\ 1 <= b_h b)
    /\ (forall a : Antenna,
           parse_antenna_line line line_num w = (Some a, w') ->
           in_int (strtol (arg 3 (snd (sscanf line antenna_format)))) ->
           1 <= a_r a).
Proof.
  intros line line_num w w'. split.
  - intros b H.
    apply Parser.parse_building_line_inv in H.
    destruct H as (_ & id & x & y & wd & h & E & _ & _ & _ & Hw & Hh & ->).
    rewrite E. cbn [snd arg nth b_w b_h]. intros Fw Fh.
    split; now apply Dimensions.positive_value.
  - intros a H.
    apply Parser.parse_antenna_line_inv in H.
    destruct H as (_ & id & x & y & r & E & _ & _ & _ & Hr & ->).
    rewrite E. cbn [snd arg nth a_r]. intros Fr.
    now apply Dimensions.positive_value.
Qed.

(** An instance: the line [building b1 -3 40 1 2]. *)
Lemma parsed_dimensions_positive_witness :
  parse_building_line "building b1 -3 40 1 2" 2 silent
  = (Some (mkBuilding "b1" (-3) 40 1 2), silent)
  /\ 1 <= b_w (mkBuilding "b1" (-3) 40 1 2)
  /\ 1 <= b_h (mkBuilding "b1" (-3) 40 1 2).
Proof.
  assert (E : parse_building_line "building b1 -3 40 1 2" 2 silent
              = (Some (mkBuilding "b1" (-3) 40 1 2), silent)) by reflexivity.
  split; [exact E |].
  apply (proj1 (parsed_dimensions_positive "building b1 -3 40 1 2" 2 silent silent)
           _ E); vm_compute; split; discriminate.
Defined.



(** ** Dispatch of a line *)

Module Dispatch.

Import Tokenizer.

Lemma sscanf_leading (fmt : string) (rest : list directive) (lead line : string) :
  directives fmt None = Ws :: rest -> blank lead = true ->
  sscanf (lead ++ line) fmt = sscanf line fmt.
Proof.
  intros Hfmt Hlead. unfold sscanf. rewrite Hfmt, !scan_Ws.
  now rewrite skip_spaces_blank.
Qed.

Lemma take_short (n : nat) :
  forall s, (String.length s <= n)%nat -> take n s = s.
Proof.
  induction n as [| n IH]; intros [| c r] H; simpl in *; try reflexivity; try lia.
  rewrite IH; [reflexivity | lia].
Qed.

(** A keyword is shorter than a field: the field is a keyword only when the
    token is. *)
Lemma take_keyword (tok kw : string) :
  (String.length kw < 10)%nat -> take 10 tok = kw -> tok = kw.
Proof.
  intros Hkw E.
  destruct (Nat.le_gt_cases (String.length tok) 10) as [Hle | Hgt].
  - now rewrite take_short in E.
  - pose proof (length_take 10 tok ltac:(lia)) as Hlen.
    rewrite E in Hlen. lia.
Qed.

(** The keyword [process_line] reads from a line with a first token. *)
Lemma sscanf_first_token (line tok : string) :
  first_token line tok ->
  sscanf line " %10s " = (1, [take 10 tok]).
Proof.
  intros (lead & rest & -> & Hlead & Htok & Hne & Hrest).
  unfold sscanf.
  change (directives " %10s " None) with [Ws; Str 10; Ws].
  rewrite scan_Ws, skip_spaces_blank, skip_spaces_token by assumption.
  rewrite scan_Str_token by assumption.
  reflexivity.
Qed.

Lemma skip_spaces_all (s : string) : blank s = true -> skip_spaces s = EmptyString.
Proof.
  induction s as [| c r IH]; simpl; [reflexivity |].
  intros H. apply andb_true_iff in H. destruct H as [Hc Hr].
  rewrite Hc. auto.
Qed.

Lemma sscanf_blank (line : string) :
  blank line = true -> sscanf line " %10s " = (EOF, []).
Proof.
  intros H. unfold sscanf.
  change (directives " %10s " None) with [Ws; Str 10; Ws].
  rewrite scan_Ws. cbn [scan].
  assert (E : skip_spaces (skip_spaces line) = EmptyString).
  { now rewrite (skip_spaces_all line H). }
  rewrite E. reflexivity.
Qed.

Lemma strcmp_neq (s1 s2 : string) : s1 <> s2 -> (strcmp s1 s2 =? 0) = false.
Proof.
  intros H. destruct (strcmp s1 s2 =? 0) eqn:E; [| reflexivity].
  apply strcmp_eq in E. contradiction.
Qed.

Lemma parse_building_leading (lead line : string) (line_num : Z) :
  blank lead = true ->
  parse_building_line (lead ++ line) line_num = parse_building_line line line_num.
Proof.
  intros H. unfold parse_building_line.
  assert (E : sscanf (lead ++ line) " building %10s %10s %10s %10s %10s "
              = sscanf line " building %10s %10s %10s %10s %10s ").
  { eapply sscanf_leading; [vm_compute; reflexivity | exact H]. }
  rewrite E. reflexivity.
Qed.

Lemma parse_antenna_leading (lead line : string) (line_num : Z) :
  blank lead = true ->
  parse_antenna_line (lead ++ line) line_num = parse_antenna_line line line_num.
Proof.
  intros H. unfold parse_antenna_line.
  assert (E : sscanf (lead ++ line) " antenna %10s %10s %10s %10s "
              = sscanf line " antenna %10s %10s %10s %10s ").
  { eapply sscanf_leading; [vm_compute; reflexivity | exact H]. }
  rewrite E. reflexivity.
Qed.

Lemma keyword_leading (lead line : string) :
  blank lead = true -> sscanf (lead ++ line) " %10s " = sscanf line " %10s ".
Proof.
  intros H. eapply sscanf_leading; [vm_compute; reflexivity | exact H].
Qed.

End Dispatch.

(** X7.  White space in front of a line changes nothing: [process_line]
    returns the same result, the same scene and the same diagnostics for a
    line and for the line indented. *)
Theorem process_line_leading_space :
  forall (scene : Scene) (lead line : string) (line_num : Z) (w : World),
    blank lead = true ->
    process_line scene (lead ++ line) line_num w
    = process_line scene line line_num w.
Proof.
  intros scene lead line line_num w Hlead.
  unfold process_line, process_building, process_antenna.
  rewrite (Dispatch.keyword_leading lead line Hlead).
  rewrite (Dispatch.parse_building_leading lead line line_num Hlead).
  rewrite (Dispatch.parse_antenna_leading lead line line_num Hlead).
  reflexivity.
Qed.

(** An instance: the line [antenna a1 5 5 3] behind two spaces and a
    tabulation. *)
Lemma process_line_leading_space_witness :
  blank (String " " (String " " (String "009" EmptyString))) = true
  /\ process_line init_scene
       (String " " (String " " (String "009" EmptyString)) ++ "antenna a1 5 5 3")
       2 silent
     = process_line init_scene "antenna a1 5 5 3" 2 silent.
Proof.
  split; [reflexivity |].
  apply process_line_leading_space. reflexivity.
Defined.

(** X8.  [process_line] goes by the first token of the line, which must be
    exactly a keyword: an empty or blank line, and a line whose first token
    is neither [building] nor [antenna], are refused with the unrecognized
    line diagnostic and its line number, the scene untouched; a line whose
    first token is a keyword is handed to the function of that keyword. *)
Theorem process_line_dispatch :
  forall (scene : Scene) (line : string) (line_num : Z) (w : World),
    (blank line = true ->
     process_line scene line line_num w
     = ((false, scene), with_stderr w
          ("error: unrecognized line (line #" ++ decimal line_num ++ ")"
           ++ LF)))
    /\ (forall tok : string,
           first_token line tok ->
           tok <> "building" -> tok <> "antenna" ->
           process_line scene line line_num w
           = ((false, scene), with_stderr w
          ("error: unrecognized line (line #" ++ decimal line_num ++ ")"
           ++ LF)))
    /\ (first_token line "building" ->
        process_line scene line line_num w
        = process_building scene line line_num w)
    /\ (first_token line "antenna" ->
        process_line scene line line_num w
        = process_antenna scene line line_num w).
Proof.
  intros scene line line_num w. split; [| split; [| split]].
  - intros H. unfold process_line. rewrite (Dispatch.sscanf_blank line H).
    rewrite Decimals.decimal_fmt_d. reflexivity.
  - intros tok Htok Hb Ha. unfold process_line.
    rewrite (Dispatch.sscanf_first_token line tok Htok).
    cbn [Z.eqb negb arg nth Pos.eqb].
    rewrite !Dispatch.strcmp_neq;
      [rewrite Decimals.decimal_fmt_d; reflexivity | |].
    + intros E. apply Ha. apply (Dispatch.take_keyword tok "antenna"); [simpl; lia | exact E].
    + intros E. apply Hb. apply (Dispatch.take_keyword tok "building"); [simpl; lia | exact E].
  - intros Htok. unfold process_line.
    rewrite (Dispatch.sscanf_first_token line "building" Htok). reflexivity.
  - intros Htok. unfold process_line.
    rewrite (Dispatch.sscanf_first_token line "antenna" Htok). reflexivity.
Qed.

(** An instance: the line [tower t1 0 0]. *)
Lemma process_line_dispatch_witness :
  first_token "tower t1 0 0" "tower"
  /\ process_line init_scene "tower t1 0 0" 7 silent
     = ((false, init_scene),
        mkWorld EmptyString EmptyString
          ("error: unrecognized line (line #7)" ++ LF)).
Proof.
  assert (H : first_token "tower t1 0 0" "tower").
  { exists EmptyString, " t1 0 0". repeat split; try reflexivity. discriminate. }
  split; [exact H |].
  destruct (process_line_dispatch init_scene "tower t1 0 0" 7 silent)
    as (_ & Hother & _).
  apply (Hother "tower" H); discriminate.
Defined.

(** ** Adding a building *)

Module Overlaps.

Lemma overlapping_tail (b : Building) (l : list Building) (i j : nat) :
  overlapping (b :: l) (S i) (S j) <-> overlapping l i j.
Proof.
  unfold overlapping. simpl. split; intros (b1 & b2 & H & R); exists b1, b2;
    (split; [lia | exact R]).
Qed.

Lemma building_overlaps_from_some (l : list Building) :
  forall id1 id2,
    building_overlaps_from l = Some (id1, id2) ->
    exists i j b1 b2,
      nth_error l i = Some b1 /\ nth_error l j = Some b2
      /\ first_overlapping l i j /\ id1 = b_id b1 /\ id2 = b_id b2.
Proof.
  induction l as [| b l IH]; intros id1 id2; simpl; [discriminate |].
  destruct (find (fun bj => buildings_overlap b bj) l) as [bj |] eqn:E.
  - intros H. injection H as <- <-.
    destruct (Positions.find_first _ _ _ E) as (j & Hn & Hs & Hmin).
    exists O, (S j), b, bj. repeat split; auto.
    + exists b, bj. split; [lia |]. split; [reflexivity |].
      split; [exact Hn | now apply buildings_overlap_true].
    + intros [| i'] j' (b1 & b2 & Hlt & H1 & H2 & Hov); [| left; lia].
      right. split; [reflexivity |].
      destruct j' as [| j']; [lia |]. simpl in H1, H2. injection H1 as <-.
      destruct (Nat.lt_ge_cases j' j) as [Hlt' | Hge]; [| lia].
      pose proof (Hmin j' b2 Hlt' H2) as Hno. simpl in Hno.
      apply buildings_overlap_true in Hov. congruence.
  - intros H.
    destruct (IH _ _ H) as (i & j & b1 & b2 & H1 & H2 & [Hc Hmin] & -> & ->).
    exists (S i), (S j), b1, b2. repeat split; auto.
    + now apply overlapping_tail.
    + intros [| i'] j' Hc'.
      * destruct Hc' as (c1 & c2 & Hlt & Hc1 & Hc2 & Hov).
        destruct j' as [| j']; [lia |]. simpl in Hc1, Hc2. injection Hc1 as <-.
        pose proof (Positions.find_nowhere _ _ E j' c2 Hc2) as Hno.
        simpl in Hno. apply buildings_overlap_true in Hov. congruence.
      * destruct j' as [| j'].
        { destruct Hc' as (_ & _ & Hlt & _). lia. }
        apply overlapping_tail in Hc'.
        destruct (Hmin _ _ Hc') as [Hlt | [-> Hle]].
        { left. lia. }
        { right. split; [reflexivity | lia]. }
Qed.

Lemma building_overlaps_from_none (l : list Building) :
  building_overlaps_from l = None -> forall i j, ~ overlapping l i j.
Proof.
  induction l as [| b l IH]; simpl.
  - intros _ i j (b1 & b2 & _ & H & _). destruct i; discriminate H.
  - destruct (find (fun bj => buildings_overlap b bj) l) as [bj |] eqn:E;
      [discriminate |].
    intros H i j Hc. destruct i as [| i], j as [| j].
    + destruct Hc as (_ & _ & Hlt & _). lia.
    + destruct Hc as (c1 & c2 & Hlt & Hc1 & Hc2 & Hov).
      simpl in Hc1, Hc2. injection Hc1 as <-.
      pose proof (Positions.find_nowhere _ _ E j c2 Hc2) as Hno.
      simpl in Hno. apply buildings_overlap_true in Hov. congruence.
    + destruct Hc as (_ & _ & Hlt & _). lia.
    + apply overlapping_tail in Hc. exact (IH H i j Hc).
Qed.

Lemma is_duplicate_building_id_spec (scene : Scene) (id : string) :
  is_duplicate_building_id scene id = true
  <-> exists b, In b (buildings scene) /\ b_id b = id.
Proof.
  unfold is_duplicate_building_id. rewrite existsb_exists.
  split; intros (b & Hin & H); exists b; (split; [exact Hin |]);
    now apply strcmp_eq.
Qed.

(** [process_building] once the line is parsed. *)
Lemma process_building_parsed (scene : Scene) (line : string) (line_num : Z)
      (w w' : World) (b : Building) :
  parse_building_line line line_num w = (Some b, w') ->
  process_building scene line line_num w
  = if is_duplicate_building_id scene (b_id b) then
      ((false, scene), with_stderr w (msg_building_non_unique (b_id b)))
    else
      match find (fun bi => buildings_overlap bi b) (buildings scene) with
      | Some bi =>
          ((false, scene), with_stderr w (msg_overlapping (b_id bi) (b_id b)))
      | None => ((true, with_building scene b), w)
      end.
Proof.
  intros H.
  destruct (Parser.parse_building_line_inv _ _ _ _ _ H) as [-> _].
  unfold process_building, bind. rewrite H.
  destruct (is_duplicate_building_id scene (b_id b)); [reflexivity |].
  destruct (find _ (buildings scene)); reflexivity.
Qed.

Lemma append_cancel (s a b : string) : (s ++ a = s ++ b)%string -> a = b.
Proof.
  induction s as [| c s IH]; simpl; intros H; [exact H |].
  injection H as H. auto.
Qed.

Lemma with_building_changes (scene : Scene) (b : Building) :
  with_building scene b <> scene.
Proof.
  unfold with_building. intros Heq.
  apply (f_equal (fun s => List.length (buildings s))) in Heq.
  simpl in Heq. rewrite length_app in Heq. simpl in Heq. lia.
Qed.

End Overlaps.

(** X9.  For every scene and every building [b] parsed from a line,
    [process_building] fails with the duplicate identifier diagnostic iff the
    identifier of [b] is that of a building of the scene (the antennas are
    not consulted); otherwise it fails with the overlap diagnostic, naming
    the first building of the scene that [b] overlaps and then [b], if there
    is one, and else appends [b].  Whenever it fails the scene is left as it
    was.  The two diagnostics are the lines
    [error: building identifier ID is non unique] and
    [error: buildings ID1 and ID2 are overlapping] on the error channel. *)
Theorem process_building_outcome :
  forall (scene : Scene) (line : string) (line_num : Z) (w w' : World)
         (b : Building),
    parse_building_line line line_num w = (Some b, w') ->
    (building_id_taken scene b
     <-> process_building scene line line_num w
         = ((false, scene),
            with_stderr w
              ("error: building identifier " ++ b_id b ++ " is non unique"
               ++ LF)))
    /\ (~ building_id_taken scene b ->
        (forall k bk,
            first_overlap (buildings scene) b k ->
            nth_error (buildings scene) k = Some bk ->
            process_building scene line line_num w
            = ((false, scene),
               with_stderr w
                 ("error: buildings " ++ b_id bk ++ " and " ++ b_id b
                  ++ " are overlapping" ++ LF)))
        /\ ((forall bk, In bk (buildings scene) -> separated_int bk b)
            <-> process_building scene line line_num w
                = ((true, with_building scene b), w)))
    /\ (fst (fst (process_building scene line line_num w)) = false ->
        snd (fst (process_building scene line line_num w)) = scene).
Proof.
  intros scene line line_num w w' b H.
  rewrite (Overlaps.process_building_parsed scene line line_num w w' b H).
  pose proof (Overlaps.is_duplicate_building_id_spec scene (b_id b)) as Hdup.
  fold (building_id_taken scene b) in Hdup.
  destruct (is_duplicate_building_id scene (b_id b)) eqn:E.
  - split; [| split].
    + split; [reflexivity | intros _; now apply Hdup].
    + intros Hno. exfalso. apply Hno. now apply Hdup.
    + reflexivity.
  - assert (Hno : ~ building_id_taken scene b).
    { intros Ht. apply Hdup in Ht. discriminate Ht. }
    destruct (find (fun bi => buildings_overlap bi b) (buildings scene))
      as [bi |] eqn:F.
    + destruct (Positions.find_first _ _ _ F) as (k0 & Hk0 & Hov & Hmin).
      split; [| split].
      * split; [intros Ht; contradiction |].
        intros Heq. exfalso. injection Heq as Heq.
        apply Overlaps.append_cancel in Heq.
        unfold msg_overlapping in Heq.
        simpl in Heq. discriminate Heq.
      * intros _. split.
        -- intros k bk [(bk' & Hk & Hovk) Hfirst] Hbk.
           assert (k = k0).
           { destruct (Nat.lt_trichotomy k k0) as [Hlt | [Heq | Hgt]];
               [| exact Heq |]; exfalso.
             - pose proof (Hmin k bk' Hlt Hk) as Hf. simpl in Hf.
               apply buildings_overlap_int in Hf. contradiction.
             - pose proof (Hfirst k0 bi Hgt Hk0) as Hs.
               simpl in Hov. apply buildings_overlap_true in Hov.
               contradiction. }
           subst k0. rewrite Hbk in Hk0. injection Hk0 as <-. reflexivity.
        -- split; [| discriminate].
           intros Hnone. exfalso.
           apply find_some in F. destruct F as [Hin Hovi].
           apply buildings_overlap_true in Hovi. exact (Hovi (Hnone bi Hin)).
      * reflexivity.
    + split; [| split].
      * split; [intros Ht; contradiction |]. discriminate.
      * intros _. split.
        -- intros k bk [(bk' & Hk & Hovk) _] _. exfalso.
           pose proof (Positions.find_nowhere _ _ F k bk' Hk) as Hf.
           simpl in Hf. apply buildings_overlap_int in Hf. contradiction.
        -- split; [reflexivity |]. intros _ bk Hin.
           apply buildings_overlap_int. exact (find_none _ _ F bk Hin).
      * discriminate.
Qed.

(** An instance, scenario 3: the scene holds b1, spanning x in [-2, 2], and
    the line [building b2 3 0 2 2] is read. *)
Lemma process_building_outcome_witness :
  parse_building_line "building b2 3 0 2 2" 3 silent
  = (Some (mkBuilding "b2" 3 0 2 2), silent)
  /\ ~ building_id_taken (mkScene [mkBuilding "b1" 0 0 2 2] [])
         (mkBuilding "b2" 3 0 2 2)
  /\ first_overlap [mkBuilding "b1" 0 0 2 2] (mkBuilding "b2" 3 0 2 2) 0
  /\ process_building (mkScene [mkBuilding "b1" 0 0 2 2] [])
       "building b2 3 0 2 2" 3 silent
     = ((false, mkScene [mkBuilding "b1" 0 0 2 2] []),
        mkWorld EmptyString EmptyString
          ("error: buildings b1 and b2 are overlapping" ++ LF)).
Proof.
  assert (Hparse : parse_building_line "building b2 3 0 2 2" 3 silent
                   = (Some (mkBuilding "b2" 3 0 2 2), silent)) by reflexivity.
  assert (Hfree : ~ building_id_taken (mkScene [mkBuilding "b1" 0 0 2 2] [])
                      (mkBuilding "b2" 3 0 2 2)).
  { intros (b' & [<- | []] & Hid). discriminate Hid. }
  assert (Hfirst : first_overlap [mkBuilding "b1" 0 0 2 2]
                     (mkBuilding "b2" 3 0 2 2) 0).
  { split.
    - exists (mkBuilding "b1" 0 0 2 2).
      split; [reflexivity | apply buildings_overlap_true; reflexivity].
    - intros k' bk' Hlt. lia. }
  split; [exact Hparse |]. split; [exact Hfree |]. split; [exact Hfirst |].
  destruct (process_building_outcome
              (mkScene [mkBuilding "b1" 0 0 2 2] []) "building b2 3 0 2 2" 3
              silent silent (mkBuilding "b2" 3 0 2 2) Hparse) as (_ & Hadd & _).
  destruct (Hadd Hfree) as [Hov _].
  exact (Hov 0%nat (mkBuilding "b1" 0 0 2 2) Hfirst eq_refl).
Defined.

(** X10.  [check_building_overlaps] returns false iff no two buildings of
    the scene overlap; when it returns true, the identifiers it copies are
    those of the first overlapping pair in collection order, the earlier
    building first. *)
Theorem check_building_overlaps_first :
  forall scene : Scene,
    (check_building_overlaps scene = None
     <-> forall i j, ~ overlapping (buildings scene) i j)
    /\ (forall id1 id2,
           check_building_overlaps scene = Some (id1, id2) ->
           exists i j b1 b2,
             nth_error (buildings scene) i = Some b1
             /\ nth_error (buildings scene) j = Some b2
             /\ first_overlapping (buildings scene) i j
             /\ id1 = b_id b1 /\ id2 = b_id b2).
Proof.
  intros scene. unfold check_building_overlaps. split.
  - split; [apply Overlaps.building_overlaps_from_none |].
    intros Hnone.
    destruct (building_overlaps_from (buildings scene)) as [[id1 id2] |] eqn:E;
      [| reflexivity].
    destruct (Overlaps.building_overlaps_from_some _ _ _ E)
      as (i & j & _ & _ & _ & _ & [Hc _] & _).
    exfalso. exact (Hnone i j Hc).
  - apply Overlaps.building_overlaps_from_some.
Qed.

(** ** Scenes read with success *)

Module Soundness.

Import Reader.

(** A line that does not parse is refused as it is. *)
Lemma process_building_unparsed (scene : Scene) (line : string)
      (line_num : Z) (w w1 : World) :
  parse_building_line line line_num w = (None, w1) ->
  process_building scene line line_num w = ((false, scene), w1).
Proof. intros P. unfold process_building, bind. rewrite P. reflexivity. Qed.

Lemma process_antenna_unparsed (scene : Scene) (line : string)
      (line_num : Z) (w w1 : World) :
  parse_antenna_line line line_num w = (None, w1) ->
  process_antenna scene line line_num w = ((false, scene), w1).
Proof. intros P. unfold process_antenna, bind. rewrite P. reflexivity. Qed.

Lemma process_building_true (scene scene' : Scene) (line : string)
      (line_num : Z) (w w' : World) :
  process_building scene line line_num w = ((true, scene'), w') ->
  w' = w
  /\ exists b,
      scene' = with_building scene b
      /\ is_duplicate_building_id scene (b_id b) = false
      /\ forall bk, In bk (buildings scene) -> buildings_overlap bk b = false.
Proof.
  intros H.
  destruct (parse_building_line line line_num w) as [[b |] w1] eqn:P.
  - rewrite (Overlaps.process_building_parsed _ _ _ _ _ _ P) in H.
    destruct (is_duplicate_building_id scene (b_id b)) eqn:D; [discriminate H |].
    destruct (find _ (buildings scene)) eqn:F; [discriminate H |].
    injection H as <- <-. split; [reflexivity |].
    exists b. split; [reflexivity |]. split; [exact D |].
    intros bk Hin. exact (find_none _ _ F bk Hin).
  - rewrite (process_building_unparsed _ _ _ _ _ P) in H. discriminate H.
Qed.

Lemma process_antenna_true (scene scene' : Scene) (line : string)
      (line_num : Z) (w w' : World) :
  process_antenna scene line line_num w = ((true, scene'), w') ->
  w' = w
  /\ exists a,
      scene' = with_antenna scene a
      /\ is_duplicate_antenna_id scene (a_id a) = false
      /\ antenna_positions_from (antennas scene ++ [a]) = None.
Proof.
  intros H.
  destruct (parse_antenna_line line line_num w) as [[a |] w1] eqn:P.
  - rewrite (process_antenna_parsed _ _ _ _ _ _ P) in H.
    destruct (is_duplicate_antenna_id scene (a_id a)) eqn:D; [discriminate H |].
    destruct (antenna_positions_from (antennas scene ++ [a])) as [[i1 i2] |] eqn:F;
      [discriminate H |].
    injection H as <- <-. split; [reflexivity |].
    exists a. auto.
  - rewrite (process_antenna_unparsed _ _ _ _ _ P) in H. discriminate H.
Qed.

(** A line that is accepted adds one element and prints nothing. *)
Lemma process_line_true (scene scene' : Scene) (line : string)
      (line_num : Z) (w w' : World) :
  process_line scene line line_num w = ((true, scene'), w') ->
  w' = w
  /\ ((exists b,
          scene' = with_building scene b
          /\ is_duplicate_building_id scene (b_id b) = false
          /\ forall bk, In bk (buildings scene) -> buildings_overlap bk b = false)
      \/ (exists a,
             scene' = with_antenna scene a
             /\ is_duplicate_antenna_id scene (a_id a) = false
             /\ antenna_positions_from (antennas scene ++ [a]) = None)).
Proof.
  unfold process_line, print_error_line.
  destruct (sscanf line _) as [n args].
  destruct (negb (n =? 1)).
  { unfold bind, eprintf, ret. discriminate. }
  destruct (strcmp (arg 0 args) "building" =? 0).
  { intros H. apply process_building_true in H. destruct H as [Hw Hb]. auto. }
  destruct (strcmp (arg 0 args) "antenna" =? 0).
  { intros H. apply process_antenna_true in H. destruct H as [Hw Ha]. auto. }
  unfold bind, eprintf, ret. discriminate.
Qed.

Lemma overlapping_snoc (l : list Building) (b : Building) :
  (forall i j, ~ overlapping l i j) ->
  (forall bk, In bk l -> buildings_overlap bk b = false) ->
  forall i j, ~ overlapping (l ++ [b]) i j.
Proof.
  intros Hl Hb i j (b1 & b2 & Hlt & H1 & H2 & Hov).
  destruct (Nat.lt_trichotomy j (List.length l)) as [Hj | [Hj | Hj]].
  - rewrite nth_error_app1 in H1, H2 by lia.
    apply (Hl i j). exists b1, b2. auto.
  - rewrite nth_error_app1 in H1 by lia.
    rewrite nth_error_app2 in H2 by lia.
    replace (j - List.length l)%nat with 0%nat in H2 by lia.
    simpl in H2. injection H2 as <-.
    apply nth_error_In in H1. apply buildings_overlap_true in Hov.
    rewrite (Hb b1 H1) in Hov. discriminate Hov.
  - rewrite nth_error_app2 in H2 by lia.
    destruct (j - List.length l)%nat as [| [| m]] eqn:E; simpl in H2;
      try discriminate H2. lia.
Qed.

Lemma process_line_sound (scene scene' : Scene) (line : string)
      (line_num : Z) (w w' : World) :
  process_line scene line line_num w = ((true, scene'), w') ->
  scene_sound scene ->
  scene_sound scene' /\ elements scene' = S (elements scene) /\ w' = w.
Proof.
  intros H [Hu [Hb Ha]].
  pose proof (Validated.process_line_unique _ _ _ _ _ _ _ H Hu) as Hu'.
  destruct (process_line_true _ _ _ _ _ _ H)
    as [-> [(b & -> & _ & Hov) | (a & -> & _ & Hpos)]].
  - split; [| split; [| reflexivity]].
    + split; [exact Hu' |]. split; [| exact Ha].
      cbn [buildings with_building]. now apply overlapping_snoc.
    + unfold elements, num_buildings, num_antennas.
      cbn [buildings antennas with_building]. rewrite length_app. simpl. lia.
  - split; [| split; [| reflexivity]].
    + split; [exact Hu' |]. split; [exact Hb |].
      cbn [antennas with_antenna].
      now apply Positions.antenna_positions_from_none.
    + unfold elements, num_buildings, num_antennas.
      cbn [buildings antennas with_antenna]. rewrite length_app. simpl. lia.
Qed.

(** The reading of the lines after the start marker, when it succeeds. *)
Lemma interior_success (raw : list string) :
  forall k scene scene' msg unread,
    scene_sound scene ->
    interior_spec k scene raw = (true, scene', msg, unread) ->
    scene_sound scene' /\ msg = EmptyString
    /\ exists consumed,
        raw = (consumed ++ unread)%list
        /\ (List.length consumed + elements scene = S (elements scene'))%nat.
Proof.
  induction raw as [| buf rest IH]; intros k scene scene' msg unread Hs;
    cbn [interior_spec]; [discriminate |].
  destruct (String.eqb (chomp buf) "end scene").
  - intros H. injection H as <- <- <-.
    split; [exact Hs |]. split; [reflexivity |].
    exists [buf]. split; [reflexivity | simpl; lia].
  - unfold line_verdict.
    destruct (process_line scene (chomp buf) (line_number (S k)) silent)
      as [[ok scene1] w1] eqn:E.
    cbn [fst snd]. destruct ok; [| discriminate].
    destruct (process_line_sound _ _ _ _ _ _ E Hs) as (Hs1 & Hel & ->).
    destruct (interior_spec (S k) scene1 rest) as [[[ok2 scene2] msgs] unread2] eqn:E2.
    intros H. injection H as -> <- <- <-.
    destruct (IH _ _ _ _ _ Hs1 E2) as (Hs2 & -> & consumed & -> & Hlen).
    split; [exact Hs2 |]. split; [reflexivity |].
    exists (buf :: consumed). split; [reflexivity | simpl; lia].
Qed.

(** The lines that are left of a stream are the lines of what is left. *)
Lemma lines_read_suffix (pre : list string) :
  forall s suf, lines_read s = (pre ++ suf)%list -> lines_read (texts suf) = suf.
Proof.
  induction pre as [| b pre IH]; intros s suf H.
  - simpl in H. rewrite <- H. now rewrite texts_lines_read.
  - destruct s as [| c r]; [discriminate H |].
    rewrite lines_read_cons in H. injection H as _ H.
    exact (IH _ _ H).
Qed.

Lemma init_scene_sound : scene_sound init_scene.
Proof.
  split; [split; constructor |].
  split; intros i j (x & y & _ & H & _); destruct i; discriminate H.
Qed.

(** What a successful [read_scene] leaves. *)
Lemma read_scene_success (w w' : World) (scene : Scene) :
  read_scene init_scene w = (Some (true, scene), w') ->
  scene_sound scene
  /\ w_stdout w' = w_stdout w /\ w_stderr w' = w_stderr w
  /\ exists consumed,
      lines_read (w_stdin w) = (consumed ++ lines_read (w_stdin w'))%list
      /\ List.length consumed = (elements scene + 2)%nat.
Proof.
  rewrite read_scene_protocol. unfold reader_spec.
  destruct (lines_read (w_stdin w)) as [| buf rest] eqn:L; [discriminate |].
  destruct (String.eqb (chomp buf) "begin scene"); [| discriminate].
  destruct (interior_spec 1 init_scene rest) as [[[ok sc] msg] unread] eqn:E.
  intros H. injection H as -> -> <-.
  destruct (interior_success _ _ _ _ _ _ init_scene_sound E)
    as (Hs & -> & consumed & -> & Hlen).
  split; [exact Hs |]. cbn [w_stdin w_stdout w_stderr].
  split; [reflexivity |]. split; [apply Description.append_empty |].
  exists (buf :: consumed). split.
  - rewrite (lines_read_suffix (buf :: consumed) (w_stdin w) unread L).
    reflexivity.
  - change (elements init_scene) with 0%nat in Hlen.
    cbn [List.length]. lia.
Qed.

End Soundness.

(** X11.  In every scene [read_scene] returns with success, the
    identifiers are all different within each group, no two buildings
    overlap and no two antennas have the same position:
    [check_building_overlaps] and [check_antenna_positions] both return
    false on it. *)
Theorem read_scene_sound :
  forall (w w' : World) (scene : Scene),
    read_scene init_scene w = (Some (true, scene), w') ->
    scene_sound scene
    /\ check_building_overlaps scene = None
    /\ check_antenna_positions scene = None.
Proof.
  intros w w' scene H.
  destruct (Soundness.read_scene_success w w' scene H) as [Hs _].
  split; [exact Hs |]. destruct Hs as (_ & Hb & Ha).
  unfold check_building_overlaps, check_antenna_positions. split.
  - destruct (building_overlaps_from (buildings scene)) as [[id1 id2] |] eqn:E;
      [| reflexivity].
    destruct (Overlaps.building_overlaps_from_some _ _ _ E)
      as (i & j & _ & _ & _ & _ & [Hc _] & _).
    exfalso. exact (Hb i j Hc).
  - destruct (antenna_positions_from (antennas scene)) as [[id1 id2] |] eqn:E;
      [| reflexivity].
    destruct (Positions.antenna_positions_from_some _ _ _ E)
      as (i & j & _ & _ & _ & _ & [Hc _] & _).
    exfalso. exact (Ha i j Hc).
Qed.


(** An instance: two buildings that overlap, then a third. *)
Lemma check_building_overlaps_first_witness :
  check_building_overlaps
    (mkScene [mkBuilding "b1" 0 0 2 2; mkBuilding "b2" 3 0 2 2;
              mkBuilding "b3" 4 0 2 2] [])
  = Some ("b1", "b2")
  /\ exists i j b1 b2,
      nth_error [mkBuilding "b1" 0 0 2 2; mkBuilding "b2" 3 0 2 2;
                 mkBuilding "b3" 4 0 2 2] i = Some b1
      /\ nth_error [mkBuilding "b1" 0 0 2 2; mkBuilding "b2" 3 0 2 2;
                    mkBuilding "b3" 4 0 2 2] j = Some b2
      /\ first_overlapping
           [mkBuilding "b1" 0 0 2 2; mkBuilding "b2" 3 0 2 2;
            mkBuilding "b3" 4 0 2 2] i j
      /\ "b1"%string = b_id b1 /\ "b2"%string = b_id b2.
Proof.
  assert (E : check_building_overlaps
                (mkScene [mkBuilding "b1" 0 0 2 2; mkBuilding "b2" 3 0 2 2;
                          mkBuilding "b3" 4 0 2 2] [])
              = Some ("b1", "b2")) by reflexivity.
  split; [exact E |].
  exact (proj2 (check_building_overlaps_first
                  (mkScene [mkBuilding "b1" 0 0 2 2; mkBuilding "b2" 3 0 2 2;
                            mkBuilding "b3" 4 0 2 2] [])) _ _ E).
Defined.

(** An instance: a stream with one building and one antenna. *)
Lemma read_scene_sound_witness :
  read_scene init_scene
    (mkWorld
       (unlines ["begin scene"; "building b1 0 0 1 1"; "antenna a1 5 5 3";
                 "end scene"])
       EmptyString EmptyString)
  = (Some (true, mkScene [mkBuilding "b1" 0 0 1 1] [mkAntenna "a1" 5 5 3]),
     silent)
  /\ scene_sound (mkScene [mkBuilding "b1" 0 0 1 1] [mkAntenna "a1" 5 5 3])
  /\ check_building_overlaps
       (mkScene [mkBuilding "b1" 0 0 1 1] [mkAntenna "a1" 5 5 3]) = None
  /\ check_antenna_positions
       (mkScene [mkBuilding "b1" 0 0 1 1] [mkAntenna "a1" 5 5 3]) = None.
Proof.
  assert (E : read_scene init_scene
                (mkWorld
                   (unlines ["begin scene"; "building b1 0 0 1 1";
                             "antenna a1 5 5 3"; "end scene"])
                   EmptyString EmptyString)
              = (Some (true, mkScene [mkBuilding "b1" 0 0 1 1]
                               [mkAntenna "a1" 5 5 3]), silent))
    by (vm_compute; reflexivity).
  split; [exact E |].
  exact (read_scene_sound _ _ _ E).
Defined.


(** ** Runs of the program *)

Module Runs.

Import Description.

Lemma prints_help : prints print_help.
Proof.
  unfold print_help. eexists. split.
  - repeat (eapply writes_seq; [apply writes_printf |]). apply writes_printf.
  - simpl. discriminate.
Qed.

Lemma summary_text_nonempty (scene : Scene) : summary_text scene <> EmptyString.
Proof.
  unfold summary_text.
  destruct ((num_buildings scene =? 0)%nat && (num_antennas scene =? 0)%nat);
    simpl; discriminate.
Qed.

Lemma prints_bounding_box (scene : Scene) : prints (print_bounding_box scene).
Proof.
  unfold print_bounding_box.
  destruct ((num_buildings scene =? 0)%nat && (num_antennas scene =? 0)%nat);
    eexists; (split; [apply writes_printf | simpl; discriminate]).
Qed.

Lemma prints_summary (scene : Scene) : prints (print_summary scene).
Proof.
  exists (summary_text scene).
  split; [apply writes_print_summary | apply summary_text_nonempty].
Qed.

Lemma prints_description (scene : Scene) : prints (print_description scene).
Proof.
  eexists. split; [apply Listing.writes_print_description |].
  pose proof (summary_text_nonempty scene) as H.
  destruct (summary_text scene); [congruence | simpl; discriminate].
Qed.

(** A valid subcommand other than [help] is one of the three that read a
    scene. *)
Lemma valid_subcommand_cases (s : string) :
  is_valid_subcommand s = true -> (strcmp s "help" =? 0) = false ->
  In s ["bounding-box"; "describe"; "summarize"].
Proof.
  unfold is_valid_subcommand, VALID_SUBCOMMANDS. intros H Hh.
  apply existsb_exists in H. destruct H as (v & Hin & Hv).
  apply strcmp_eq in Hv. subst v.
  destruct Hin as [<- | [<- | [<- | [<- | []]]]]; simpl; auto.
  vm_compute in Hh. discriminate Hh.
Qed.

(** The output of a subcommand on the scene read. *)
Lemma prints_subcommand (s : string) (scene : Scene) :
  In s ["bounding-box"; "describe"; "summarize"] ->
  prints (if strcmp s "bounding-box" =? 0 then print_bounding_box scene
          else if strcmp s "describe" =? 0 then print_description scene
          else if strcmp s "summarize" =? 0 then print_summary scene
          else ret tt).
Proof.
  intros [<- | [<- | [<- | []]]].
  - apply prints_bounding_box.
  - apply prints_description.
  - apply prints_summary.
Qed.

End Runs.

(** X13.  Every run of the program ends with one of the two statuses and
    keeps the channels apart.  With the status 0 it has printed
    something on the output channel and nothing on the error channel; with
    the status 1 it has printed nothing on the output channel, and a
    diagnostic on the error channel unless it was reading a scene from an
    empty stream.  The input is read only for the three subcommands that
    work on a scene. *)
Theorem run_channels :
  forall (argv : list string) (input : string),
  exists (status : Z) (w : World),
    run argv input = (Some status, w)
    /\ ((status = 0
         /\ w_stdout w <> EmptyString /\ w_stderr w = EmptyString)
        \/ (status = 1
            /\ w_stdout w = EmptyString
            /\ (w_stderr w = EmptyString ->
                scene_subcommand argv /\ input = EmptyString)))
    /\ (~ scene_subcommand argv -> w_stdin w = input).
Proof.
  intros argv input. unfold run, main.
  destruct (List.length argv =? 2)%nat eqn:Elen; cbn [negb].
  2:{ eexists _, _. split; [reflexivity |]. split.
      - right. split; [reflexivity |]. split; [reflexivity |].
        intros H. discriminate H.
      - reflexivity. }
  apply Nat.eqb_eq in Elen.
  destruct (strcmp (arg 1 argv) "help" =? 0) eqn:Ehelp.
  { destruct Runs.prints_help as (text & Hw & Hne).
    unfold bind. rewrite Hw. unfold ret, with_stdout.
    eexists _, _. split; [reflexivity |]. cbn [w_stdin w_stdout w_stderr].
    split; [| reflexivity].
    left. split; [reflexivity |]. split; [exact Hne | reflexivity]. }
  destruct (is_valid_subcommand (arg 1 argv)) eqn:Evalid; cbn [negb].
  2:{ eexists _, _. split; [reflexivity |]. split.
      - right. split; [reflexivity |]. split; [reflexivity |].
        intros H. discriminate H.
      - reflexivity. }
  pose proof (Runs.valid_subcommand_cases _ Evalid Ehelp) as Hsub.
  assert (Hscene : scene_subcommand argv) by (split; assumption).
  unfold bind at 1.
  destruct (read_scene init_scene (mkWorld input EmptyString EmptyString))
    as [r w1] eqn:E.
  pose proof E as P. rewrite Reader.read_scene_protocol in P.
  destruct (reader_spec init_scene _) as [[[ok scene] msg] unread].
  injection P as <- Hw1. destruct ok.
  - destruct (Soundness.read_scene_success _ _ _ E) as (_ & Hout & Herr & _).
    cbn [w_stdout w_stderr] in Hout, Herr.
    destruct (Runs.prints_subcommand (arg 1 argv) scene Hsub)
      as (text & Hw & Hne).
    unfold bind. rewrite Hw. unfold ret, with_stdout.
    eexists _, _. split; [reflexivity |]. cbn [w_stdin w_stdout w_stderr].
    split; [| intros H; contradiction].
    left. split; [reflexivity |]. rewrite Hout, Herr.
    split; [exact Hne | reflexivity].
  - unfold ret. eexists _, _. split; [reflexivity |].
    split; [| intros H; contradiction].
    right. split; [reflexivity |].
    split; [subst w1; reflexivity |].
    intros Herr. split; [exact Hscene |].
    destruct input as [| c r]; [reflexivity |]. exfalso.
    assert (Hin : w_stdin (mkWorld (String c r) EmptyString EmptyString)
                  <> EmptyString) by (cbn [w_stdin]; discriminate).
    destruct (Reported.read_scene_failure_reported init_scene scene _ w1 Hin E)
      as (m & Hm & Hw).
    rewrite Hw in Herr. cbn [w_stderr] in Herr. simpl in Herr. contradiction.
Qed.

(** ** The capacity of the scene *)

Module Capacity.

Lemma elements_with_building (scene : Scene) (b : Building) :
  elements (with_building scene b) = S (elements scene).
Proof.
  unfold elements, num_buildings, num_antennas.
  cbn [buildings antennas with_building]. rewrite length_app. simpl. lia.
Qed.

Lemma elements_with_antenna (scene : Scene) (a : Antenna) :
  elements (with_antenna scene a) = S (elements scene).
Proof.
  unfold elements, num_buildings, num_antennas.
  cbn [buildings antennas with_antenna]. rewrite length_app. simpl. lia.
Qed.

Lemma process_building_grows (scene scene' : Scene) (line : string)
      (line_num : Z) (ok : bool) (w w' : World) :
  process_building scene line line_num w = ((ok, scene'), w') ->
  (elements scene' <= S (elements scene))%nat.
Proof.
  intros H.
  destruct (parse_building_line line line_num w) as [[b |] w1] eqn:P.
  - rewrite (Overlaps.process_building_parsed _ _ _ _ _ _ P) in H.
    destruct (is_duplicate_building_id scene (b_id b)).
    { injection H as _ <- _. lia. }
    destruct (find _ (buildings scene)).
    { injection H as _ <- _. lia. }
    injection H as _ <- _. rewrite elements_with_building. lia.
  - rewrite (Soundness.process_building_unparsed _ _ _ _ _ P) in H.
    injection H as _ <- _. lia.
Qed.

Lemma process_antenna_grows (scene scene' : Scene) (line : string)
      (line_num : Z) (ok : bool) (w w' : World) :
  process_antenna scene line line_num w = ((ok, scene'), w') ->
  (elements scene' <= S (elements scene))%nat.
Proof.
  intros H.
  destruct (parse_antenna_line line line_num w) as [[a |] w1] eqn:P.
  - rewrite (process_antenna_parsed _ _ _ _ _ _ P) in H.
    destruct (is_duplicate_antenna_id scene (a_id a)).
    { injection H as _ <- _. lia. }
    destruct (antenna_positions_from (antennas scene ++ [a])) as [[i1 i2] |];
      injection H as _ <- _; rewrite elements_with_antenna; lia.
  - rewrite (Soundness.process_antenna_unparsed _ _ _ _ _ P) in H.
    injection H as _ <- _. lia.
Qed.

(** A line adds at most one element to the scene. *)
Lemma process_line_grows (scene scene' : Scene) (line : string)
      (line_num : Z) (ok : bool) (w w' : World) :
  process_line scene line line_num w = ((ok, scene'), w') ->
  (elements scene' <= S (elements scene))%nat.
Proof.
  unfold process_line, print_error_line.
  destruct (sscanf line _) as [n args].
  destruct (negb (n =? 1)).
  { unfold bind, eprintf, ret. intros H. injection H as _ <- _. lia. }
  destruct (strcmp (arg 0 args) "building" =? 0).
  { apply process_building_grows. }
  destruct (strcmp (arg 0 args) "antenna" =? 0).
  { apply process_antenna_grows. }
  unfold bind, eprintf, ret. intros H. injection H as _ <- _. lia.
Qed.

Lemma interior_grows (raw : list string) :
  forall k scene ok scene' msg unread,
    interior_spec k scene raw = (ok, scene', msg, unread) ->
    (elements scene' <= elements scene + List.length raw)%nat.
Proof.
  induction raw as [| buf rest IH]; intros k scene ok scene' msg unread;
    cbn [interior_spec].
  - intros H. injection H as _ <- _ _. lia.
  - destruct (String.eqb (chomp buf) "end scene").
    { intros H. injection H as _ <- _ _. lia. }
    unfold line_verdict.
    destruct (process_line scene (chomp buf) (line_number (S k)) silent)
      as [[ok1 scene1] w1] eqn:E.
    apply process_line_grows in E.
    cbn [fst snd]. destruct ok1.
    + destruct (interior_spec (S k) scene1 rest)
        as [[[ok2 scene2] msgs] unread2] eqn:E2.
      apply IH in E2. intros H. injection H as _ <- _ _.
      cbn [List.length]. lia.
    + intros H. injection H as _ <- _ _. cbn [List.length]. lia.
Qed.

Lemma read_scene_grows (w w' : World) (ok : bool) (scene : Scene) :
  read_scene init_scene w = (Some (ok, scene), w') ->
  (elements scene <= List.length (lines_read (w_stdin w)) - 1)%nat.
Proof.
  rewrite Reader.read_scene_protocol. unfold reader_spec.
  destruct (lines_read (w_stdin w)) as [| buf rest].
  { intros H. injection H as _ <- _.
    change (elements init_scene) with 0%nat. lia. }
  destruct (String.eqb (chomp buf) "begin scene").
  - destruct (interior_spec 1 init_scene rest) as [[[ok1 sc] msg] unread] eqn:E.
    apply interior_grows in E.
    intros H. injection H as _ <- _.
    change (elements init_scene) with 0%nat in E. cbn [List.length]. lia.
  - intros H. injection H as _ <- _.
    change (elements init_scene) with 0%nat. lia.
Qed.

End Capacity.

(** X14.  [read_scene] stores at most one element for each line that
    follows the first one, whatever the outcome: the scene it leaves has
    no more elements than the stream has lines, less one.  On a stream of
    at most 101 lines the scene stays within [MAX_BUILDINGS] and
    [MAX_ANTENNAS], the sizes of the two arrays, which the code never
    compares with the counters. *)
Theorem read_scene_within_capacity :
  forall (w w' : World) (ok : bool) (scene : Scene),
    read_scene init_scene w = (Some (ok, scene), w') ->
    (num_buildings scene + num_antennas scene
     <= List.length (lines_read (w_stdin w)) - 1)%nat
    /\ ((List.length (lines_read (w_stdin w)) <= 101)%nat ->
        (num_buildings scene <= MAX_BUILDINGS)%nat
        /\ (num_antennas scene <= MAX_ANTENNAS)%nat).
Proof.
  intros w w' ok scene H.
  pose proof (Capacity.read_scene_grows w w' ok scene H) as Hg.
  unfold elements in Hg. split; [exact Hg |].
  unfold MAX_BUILDINGS, MAX_ANTENNAS. lia.
Qed.

(** An instance: a stream of four lines, the last one refused. *)
Lemma read_scene_within_capacity_witness :
  read_scene init_scene
    (mkWorld
       (unlines ["begin scene"; "building b1 0 0 1 1"; "antenna a1 5 5 3";
                 "antenna a2 5 5 4"])
       EmptyString EmptyString)
  = (Some (false, mkScene [mkBuilding "b1" 0 0 1 1]
                    [mkAntenna "a1" 5 5 3; mkAntenna "a2" 5 5 4]),
     mkWorld EmptyString EmptyString
       ("error: antennas a1 and a2 have the same position" ++ LF))
  /\ (1 + 2 <= 4 - 1)%nat.
Proof.
  assert (E : read_scene init_scene
                (mkWorld
                   (unlines ["begin scene"; "building b1 0 0 1 1";
                             "antenna a1 5 5 3"; "antenna a2 5 5 4"])
                   EmptyString EmptyString)
              = (Some (false, mkScene [mkBuilding "b1" 0 0 1 1]
                                [mkAntenna "a1" 5 5 3; mkAntenna "a2" 5 5 4]),
                 mkWorld EmptyString EmptyString
                   ("error: antennas a1 and a2 have the same position"
                    ++ LF)))
    by (vm_compute; reflexivity).
  split; [exact E |].
  exact (proj1 (read_scene_within_capacity _ _ _ _ E)).
Defined.

(** ** Scenes with the same elements *)

Module Reordering.

Import Description.

Lemma fold_min_perm (l1 l2 : list Z) :
  Permutation l1 l2 ->
  forall acc, fold_left Z.min l1 acc = fold_left Z.min l2 acc.
Proof.
  induction 1 as [| x l1 l2 _ IH | x y l | l1 l2 l3 _ IH1 _ IH2];
    intros acc; simpl.
  - reflexivity.
  - apply IH.
  - f_equal. lia.
  - now rewrite IH1.
Qed.

Lemma fold_max_perm (l1 l2 : list Z) :
  Permutation l1 l2 ->
  forall acc, fold_left Z.max l1 acc = fold_left Z.max l2 acc.
Proof.
  induction 1 as [| x l1 l2 _ IH | x y l | l1 l2 l3 _ IH1 _ IH2];
    intros acc; simpl.
  - reflexivity.
  - apply IH.
  - f_equal. lia.
  - now rewrite IH1.
Qed.

Lemma same_counts (s1 s2 : Scene) :
  same_elements s1 s2 ->
  num_buildings s1 = num_buildings s2 /\ num_antennas s1 = num_antennas s2.
Proof.
  intros [Hb Ha]. unfold num_buildings, num_antennas.
  split; now apply Permutation_length.
Qed.

Lemma same_box (s1 s2 : Scene) :
  same_elements s1 s2 -> compute_bounding_box s1 = compute_bounding_box s2.
Proof.
  intros [Hb Ha]. rewrite !Bounding.compute_bounding_box_folds.
  unfold lefts_int, rights_int, bottoms_int, tops_int.
  f_equal; first [apply fold_min_perm | apply fold_max_perm];
    apply Permutation_app; now apply Permutation_map.
Qed.

Lemma id_le_antisym (s1 s2 : string) : id_le s1 s2 -> id_le s2 s1 -> s1 = s2.
Proof.
  rewrite !Order.id_le_cases. intros [-> | H1] [E | H2]; auto.
  exfalso.
  exact (StrictOrder_Irreflexive _ (StrictOrder_Transitive _ _ _ H1 H2)).
Qed.

(** There is one sorted array for a given content. *)
Lemma sorted_perm_eq (l1 : list string) :
  forall l2,
    StronglySorted id_le l1 -> StronglySorted id_le l2 ->
    Permutation l1 l2 -> l1 = l2.
Proof.
  induction l1 as [| x l1 IH]; intros l2 H1 H2 P.
  - apply Permutation_nil in P. now subst.
  - destruct l2 as [| y l2].
    { symmetry in P. apply Permutation_nil in P. discriminate P. }
    inversion H1 as [| ? ? S1 F1]; subst.
    inversion H2 as [| ? ? S2 F2]; subst.
    rewrite Forall_forall in F1, F2.
    assert (E : x = y).
    { assert (Hx : In x (y :: l2))
        by (eapply Permutation_in; [exact P | now left]).
      assert (Hy : In y (x :: l1))
        by (eapply Permutation_in; [symmetry; exact P | now left]).
      destruct Hx as [Hx | Hx]; [now symmetry |].
      destruct Hy as [Hy | Hy]; [now symmetry |].
      apply id_le_antisym; auto. }
    subst y. f_equal. apply IH; auto.
    now apply Permutation_cons_inv in P.
Qed.

Lemma qsort_perm_eq (l1 l2 : list string) :
  Permutation l1 l2 -> qsort l1 = qsort l2.
Proof.
  intros P.
  assert (T : Relations_1.Transitive id_le)
    by (intros a b c; apply Order.id_le_trans).
  apply sorted_perm_eq.
  - apply Sorted_StronglySorted; [exact T | apply qsort_sorted].
  - apply Sorted_StronglySorted; [exact T | apply qsort_sorted].
  - apply Permutation_trans with l1; [symmetry; apply qsort_perm |].
    apply Permutation_trans with l2; [exact P | apply qsort_perm].
Qed.

Section Named.

Variable A : Type.
Variable id_of : A -> string.

(** With identifiers all different, the inner loop finds the same element
    wherever it stands. *)
Lemma first_named_perm (l1 l2 : list A) (id : string) :
  NoDup (map id_of l1) -> Permutation l1 l2 ->
  first_named A id_of l1 id = first_named A id_of l2 id.
Proof.
  intros Hnd P. unfold first_named.
  assert (Hnd2 : NoDup (map id_of l2)).
  { eapply Permutation_NoDup; [apply Permutation_map; exact P | exact Hnd]. }
  destruct (find (fun x => strcmp id (id_of x) =? 0) l1) as [x |] eqn:E1.
  - apply find_some in E1. destruct E1 as [Hin E1].
    apply strcmp_eq in E1. subst id.
    rewrite (Lookup.find_own A id_of l2 x Hnd2); [reflexivity |].
    eapply Permutation_in; [exact P | exact Hin].
  - destruct (find (fun x => strcmp id (id_of x) =? 0) l2) as [y |] eqn:E2;
      [| reflexivity].
    apply find_some in E2. destruct E2 as [Hin E2].
    assert (Hin1 : In y l1)
      by (eapply Permutation_in; [symmetry; exact P | exact Hin]).
    pose proof (find_none _ _ E1 y Hin1) as Hno. simpl in Hno.
    rewrite E2 in Hno. discriminate Hno.
Qed.

Lemma listed_perm (l1 l2 : list A) :
  NoDup (map id_of l1) -> Permutation l1 l2 ->
  flat_map (first_named A id_of l1) (qsort (map id_of l1))
  = flat_map (first_named A id_of l2) (qsort (map id_of l2)).
Proof.
  intros Hnd P.
  rewrite (qsort_perm_eq (map id_of l1) (map id_of l2))
    by (now apply Permutation_map).
  apply flat_map_ext. intros id. now apply first_named_perm.
Qed.

End Named.

End Reordering.

(** X15.  The bounding box and the summary do not depend on the order of
    the elements: two scenes with the same buildings and the same
    antennas have the same box, and [print_bounding_box] and
    [print_summary] print the same text for both. *)
Theorem box_and_summary_unordered :
  forall (s1 s2 : Scene),
    same_elements s1 s2 ->
    compute_bounding_box s1 = compute_bounding_box s2
    /\ print_bounding_box s1 = print_bounding_box s2
    /\ print_summary s1 = print_summary s2.
Proof.
  intros s1 s2 H.
  pose proof (Reordering.same_box s1 s2 H) as Hbox.
  destruct (Reordering.same_counts s1 s2 H) as [Hb Ha].
  split; [exact Hbox |].
  unfold print_bounding_box, print_summary.
  rewrite Hbox, Hb, Ha. split; reflexivity.
Qed.

(** An instance: two buildings and two antennas, each pair exchanged. *)
Lemma box_and_summary_unordered_witness :
  same_elements
    (mkScene [mkBuilding "b1" 0 0 1 1; mkBuilding "b2" 7 3 2 1]
       [mkAntenna "a1" 5 5 3; mkAntenna "a2" (-4) 2 1])
    (mkScene [mkBuilding "b2" 7 3 2 1; mkBuilding "b1" 0 0 1 1]
       [mkAntenna "a2" (-4) 2 1; mkAntenna "a1" 5 5 3])
  /\ compute_bounding_box
       (mkScene [mkBuilding "b1" 0 0 1 1; mkBuilding "b2" 7 3 2 1]
          [mkAntenna "a1" 5 5 3; mkAntenna "a2" (-4) 2 1])
     = compute_bounding_box
         (mkScene [mkBuilding "b2" 7 3 2 1; mkBuilding "b1" 0 0 1 1]
            [mkAntenna "a2" (-4) 2 1; mkAntenna "a1" 5 5 3]).
Proof.
  assert (H : same_elements
                (mkScene [mkBuilding "b1" 0 0 1 1; mkBuilding "b2" 7 3 2 1]
                   [mkAntenna "a1" 5 5 3; mkAntenna "a2" (-4) 2 1])
                (mkScene [mkBuilding "b2" 7 3 2 1; mkBuilding "b1" 0 0 1 1]
                   [mkAntenna "a2" (-4) 2 1; mkAntenna "a1" 5 5 3]))
    by (split; apply perm_swap).
  split; [exact H |].
  exact (proj1 (box_and_summary_unordered _ _ H)).
Defined.

(** X16.  When the identifiers are all different within each group, the
    description does not depend on the order of the elements either:
    [print_description] prints the same text for two scenes with the same
    buildings and the same antennas. *)
Theorem description_unordered :
  forall (s1 s2 : Scene),
    unique_ids s1 -> same_elements s1 s2 ->
    forall w, print_description s1 w = print_description s2 w.
Proof.
  intros s1 s2 [Ub Ua] H w.
  destruct (Reordering.same_counts s1 s2 H) as [Hb Ha].
  destruct H as [Pb Pa].
  rewrite (Listing.writes_print_description s1 w).
  rewrite (Listing.writes_print_description s2 w).
  unfold buildings_listed, antennas_listed, summary_text.
  rewrite (Reordering.listed_perm Building b_id _ _ Ub Pb).
  rewrite (Reordering.listed_perm Antenna a_id _ _ Ua Pa).
  rewrite Hb, Ha. reflexivity.
Qed.

(** An instance: two buildings and two antennas, each pair exchanged. *)
Lemma description_unordered_witness :
  unique_ids
    (mkScene [mkBuilding "b1" 0 0 1 1; mkBuilding "b2" 7 3 2 1]
       [mkAntenna "a1" 5 5 3; mkAntenna "a2" (-4) 2 1])
  /\ same_elements
       (mkScene [mkBuilding "b1" 0 0 1 1; mkBuilding "b2" 7 3 2 1]
          [mkAntenna "a1" 5 5 3; mkAntenna "a2" (-4) 2 1])
       (mkScene [mkBuilding "b2" 7 3 2 1; mkBuilding "b1" 0 0 1 1]
          [mkAntenna "a2" (-4) 2 1; mkAntenna "a1" 5 5 3])
  /\ print_description
       (mkScene [mkBuilding "b1" 0 0 1 1; mkBuilding "b2" 7 3 2 1]
          [mkAntenna "a1" 5 5 3; mkAntenna "a2" (-4) 2 1]) silent
     = print_description
         (mkScene [mkBuilding "b2" 7 3 2 1; mkBuilding "b1" 0 0 1 1]
            [mkAntenna "a2" (-4) 2 1; mkAntenna "a1" 5 5 3]) silent.
Proof.
  assert (U : unique_ids
                (mkScene [mkBuilding "b1" 0 0 1 1; mkBuilding "b2" 7 3 2 1]
                   [mkAntenna "a1" 5 5 3; mkAntenna "a2" (-4) 2 1])).
  { split; simpl; repeat constructor; simpl; intuition discriminate. }
  assert (H : same_elements
                (mkScene [mkBuilding "b1" 0 0 1 1; mkBuilding "b2" 7 3 2 1]
                   [mkAntenna "a1" 5 5 3; mkAntenna "a2" (-4) 2 1])
                (mkScene [mkBuilding "b2" 7 3 2 1; mkBuilding "b1" 0 0 1 1]
                   [mkAntenna "a2" (-4) 2 1; mkAntenna "a1" 5 5 3]))
    by (split; apply perm_swap).
  split; [exact U |]. split; [exact H |].
  exact (description_unordered _ _ U H silent).
Defined.

(** ** [trim_line] *)

Module Trimming.

Lemma char_at_next (c : ascii) (r : string) (i : nat) :
  char_at (String c r) (S i) = char_at r i.
Proof. reflexivity. Qed.

(** The first loop stops, at the index of a character that is not blank or
    at the start of the line, and has only passed blanks. *)
Lemma trim_end_spec (line : string) (fuel : nat) :
  forall e,
    (e <= fuel)%nat ->
    (trim_end fuel line e <= e)%nat
    /\ (forall i, (trim_end fuel line e < i <= e)%nat ->
                  is_blank (char_at line i) = true)
    /\ (trim_end fuel line e = 0%nat
        \/ is_blank (char_at line (trim_end fuel line e)) = false).
Proof.
  induction fuel as [| fuel IH]; intros e He; cbn [trim_end].
  - split; [lia |]. split; [intros i Hi; lia | left; lia].
  - destruct (0 <? e)%nat eqn:E0; cbn [andb].
    + apply Nat.ltb_lt in E0.
      destruct (is_blank (char_at line e)) eqn:Eb.
      * destruct (IH (e - 1)%nat ltac:(lia)) as (H1 & H2 & H3).
        split; [lia |]. split; [| exact H3].
        intros i Hi. destruct (Nat.eq_dec i e) as [-> | Hne]; [exact Eb |].
        apply H2. lia.
      * split; [lia |]. split; [intros i Hi; lia | right; exact Eb].
    + apply Nat.ltb_ge in E0.
      split; [lia |]. split; [intros i Hi; lia | left; lia].
Qed.

Lemma is_blank_spec (c : ascii) : is_blank c = true <-> space_or_tab c.
Proof.
  unfold is_blank, space_or_tab.
  rewrite orb_true_iff, !Ascii.eqb_eq. reflexivity.
Qed.

Lemma drop_blanks (m : nat) :
  forall s,
    (forall i, (m <= i < String.length s)%nat ->
               is_blank (char_at s i) = true) ->
    blanks (drop m s).
Proof.
  induction m as [| m IH]; intros s H.
  - replace (drop 0 s) with s by (destruct s; reflexivity).
    induction s as [| c r IHr]; [exact I |].
    cbn [blanks]. split.
    + apply is_blank_spec. apply (H 0%nat). simpl. lia.
    + apply IHr. intros i Hi. rewrite <- (char_at_next c r i).
      apply H. simpl. lia.
  - destruct s as [| c r]; [exact I |]. cbn [drop].
    apply IH. intros i Hi. rewrite <- (char_at_next c r i).
    apply H. simpl. lia.
Qed.

Lemma char_at_take (n : nat) :
  forall s i, (i < n)%nat -> char_at (take n s) i = char_at s i.
Proof.
  induction n as [| n IH]; intros s i Hi; [lia |].
  destruct s as [| c r]; [reflexivity |]. cbn [take].
  destruct i as [| i]; [reflexivity |].
  rewrite !char_at_next. apply IH. lia.
Qed.

End Trimming.

(** X17.  [trim_line] removes the blanks at the end of a line, and only
    those: the line is what is left followed by spaces and tabulations.
    What is left keeps the start of the line, blanks included, and at
    least its first character; when more than one character is left the
    last one is not a blank. *)
Theorem trim_line_trailing_blanks :
  forall (line : string),
    line <> EmptyString ->
    exists removed,
      line = (trim_line line ++ removed)%string
      /\ blanks removed
      /\ (1 <= String.length (trim_line line))%nat
      /\ (String.length (trim_line line) = 1%nat
          \/ ~ space_or_tab (char_at (trim_line line)
                               (String.length (trim_line line) - 1))).
Proof.
  intros line Hne.
  assert (Hlen : (1 <= String.length line)%nat)
    by (destruct line; [congruence | simpl; lia]).
  assert (E : trim_line line
              = take (S (trim_end (String.length line - 1) line
                           (String.length line - 1))) line)
    by (destruct line; [congruence | reflexivity]).
  destruct (Trimming.trim_end_spec line (String.length line - 1)
              (String.length line - 1) (le_n _)) as (H1 & H2 & H3).
  set (k := trim_end (String.length line - 1) line (String.length line - 1))
    in *.
  assert (L : String.length (trim_line line) = S k)
    by (rewrite E; apply Tokenizer.length_take; lia).
  exists (drop (S k) line). rewrite L. split; [| split; [| split]].
  - rewrite E. symmetry. apply Tokenizer.take_drop.
  - apply Trimming.drop_blanks. intros i Hi. apply H2. lia.
  - lia.
  - destruct H3 as [H3 | H3]; [left; lia | right].
    replace (S k - 1)%nat with k by lia.
    rewrite E, Trimming.char_at_take by lia.
    rewrite <- Trimming.is_blank_spec, H3. discriminate.
Qed.

(** An instance: a line with blanks at both ends, a tabulation among
    them. *)
Lemma trim_line_trailing_blanks_witness :
  trim_line ("  ab c " ++ String "009"%char " ") = "  ab c"%string
  /\ exists removed,
      ("  ab c " ++ String "009"%char " ")%string
      = (trim_line ("  ab c " ++ String "009"%char " ") ++ removed)%string
      /\ blanks removed.
Proof.
  split; [reflexivity |].
  destruct (trim_line_trailing_blanks ("  ab c " ++ String "009"%char " "))
    as (removed & H1 & H2 & _); [discriminate |].
  exists removed. split; [exact H1 | exact H2].
Defined.

(** ** The two versions of the parsers and of the description *)

(** X18.  The line parsers and the description of the second version,
    split into steps, behave as those of [kover.c]: on every line, line
    number and state of the channels they return the same result and
    print the same diagnostics, and on every scene the same
    description. *)
Theorem refactored_agree :
  forall (line : string) (line_num : Z) (scene : Scene) (w : World),
    Refactored.parse_building_line line line_num w
    = parse_building_line line line_num w
    /\ Refactored.parse_antenna_line line line_num w
       = parse_antenna_line line line_num w
    /\ Refactored.print_description scene w = print_description scene w.
Proof.
  intros line line_num scene w. split; [| split].
  - unfold Refactored.parse_building_line, parse_building_line,
      Refactored.extract_building_args, Refactored.validate_building_args,
      Refactored.construct_building, bind.
    destruct (sscanf line _) as [n args].
    destruct (negb (n =? 5)); [reflexivity |]. cbn [ret fst snd negb].
    destruct (negb (is_valid_id (arg 0 args))); [reflexivity |].
    destruct (negb (is_valid_integer (arg 1 args))); [reflexivity |].
    destruct (negb (is_valid_integer (arg 2 args))); [reflexivity |].
    destruct (negb (is_valid_positive_integer (arg 3 args))); [reflexivity |].
    destruct (negb (is_valid_positive_integer (arg 4 args))); reflexivity.
  - unfold Refactored.parse_antenna_line, parse_antenna_line,
      Refactored.extract_antenna_args, Refactored.validate_antenna_args,
      Refactored.construct_antenna, bind.
    destruct (sscanf line _) as [n args].
    destruct (negb (n =? 4)); [reflexivity |]. cbn [ret fst snd negb].
    destruct (negb (is_valid_id (arg 0 args))); [reflexivity |].
    destruct (negb (is_valid_integer (arg 1 args))); [reflexivity |].
    destruct (negb (is_valid_integer (arg 2 args))); [reflexivity |].
    destruct (negb (is_valid_positive_integer (arg 3 args))); reflexivity.
  - reflexivity.
Qed.

(** ** The texts of the reports *)

Module Rendering.

Import Description.

Lemma building_text_line (b : Building) :
  building_text b = (building_line b ++ LF)%string.
Proof.
  unfold building_text, building_line.
  rewrite <- !Decimals.decimal_fmt_d, !append_assoc. reflexivity.
Qed.

Lemma antenna_text_line (a : Antenna) :
  antenna_text a = (antenna_line a ++ LF)%string.
Proof.
  unfold antenna_text, antenna_line.
  rewrite <- !Decimals.decimal_fmt_d, !append_assoc. reflexivity.
Qed.

Lemma counted_count_of (n : nat) (noun : string) :
  counted (S n) noun = count_of (S n) noun.
Proof.
  unfold counted, count_of. rewrite <- Decimals.decimal_fmt_d.
  destruct n; reflexivity.
Qed.

Lemma summary_text_line (scene : Scene) :
  summary_text scene
  = (summary_line (List.length (buildings scene))
       (List.length (antennas scene)) ++ LF)%string.
Proof.
  unfold summary_text, summary_line, num_buildings, num_antennas.
  destruct (List.length (buildings scene)) as [| nb];
    destruct (List.length (antennas scene)) as [| na];
    cbn [Nat.eqb Nat.ltb Nat.leb andb];
    rewrite ?counted_count_of, ?append_assoc, ?append_empty; reflexivity.
Qed.

Lemma texts_unlines {A : Type} (f g : A -> string) (l : list A) :
  (forall x, f x = (g x ++ LF)%string) ->
  texts (map f l) = unlines (map g l).
Proof.
  intros H. induction l as [| x l IH]; [reflexivity |].
  cbn [map texts unlines fold_right]. fold (texts (map f l)).
  rewrite H, IH, append_assoc. reflexivity.
Qed.

Lemma unlines_app (l1 l2 : list string) :
  unlines (l1 ++ l2) = (unlines l1 ++ unlines l2)%string.
Proof.
  induction l1 as [| x l1 IH]; [reflexivity |].
  cbn [app unlines]. rewrite IH, append_assoc. reflexivity.
Qed.

(** The text of the description, line by line. *)
Lemma description_lines (scene : Scene) (bs : list Building)
      (ants : list Antenna) :
  (summary_text scene
   ++ texts (map building_text bs) ++ texts (map antenna_text ants))%string
  = unlines
      (summary_line (List.length (buildings scene))
         (List.length (antennas scene))
       :: map building_line bs ++ map antenna_line ants).
Proof.
  cbn [unlines]. rewrite unlines_app.
  rewrite (texts_unlines building_text building_line bs building_text_line).
  rewrite (texts_unlines antenna_text antenna_line ants antenna_text_line).
  rewrite summary_text_line, append_assoc. reflexivity.
Qed.

End Rendering.

(** C7.  For every scene read with success, [print_description] prints the
    summary line, then one line for every building, then one line for every
    antenna, each with all the attributes of the element: the identifier,
    x, y and the two half-dimensions of a building, the identifier, x, y
    and the range of an antenna, the numbers in decimal.  The buildings,
    and the antennas, come in ascending byte-wise lexicographic order of
    their identifiers.  A scene with the buildings zeta and alpha lists
    alpha first. *)
Theorem print_description_sorted :
  forall (w w' : World) (scene : Scene),
    read_scene init_scene w = (Some (true, scene), w') ->
    (exists (bs : list Building) (ants : list Antenna),
        Permutation bs (buildings scene)
        /\ StronglySorted lex_le (map b_id bs)
        /\ Permutation ants (antennas scene)
        /\ StronglySorted lex_le (map a_id ants)
        /\ forall w0 : World,
            print_description scene w0
            = (tt, mkWorld (w_stdin w0)
                     (w_stdout w0
                      ++ unlines
                           (summary_line (List.length (buildings scene))
                              (List.length (antennas scene))
                            :: map building_line bs
                               ++ map antenna_line ants))
                     (w_stderr w0)))
    /\ run ["kover"; "describe"]
         (unlines ["begin scene"; "building zeta 0 0 1 1";
                   "antenna rho -3 4 2"; "building alpha 5 -12 2 3";
                   "antenna beta 10 -20 15"; "end scene"])
       = (Some 0,
          mkWorld EmptyString
            (unlines ["A scene with 2 buildings and 2 antennas";
                      "  building alpha at 5 -12 with dimensions 2 3";
                      "  building zeta at 0 0 with dimensions 1 1";
                      "  antenna beta at 10 -20 with range 15";
                      "  antenna rho at -3 4 with range 2"])
            EmptyString).
Proof.
  intros w w' scene Hread. split; [| vm_compute; reflexivity].
  destruct (Validated.read_scene_unique w w' true scene Hread) as [Hb Ha].
  exists (buildings_listed scene), (antennas_listed scene).
  destruct (Lookup.named_sorted Building b_id (buildings scene) Hb) as [Pb Sb].
  destruct (Lookup.named_sorted Antenna a_id (antennas scene) Ha) as [Pa Sa].
  split; [exact Pb |]. split.
  { unfold buildings_listed. rewrite Sb.
    apply Order.strongly_sorted_ids, Description.qsort_sorted. }
  split; [exact Pa |]. split.
  { unfold antennas_listed. rewrite Sa.
    apply Order.strongly_sorted_ids, Description.qsort_sorted. }
  intros w0. rewrite (Listing.writes_print_description scene w0).
  unfold with_stdout. now rewrite Rendering.description_lines.
Qed.

(** An instance: the scene read from a stream of two buildings and two
    antennas, zeta and rho first. *)
Lemma print_description_sorted_witness :
  read_scene init_scene
    (mkWorld
       (unlines ["begin scene"; "building zeta 0 0 1 1";
                 "antenna rho -3 4 2"; "building alpha 5 -12 2 3";
                 "antenna beta 10 -20 15"; "end scene"])
       EmptyString EmptyString)
  = (Some (true,
           mkScene [mkBuilding "zeta" 0 0 1 1; mkBuilding "alpha" 5 (-12) 2 3]
             [mkAntenna "rho" (-3) 4 2; mkAntenna "beta" 10 (-20) 15]),
     mkWorld EmptyString EmptyString EmptyString)
  /\ exists (bs : list Building) (ants : list Antenna),
      Permutation bs
        [mkBuilding "zeta" 0 0 1 1; mkBuilding "alpha" 5 (-12) 2 3]
      /\ StronglySorted lex_le (map b_id bs)
      /\ Permutation ants
           [mkAntenna "rho" (-3) 4 2; mkAntenna "beta" 10 (-20) 15]
      /\ StronglySorted lex_le (map a_id ants)
      /\ forall w0 : World,
          print_description
            (mkScene
               [mkBuilding "zeta" 0 0 1 1; mkBuilding "alpha" 5 (-12) 2 3]
               [mkAntenna "rho" (-3) 4 2; mkAntenna "beta" 10 (-20) 15]) w0
          = (tt, mkWorld (w_stdin w0)
                   (w_stdout w0
                    ++ unlines
                         ("A scene with 2 buildings and 2 antennas"%string
                          :: map building_line bs ++ map antenna_line ants))
                   (w_stderr w0)).
Proof.
  assert (Hread : read_scene init_scene
                    (mkWorld
                       (unlines ["begin scene"; "building zeta 0 0 1 1";
                                 "antenna rho -3 4 2";
                                 "building alpha 5 -12 2 3";
                                 "antenna beta 10 -20 15"; "end scene"])
                       EmptyString EmptyString)
                  = (Some (true,
                           mkScene [mkBuilding "zeta" 0 0 1 1;
                                    mkBuilding "alpha" 5 (-12) 2 3]
                             [mkAntenna "rho" (-3) 4 2;
                              mkAntenna "beta" 10 (-20) 15]),
                     mkWorld EmptyString EmptyString EmptyString))
    by (vm_compute; reflexivity).
  split; [exact Hread |].
  exact (proj1 (print_description_sorted _ _ _ Hread)).
Defined.
